(** * renderer.cpp: a shallow embedding of the fpl renderer and its contracts

    The functions of [src/renderer.cpp] are written as programs of a small
    state-and-failure monad over a model of the OpenGL context.  Every GL
    entry point the source calls is a primitive of that monad: it appends
    the call to the log of the context and applies the effect the GL
    specification gives it on the object tables the source depends on
    (enabled vertex attribute arrays, buffer and texture names, shader and
    program objects).  What the driver decides on its own (the names it
    hands out, whether a source compiles, whether a program links) is a
    [Driver] record the development is parametric in.

    The functions that create and destroy the window ([Initialize],
    [AdvanceFrame], [ShutDown]) are programs of a second monad of the same
    shape over a model of SDL: the calls made, each with what it returned,
    and the windows and GL contexts alive.  What SDL decides is an [SDL]
    record. *)

From Stdlib Require Import ZArith QArith Lia.
From Stdlib.Strings Require Byte.
From stdpp Require Import base numbers gmap sets list strings.

Local Open Scope Z_scope.
#[local] Set Warnings "-clear-no-such-hyp".

(** ** Platform *)

(** The compile-time and host properties the source branches on. *)
Record Platform := {
  PLATFORM_MOBILE : bool;       (* the PLATFORM_MOBILE macro is defined *)
  host_little_endian : bool;    (* byte order of the host *)
  size_t_bits : Z               (* width of size_t and of pointers *)
}.

Definition sizeof_float : Z := 4.
Definition sizeof_int : Z := 4.
Definition INT_MAX : Z := 2147483647.
Definition INT_MIN : Z := -2147483648.

(** Arithmetic on [size_t] wraps around. *)
Definition size_t_wrap (plat : Platform) (z : Z) : Z :=
  z mod 2 ^ size_t_bits plat.

(** [const char *] plus [size_t]: an address, a machine word. *)
Definition ptr_add (plat : Platform) (p n : Z) : Z :=
  size_t_wrap plat (p + n).

(** A [size_t] converted to [GLsizeiptr], the signed type of the width of
    a pointer: a value above the maximum of [GLsizeiptr] becomes negative
    (two's complement, as the compilers this code builds with do). *)
Definition GLsizeiptr_of_size_t (plat : Platform) (z : Z) : Z :=
  if decide (z < 2 ^ (size_t_bits plat - 1)) then z
  else z - 2 ^ size_t_bits plat.

Definition nullptr : Z := 0.

(** The object representation of an [int], lowest address first. *)
Definition int_bytes (plat : Platform) (v : Z) : list Z :=
  let le := [v mod 256; (v / 256) mod 256; (v / 65536) mod 256;
             (v / 16777216) mod 256] in
  if host_little_endian plat then le else rev le.

(** ** The OpenGL context *)

Abbreviation GLuint := Z (only parsing).
Abbreviation GLint := Z (only parsing).

Inductive GLenum :=
  | GL_ARRAY_BUFFER | GL_ELEMENT_ARRAY_BUFFER | GL_STATIC_DRAW
  | GL_FLOAT | GL_UNSIGNED_BYTE | GL_UNSIGNED_INT | GL_TRIANGLES
  | GL_VERTEX_SHADER | GL_FRAGMENT_SHADER
  | GL_COMPILE_STATUS | GL_LINK_STATUS | GL_INFO_LOG_LENGTH
  | GL_TEXTURE0 | GL_TEXTURE_2D
  | GL_TEXTURE_WRAP_S | GL_TEXTURE_WRAP_T
  | GL_TEXTURE_MAG_FILTER | GL_TEXTURE_MIN_FILTER
  | GL_REPEAT | GL_LINEAR | GL_LINEAR_MIPMAP_LINEAR
  | GL_RGBA | GL_ALPHA | GL_BLEND | GL_SRC_ALPHA | GL_ONE_MINUS_SRC_ALPHA
  | GL_DEPTH_TEST | GL_LEQUAL | GL_GREATER | GL_ALPHA_TEST.

Global Instance GLenum_eq_dec : EqDecision GLenum.
Proof. solve_decision. Defined.

Definition GL_TRUE : GLint := 1.

(** A pointer to [Material]; the class is not part of this file. *)
Abbreviation MaterialPtr := Z (only parsing).

(** The calls the source makes, with their arguments.  Calls that hand out
    a name carry the name they returned.  [Material_Set] is the one call
    into the material abstraction. *)
Inductive Call :=
  | BindBuffer (target : GLenum) (buffer : GLuint)
  | EnableVertexAttribArray (index : GLuint)
  | DisableVertexAttribArray (index : GLuint)
  | VertexAttribPointer (index : GLuint) (size : GLint) (type : GLenum)
      (normalized : bool) (stride : Z) (pointer : Z)
  | GenBuffers (name : GLuint)
  | BufferData (target : GLenum) (size : Z) (data : list Z) (usage : GLenum)
  | DeleteBuffers (name : GLuint)
  | DrawElements (mode : GLenum) (count : Z) (type : GLenum) (indices : Z)
  | Material_Set (mat : MaterialPtr)
  | CreateShader (type : GLenum) (name : GLuint)
  | ShaderSource (shader : GLuint) (source : string)
  | CompileShader_ (shader : GLuint)
  | GetShaderiv (shader : GLuint) (pname : GLenum)
  | GetShaderInfoLog (shader : GLuint) (maxLength : Z)
  | AttachShader (program shader : GLuint)
  | DeleteShader (shader : GLuint)
  | CreateProgram (name : GLuint)
  | BindAttribLocation (program index : GLuint) (name : string)
  | LinkProgram (program : GLuint)
  | GetProgramiv (program : GLuint) (pname : GLenum)
  | GetProgramInfoLog (program : GLuint) (maxLength : Z)
  | DeleteProgram (program : GLuint)
  | UseProgram (program : GLuint)
  | GetUniformLocation (program : GLuint) (name : string)
  | Uniform1i (location : GLint) (v : Z)
  | GenTextures (name : GLuint)
  | ActiveTexture (texture : GLenum)
  | BindTexture (target : GLenum) (texture : GLuint)
  | TexParameteri (target pname param : GLenum)
  | TexImage2D (target : GLenum) (level : Z) (internalformat : GLenum)
      (width height border : Z) (format type : GLenum)
      (data : list (option Byte.byte))
  | Enable (cap : GLenum)
  | BlendFunc (sfactor dfactor : GLenum)
  | DepthFunc (func : GLenum)
  | AlphaFunc (func : GLenum) (ref : Q)
  | GenerateMipmap (target : GLenum).

Record ShaderObj := {
  sh_type : GLenum;
  sh_source : string;
  sh_compile_status : bool;
  sh_info_log : string;
  sh_delete_status : bool       (* glDeleteShader was called while attached *)
}.

Record ProgramObj := {
  pr_attached : gset Z;
  pr_link_status : bool;
  pr_info_log : string;
  pr_delete_status : bool       (* glDeleteProgram was called while current *)
}.

Record GLState := {
  gl_calls : list Call;               (* every call so far, oldest first *)
  gl_attrib_enabled : gset Z;         (* enabled vertex attribute arrays *)
  gl_buffers : gset Z;                (* buffer names in use *)
  gl_textures : gset Z;               (* texture names in use *)
  gl_shaders : gmap Z ShaderObj;
  gl_programs : gmap Z ProgramObj;
  gl_current_program : GLuint
}.

(** The state of a context right after its creation. *)
Definition gl_initial : GLState :=
  {| gl_calls := []; gl_attrib_enabled := ∅; gl_buffers := ∅;
     gl_textures := ∅; gl_shaders := ∅; gl_programs := ∅;
     gl_current_program := 0 |}.

Definition log (c : Call) (s : GLState) : GLState :=
  {| gl_calls := gl_calls s ++ [c];
     gl_attrib_enabled := gl_attrib_enabled s;
     gl_buffers := gl_buffers s; gl_textures := gl_textures s;
     gl_shaders := gl_shaders s; gl_programs := gl_programs s;
     gl_current_program := gl_current_program s |}.

Definition set_attrib_enabled (e : gset Z) (s : GLState) : GLState :=
  {| gl_calls := gl_calls s; gl_attrib_enabled := e;
     gl_buffers := gl_buffers s; gl_textures := gl_textures s;
     gl_shaders := gl_shaders s; gl_programs := gl_programs s;
     gl_current_program := gl_current_program s |}.

Definition set_buffers (b : gset Z) (s : GLState) : GLState :=
  {| gl_calls := gl_calls s; gl_attrib_enabled := gl_attrib_enabled s;
     gl_buffers := b; gl_textures := gl_textures s;
     gl_shaders := gl_shaders s; gl_programs := gl_programs s;
     gl_current_program := gl_current_program s |}.

Definition set_textures (t : gset Z) (s : GLState) : GLState :=
  {| gl_calls := gl_calls s; gl_attrib_enabled := gl_attrib_enabled s;
     gl_buffers := gl_buffers s; gl_textures := t;
     gl_shaders := gl_shaders s; gl_programs := gl_programs s;
     gl_current_program := gl_current_program s |}.

Definition set_shaders (m : gmap Z ShaderObj) (s : GLState) : GLState :=
  {| gl_calls := gl_calls s; gl_attrib_enabled := gl_attrib_enabled s;
     gl_buffers := gl_buffers s; gl_textures := gl_textures s;
     gl_shaders := m; gl_programs := gl_programs s;
     gl_current_program := gl_current_program s |}.

Definition set_programs (m : gmap Z ProgramObj) (s : GLState) : GLState :=
  {| gl_calls := gl_calls s; gl_attrib_enabled := gl_attrib_enabled s;
     gl_buffers := gl_buffers s; gl_textures := gl_textures s;
     gl_shaders := gl_shaders s; gl_programs := m;
     gl_current_program := gl_current_program s |}.

Definition set_current_program (p : GLuint) (s : GLState) : GLState :=
  {| gl_calls := gl_calls s; gl_attrib_enabled := gl_attrib_enabled s;
     gl_buffers := gl_buffers s; gl_textures := gl_textures s;
     gl_shaders := gl_shaders s; gl_programs := gl_programs s;
     gl_current_program := p |}.

(** *** What the driver decides *)

Record Driver := {
  drv_gen_buffer : GLState → GLuint;     (* the name glGenBuffers returns *)
  drv_gen_texture : GLState → GLuint;    (* the name glGenTextures returns *)
  drv_gen_object : GLState → GLuint;     (* glCreateShader, glCreateProgram *)
  drv_compile : GLenum → string → bool * string;  (* status and info log *)
  (* status and info log of a link, from the sources of the vertex
     stages and of the fragment stages attached *)
  drv_link : gset string → gset string → bool * string;
  drv_uniform_location : GLState → GLuint → string → GLint
}.

(** Shaders that some program of the table has attached. *)
Definition attached_names (programs : gmap Z ProgramObj) : gset Z :=
  ⋃ (pr_attached <$> (map_to_list programs).*2).

(** The sources of the shaders of one type among [attached]. *)
Definition attached_sources (shaders : gmap Z ShaderObj) (type : GLenum)
    (attached : gset Z) : gset string :=
  set_omap (λ sh, match shaders !! sh with
                  | Some o => if decide (sh_type o = type)
                              then Some (sh_source o) else None
                  | None => None
                  end) attached.

(** Shader and program names share one name space; a name is in use while
    an object has it, while it is current, and while it is attached. *)
Definition gl_object_names (s : GLState) : gset Z :=
  {[gl_current_program s]} ∪ dom (gl_shaders s) ∪ dom (gl_programs s)
  ∪ attached_names (gl_programs s).

(** The GL specification on the names a driver hands out: never [0], never
    a name in use. *)
Definition fresh_buffer_names (drv : Driver) : Prop :=
  ∀ s, drv_gen_buffer drv s ≠ 0 ∧ drv_gen_buffer drv s ∉ gl_buffers s.

Definition fresh_object_names (drv : Driver) : Prop :=
  ∀ s, drv_gen_object drv s ≠ 0
       ∧ drv_gen_object drv s ∉ gl_object_names s.

(** *** The effect of a call on the object tables *)

Definition new_shader (type : GLenum) : ShaderObj :=
  {| sh_type := type; sh_source := ""; sh_compile_status := false;
     sh_info_log := ""; sh_delete_status := false |}.

Definition new_program : ProgramObj :=
  {| pr_attached := ∅; pr_link_status := false; pr_info_log := "";
     pr_delete_status := false |}.

Definition with_source (source : string) (o : ShaderObj) : ShaderObj :=
  {| sh_type := sh_type o; sh_source := source;
     sh_compile_status := sh_compile_status o;
     sh_info_log := sh_info_log o; sh_delete_status := sh_delete_status o |}.

Definition with_compiled (r : bool * string) (o : ShaderObj) : ShaderObj :=
  {| sh_type := sh_type o; sh_source := sh_source o;
     sh_compile_status := r.1; sh_info_log := r.2;
     sh_delete_status := sh_delete_status o |}.

Definition flag_shader (o : ShaderObj) : ShaderObj :=
  {| sh_type := sh_type o; sh_source := sh_source o;
     sh_compile_status := sh_compile_status o;
     sh_info_log := sh_info_log o; sh_delete_status := true |}.

Definition with_attached (a : gset Z) (o : ProgramObj) : ProgramObj :=
  {| pr_attached := a; pr_link_status := pr_link_status o;
     pr_info_log := pr_info_log o; pr_delete_status := pr_delete_status o |}.

Definition with_linked (r : bool * string) (o : ProgramObj) : ProgramObj :=
  {| pr_attached := pr_attached o; pr_link_status := r.1;
     pr_info_log := r.2; pr_delete_status := pr_delete_status o |}.

Definition flag_program (o : ProgramObj) : ProgramObj :=
  {| pr_attached := pr_attached o; pr_link_status := pr_link_status o;
     pr_info_log := pr_info_log o; pr_delete_status := true |}.

(** glDeleteShader: an attached shader is only flagged; it goes when it is
    no longer attached to any program. *)
Definition delete_shader (sh : GLuint) (s : GLState) : GLState :=
  match gl_shaders s !! sh with
  | None => s
  | Some o =>
      if decide (sh ∈ attached_names (gl_programs s))
      then set_shaders (<[sh := flag_shader o]> (gl_shaders s)) s
      else set_shaders (delete sh (gl_shaders s)) s
  end.

(** The shader [sh] goes together with the program that had [attached]:
    it was flagged, that program had it, and no remaining one has. *)
Definition swept (attached : gset Z) (programs : gmap Z ProgramObj)
    (kv : GLuint * ShaderObj) : Prop :=
  sh_delete_status kv.2 = true ∧ kv.1 ∈ attached
  ∧ kv.1 ∉ attached_names programs.

Global Instance swept_dec attached programs kv :
  Decision (swept attached programs kv).
Proof. unfold swept. apply _. Defined.

Definition remove_program (p : GLuint) (o : ProgramObj) (s : GLState)
    : GLState :=
  let programs' := delete p (gl_programs s) in
  set_shaders
    (filter (λ kv, ¬ swept (pr_attached o) programs' kv) (gl_shaders s))
    (set_programs programs' s).

(** glDeleteProgram: the current program is only flagged. *)
Definition delete_program (p : GLuint) (s : GLState) : GLState :=
  match gl_programs s !! p with
  | None => s
  | Some o =>
      if decide (p = gl_current_program s)
      then set_programs (<[p := flag_program o]> (gl_programs s)) s
      else remove_program p o s
  end.

(** glUseProgram: an error, and no effect, unless [p] is [0] or a linked
    program; a flagged program goes when it stops being current. *)
Definition use_program (p : GLuint) (s : GLState) : GLState :=
  if decide (p = 0 ∨ pr_link_status <$> gl_programs s !! p = Some true)
  then
    let old := gl_current_program s in
    let s1 := set_current_program p s in
    if decide (old = p) then s1
    else match gl_programs s !! old with
         | Some o => if pr_delete_status o then remove_program old o s1
                     else s1
         | None => s1
         end
  else s.

Definition attach_shader (p sh : GLuint) (s : GLState) : GLState :=
  match gl_programs s !! p, gl_shaders s !! sh with
  | Some o, Some _ =>
      set_programs
        (<[p := with_attached ({[sh]} ∪ pr_attached o) o]> (gl_programs s)) s
  | _, _ => s
  end.

(** ** The monad of GL programs *)

(** A run ends with a value, in undefined behaviour (a read outside an
    object, an indeterminate value used, a signed overflow), or with the
    iteration budget of an unbounded loop used up. *)
Inductive result (A : Type) :=
  | Ok (a : A)
  | Undefined
  | OutOfFuel.
Arguments Ok {A} a.
Arguments Undefined {A}.
Arguments OutOfFuel {A}.

Definition GL (A : Type) : Type := GLState → result (A * GLState).

Definition ret {A} (a : A) : GL A := λ s, Ok (a, s).

Definition bind {A B} (m : GL A) (k : A → GL B) : GL B :=
  λ s, match m s with
       | Ok (a, s') => k a s'
       | Undefined => Undefined
       | OutOfFuel => OutOfFuel
       end.

Definition undefined {A} : GL A := λ _, Undefined.
Definition out_of_fuel {A} : GL A := λ _, OutOfFuel.

Notation "'let*' x := c 'in' k" := (bind c (λ x, k))
  (at level 10, x pattern, c at level 100, k at level 200).
Notation "c ;;; k" := (bind c (λ _, k))
  (at level 100, k at level 200, right associativity).

(** ** Vertex attributes *)

(** The fixed attribute slots (the anonymous enum at the top of the file). *)
Definition kAttributePosition : GLuint := 0.
Definition kAttributeNormal : GLuint := 1.
Definition kAttributeTexCoord : GLuint := 2.
Definition kAttributeColor : GLuint := 3.

(** The enumerators of [Attribute] that the two switches dispatch on. *)
Inductive Attribute :=
  | kEND | kPosition3f | kNormal3f | kTexCoord2f | kColor4ub.

Global Instance Attribute_eq_dec : EqDecision Attribute.
Proof. solve_decision. Defined.


(** ** Objects of the renderer *)

(** [struct Indices], from its uses in [Mesh]. *)
Record Indices := { count : Z; ibo : GLuint; mat : MaterialPtr }.

(** The fields of [Mesh] this file reads and writes; [format_] is the
    caller's array from the stored pointer on. *)
Record Mesh := {
  vertex_size_ : Z;
  format_ : list Attribute;
  vbo_ : GLuint;
  indices_ : list Indices
}.

(** The field of [Renderer] the shader functions write. *)
Record Renderer := { last_error_ : string }.

Record Shader := {
  program_ : GLuint;
  vs_ : GLuint;
  ps_ : GLuint;
  uniform_model_view_projection_ : GLint;
  uniform_color_ : GLint;
  uniform_texture_unit_0 : GLint
}.

(** Modelled from the spec: the constructor [Shader(program, vs, ps)] of the
    header stores the program and the two stages it is given; the three
    uniform locations are set by [Initialize] and absent (negative) before. *)
Definition Shader_new (program vs ps : GLuint) : Shader :=
  {| program_ := program; vs_ := vs; ps_ := ps;
     uniform_model_view_projection_ := -1; uniform_color_ := -1;
     uniform_texture_unit_0 := -1 |}.

Definition LF : string := String (Ascii.ascii_of_nat 10) EmptyString.

(** [unsigned char] to [int], and back. *)
Definition uchar (b : Byte.byte) : Z := Z.of_N (Byte.to_N b).

Definition to_uchar (z : Z) : Byte.byte :=
  default Byte.x00 (Byte.of_N (Z.to_N (z mod 256))).

(** ** Sample platforms and drivers *)

Definition desktop : Platform :=
  {| PLATFORM_MOBILE := false; host_little_endian := true;
     size_t_bits := 64 |}.

Definition big_endian_desktop : Platform :=
  {| PLATFORM_MOBILE := false; host_little_endian := false;
     size_t_bits := 64 |}.

Definition max_name (names : gset Z) : Z := set_fold Z.max 0 names.

(** A driver that hands out the name after the largest one in use, and
    compiles and links as the two functions it is given say. *)
Definition sequential_driver (compile : GLenum → string → bool * string)
    (link : gset string → gset string → bool * string) : Driver :=
  {| drv_gen_buffer s := 1 + max_name (gl_buffers s);
     drv_gen_texture s := 1 + max_name (gl_textures s);
     drv_gen_object s := 1 + max_name (gl_object_names s);
     drv_compile := compile;
     drv_link := link;
     drv_uniform_location _ _ _ := -1 |}.

(** It rejects every source, with a log. *)
Definition rejecting_driver : Driver :=
  sequential_driver (λ _ _, (false, "0:1: syntax error"))
                    (λ _ _, (false, "link error")).

(** It rejects every source, and has no log to give. *)
Definition silent_driver : Driver :=
  sequential_driver (λ _ _, (false, "")) (λ _ _, (false, "")).

(** It accepts every source, without a log, and knows no uniform. *)
Definition accepting_driver : Driver :=
  sequential_driver (λ _ _, (true, "")) (λ _ _, (true, "")).

(** A mesh of two index ranges, and a Renderer with no error yet. *)
Definition sample_mesh : Mesh :=
  {| vertex_size_ := 20;
     format_ := [kPosition3f; kTexCoord2f; kEND];
     vbo_ := 1;
     indices_ := [{| count := 6; ibo := 2; mat := 100 |};
                  {| count := 3; ibo := 3; mat := 200 |}] |}.

Definition sample_renderer : Renderer := {| last_error_ := "" |}.

(** A header with bpp = 16, which the decoder does not accept. *)
Definition sample_16bit_header : list Byte.byte :=
  [Byte.x00; Byte.x00; Byte.x02; Byte.x00; Byte.x00; Byte.x00; Byte.x00;
   Byte.x00; Byte.x00; Byte.x00; Byte.x00; Byte.x00; Byte.x02; Byte.x00;
   Byte.x02; Byte.x00; Byte.x10; Byte.x00].

(** What the specification says of a stage that failed to compile: it is
    still there for the caller to delete. *)
Definition stage_alive (s : GLState) (sh : GLuint) : Prop :=
  is_Some (gl_shaders s !! sh).

(** ** The window system *)

(** The functions of the file that create and destroy the window talk to
    SDL.  Its calls are logged as the GL calls are, each with what it
    returned; the windows and the GL contexts alive are tracked. *)

Inductive SDL_GLattr :=
  | SDL_GL_CONTEXT_MAJOR_VERSION | SDL_GL_CONTEXT_MINOR_VERSION
  | SDL_GL_CONTEXT_PROFILE_MASK | SDL_GL_DOUBLEBUFFER.

Inductive SDL_WindowFlags :=
  | SDL_WINDOW_OPENGL | SDL_WINDOW_SHOWN
  | SDL_WINDOW_BORDERLESS | SDL_WINDOW_RESIZABLE.

Inductive SDL_InitFlags := SDL_INIT_VIDEO.

Inductive SDL_WindowPos := SDL_WINDOWPOS_CENTERED.

(** The value of the enumerator in SDL_video.h. *)
Definition SDL_GL_CONTEXT_PROFILE_COMPATIBILITY : Z := 2.

(** The calls the source makes to SDL, and the GL calls of the functions
    that manage the window.  A pointer is its address; 0 is the null
    pointer. *)
Inductive SDLCall :=
  | Init (flags : SDL_InitFlags) (result : Z)
  | GetError (result : string)
  | GL_SetAttribute (attr : SDL_GLattr) (value : Z)
  | CreateWindow (title : string) (x y : SDL_WindowPos) (w h : Z)
      (flags : list SDL_WindowFlags) (window : Z)
  | GetWindowSize (window : Z) (size : Z * Z)
  | GL_CreateContext (window : Z) (context : Z)
  | GL_SetSwapInterval (interval : Z)
  | GetString_EXTENSIONS (result : option string)
  | GL_GetProcAddress (proc : string) (result : Z)
  | GL_DeleteContext (context : Z)
  | DestroyWindow (window : Z)
  | Delay (ms : Z)
  | GL_SwapWindow (window : Z)
  | Viewport (x y width height : Z).

Record SDLState := {
  sdl_calls : list SDLCall;           (* every call so far, oldest first *)
  sdl_windows : gset Z;               (* the windows alive *)
  sdl_contexts : gset Z;              (* the GL contexts alive *)
  (* the function pointers that GLEXT defines at file scope, by name;
     one that is not in the map is null *)
  gl_function_pointers : gmap string Z
}.

Definition sdl_initial : SDLState :=
  {| sdl_calls := []; sdl_windows := ∅; sdl_contexts := ∅;
     gl_function_pointers := ∅ |}.

Definition sdl_log (c : SDLCall) (s : SDLState) : SDLState :=
  {| sdl_calls := sdl_calls s ++ [c]; sdl_windows := sdl_windows s;
     sdl_contexts := sdl_contexts s;
     gl_function_pointers := gl_function_pointers s |}.

Definition set_windows (w : gset Z) (s : SDLState) : SDLState :=
  {| sdl_calls := sdl_calls s; sdl_windows := w;
     sdl_contexts := sdl_contexts s;
     gl_function_pointers := gl_function_pointers s |}.

Definition set_contexts (c : gset Z) (s : SDLState) : SDLState :=
  {| sdl_calls := sdl_calls s; sdl_windows := sdl_windows s;
     sdl_contexts := c;
     gl_function_pointers := gl_function_pointers s |}.

Definition set_function_pointers (f : gmap string Z) (s : SDLState)
    : SDLState :=
  {| sdl_calls := sdl_calls s; sdl_windows := sdl_windows s;
     sdl_contexts := sdl_contexts s; gl_function_pointers := f |}.

(** A window or a context is alive from the call that returned it to the
    call that destroys it. *)
Definition sdl_effect (c : SDLCall) (s : SDLState) : SDLState :=
  match c with
  | CreateWindow _ _ _ _ _ _ window =>
      if decide (window = 0) then s
      else set_windows ({[window]} ∪ sdl_windows s) s
  | GL_CreateContext _ context =>
      if decide (context = 0) then s
      else set_contexts ({[context]} ∪ sdl_contexts s) s
  | GL_DeleteContext context =>
      set_contexts (sdl_contexts s ∖ {[context]}) s
  | DestroyWindow window => set_windows (sdl_windows s ∖ {[window]}) s
  | _ => s
  end.

Definition sdl_step (s : SDLState) (c : SDLCall) : SDLState :=
  sdl_log c (sdl_effect c s).

(** What SDL and the driver decide: what each call returns, in the state
    it is made in. *)
Record SDL := {
  sdl_init : SDLState → Z;                       (* SDL_Init *)
  sdl_error : SDLState → string;                 (* SDL_GetError *)
  sdl_create_window : SDLState → Z;              (* a window, or null *)
  sdl_window_size : SDLState → Z → Z * Z;        (* SDL_GetWindowSize *)
  sdl_create_context : SDLState → Z → Z;         (* a context, or null *)
  sdl_extensions : SDLState → option string;     (* a string, or null *)
  sdl_proc_address : SDLState → string → Z       (* a function, or null *)
}.

(** SDL returns a null pointer or an object that was not alive. *)
Definition fresh_handles (sdl : SDL) : Prop :=
  ∀ s, (sdl_create_window sdl s ≠ 0 →
        sdl_create_window sdl s ∉ sdl_windows s)
       ∧ ∀ window, sdl_create_context sdl s window ≠ 0 →
                   sdl_create_context sdl s window ∉ sdl_contexts s.

(** Programs over the window system, with the same three outcomes as the
    programs over the GL context. *)
Definition SDLM (A : Type) : Type := SDLState → result (A * SDLState).

Global Instance SDLM_ret : MRet SDLM := λ A a s, Ok (a, s).

Global Instance SDLM_bind : MBind SDLM := λ A B k m s,
  match m s with
  | Ok (a, s') => k a s'
  | Undefined => Undefined
  | OutOfFuel => OutOfFuel
  end.

(** The fields of [Renderer] the window functions read and write:
    [last_error_], in the part the shader functions share, [window_],
    [context_] and [window_size_]. *)
Record RendererSDL := {
  shared : Renderer;
  window_ : Z;
  context_ : Z;
  window_size_ : Z * Z
}.

Definition set_last_error (e : string) (this : RendererSDL) : RendererSDL :=
  {| shared := {| last_error_ := e |}; window_ := window_ this;
     context_ := context_ this; window_size_ := window_size_ this |}.

Definition set_window (w : Z) (this : RendererSDL) : RendererSDL :=
  {| shared := shared this; window_ := w; context_ := context_ this;
     window_size_ := window_size_ this |}.

Definition set_context (c : Z) (this : RendererSDL) : RendererSDL :=
  {| shared := shared this; window_ := window_ this; context_ := c;
     window_size_ := window_size_ this |}.

Definition set_window_size (size : Z * Z) (this : RendererSDL)
    : RendererSDL :=
  {| shared := shared this; window_ := window_ this;
     context_ := context_ this; window_size_ := size |}.

(** [strstr(haystack, needle) != NULL] *)
Definition strstr (haystack needle : string) : bool :=
  bool_decide (is_Some (String.index 0 needle haystack)).

(** The extensions Initialize asks for on the desktop. *)
Definition required_extensions : list string :=
  ["GL_ARB_vertex_buffer_object"; "GL_ARB_multitexture";
   "GL_ARB_vertex_program"; "GL_ARB_fragment_program"].

(** ** Sample windows and images *)

(** SDL on a machine with a display: it creates what it is asked for, with
    the name after the largest one alive, reports a window of 1920 by 1080
    whatever was asked for, and finds every GL function; the driver has the
    four extensions. *)
Definition sample_sdl : SDL :=
  {| sdl_init _ := 0;
     sdl_error _ := "";
     sdl_create_window s := 1 + max_name (sdl_windows s);
     sdl_window_size _ _ := (1920, 1080);
     sdl_create_context s _ := 1 + max_name (sdl_contexts s);
     sdl_extensions _ :=
       Some ("GL_ARB_fragment_program GL_ARB_multitexture "
             +:+ "GL_ARB_vertex_buffer_object GL_ARB_vertex_program");
     sdl_proc_address _ _ := 4096 |}.

(** SDL without a video device. *)
Definition headless_sdl : SDL :=
  {| sdl_init _ := -1;
     sdl_error _ := "No available video device";
     sdl_create_window _ := 0;
     sdl_window_size _ _ := (0, 0);
     sdl_create_context _ _ := 0;
     sdl_extensions _ := None;
     sdl_proc_address _ _ := 0 |}.

(** SDL that creates windows and no GL context. *)
Definition no_context_sdl : SDL :=
  {| sdl_init _ := 0;
     sdl_error _ := "Could not create GL context";
     sdl_create_window s := 1 + max_name (sdl_windows s);
     sdl_window_size _ _ := (640, 480);
     sdl_create_context _ _ := 0;
     sdl_extensions _ := None;
     sdl_proc_address _ _ := 0 |}.

(** SDL with a driver that has no extension string. *)
Definition no_extensions_sdl : SDL :=
  {| sdl_init _ := 0;
     sdl_error _ := "";
     sdl_create_window s := 1 + max_name (sdl_windows s);
     sdl_window_size _ _ := (640, 480);
     sdl_create_context s _ := 1 + max_name (sdl_contexts s);
     sdl_extensions _ := None;
     sdl_proc_address _ _ := 4096 |}.

(** A Renderer before Initialize. *)
Definition sample_RendererSDL : RendererSDL :=
  {| shared := sample_renderer; window_ := 0; context_ := 0;
     window_size_ := (0, 0) |}.

(** A 24-bit image of 3 by 2 pixels, flipped, with an image id of two
    bytes, color map data and an origin that are not zero, and one byte
    after the pixel data.  The pixels are 1, 2, 3 in the first row of the
    file and 4, 5, 6 in the second, each as B, G, R. *)
Definition sample_3x2 : list Byte.byte :=
  [Byte.x02; Byte.x00; Byte.x02;
   Byte.x11; Byte.x12; Byte.x13; Byte.x14; Byte.x15;
   Byte.x07; Byte.x00; Byte.x09; Byte.x00;
   Byte.x03; Byte.x00; Byte.x02; Byte.x00; Byte.x18; Byte.x20]
  ++ [Byte.xaa; Byte.xbb]
  ++ [Byte.x1b; Byte.x1a; Byte.x19;  Byte.x2b; Byte.x2a; Byte.x29;
      Byte.x3b; Byte.x3a; Byte.x39;
      Byte.x4b; Byte.x4a; Byte.x49;  Byte.x5b; Byte.x5a; Byte.x59;
      Byte.x6b; Byte.x6a; Byte.x69]
  ++ [Byte.xee].

(** The same image in a buffer that differs where the decoder does not
    look: the color map data, the origin, the low bits of the descriptor,
    the image id, and what follows the pixel data. *)
Definition sample_3x2_other : list Byte.byte :=
  [Byte.x02; Byte.x00; Byte.x02;
   Byte.x00; Byte.x00; Byte.x00; Byte.x00; Byte.x00;
   Byte.x00; Byte.x00; Byte.x00; Byte.x00;
   Byte.x03; Byte.x00; Byte.x02; Byte.x00; Byte.x18; Byte.x28]
  ++ [Byte.x00; Byte.x00]
  ++ [Byte.x1b; Byte.x1a; Byte.x19;  Byte.x2b; Byte.x2a; Byte.x29;
      Byte.x3b; Byte.x3a; Byte.x39;
      Byte.x4b; Byte.x4a; Byte.x49;  Byte.x5b; Byte.x5a; Byte.x59;
      Byte.x6b; Byte.x6a; Byte.x69]
  ++ [Byte.x01; Byte.x02; Byte.x03].

(** The header of a 32-bit image of the width and the height given, each as
    two bytes, low byte first. *)
Definition sample_header_of (w0 w1 h0 h1 : Byte.byte) : list Byte.byte :=
  [Byte.x00; Byte.x00; Byte.x02; Byte.x00; Byte.x00; Byte.x00; Byte.x00;
   Byte.x00; Byte.x00; Byte.x00; Byte.x00; Byte.x00; w0; w1; h0; h1;
   Byte.x20; Byte.x00].

(** A mesh right after its construction, with buffer 1 for its vertices. *)
Definition sample_new_mesh : Mesh :=
  {| vertex_size_ := 12; format_ := [kPosition3f; kEND]; vbo_ := 1;
     indices_ := [] |}.

(** The names of GL functions a header could list. *)
Definition sample_GLBASEEXTS : list string := ["glActiveTexture"].
Definition sample_GLEXTS : list string := ["glGenBuffers"; "glBindBuffer"].

(** What a run over the window system shows: its value and its calls. *)
Definition sdl_outcome {A} (r : result (A * SDLState))
    : option (A * list SDLCall) :=
  match r with
  | Ok (a, s) => Some (a, sdl_calls s)
  | _ => None
  end.

Section Renderer.
Context (plat : Platform) (drv : Driver).

Definition gl_effect (c : Call) (s : GLState) : GLState :=
  match c with
  | EnableVertexAttribArray index =>
      set_attrib_enabled ({[index]} ∪ gl_attrib_enabled s) s
  | DisableVertexAttribArray index =>
      set_attrib_enabled (gl_attrib_enabled s ∖ {[index]}) s
  | GenBuffers name => set_buffers ({[name]} ∪ gl_buffers s) s
  | DeleteBuffers name => set_buffers (gl_buffers s ∖ {[name]}) s
  | GenTextures name => set_textures ({[name]} ∪ gl_textures s) s
  | CreateShader type name =>
      set_shaders (<[name := new_shader type]> (gl_shaders s)) s
  | ShaderSource shader source =>
      set_shaders (alter (with_source source) shader (gl_shaders s)) s
  | CompileShader_ shader =>
      set_shaders
        (alter (λ o, with_compiled (drv_compile drv (sh_type o) (sh_source o))
                                   o) shader (gl_shaders s)) s
  | AttachShader program shader => attach_shader program shader s
  | DeleteShader shader => delete_shader shader s
  | CreateProgram name =>
      set_programs (<[name := new_program]> (gl_programs s)) s
  | LinkProgram program =>
      set_programs
        (alter (λ o, with_linked
                  (drv_link drv
                     (attached_sources (gl_shaders s) GL_VERTEX_SHADER
                                       (pr_attached o))
                     (attached_sources (gl_shaders s) GL_FRAGMENT_SHADER
                                       (pr_attached o))) o)
               program (gl_programs s)) s
  | DeleteProgram program => delete_program program s
  | UseProgram program => use_program program s
  | _ => s
  end.

(** One call: its effect, then its entry in the log. *)
Definition step (s : GLState) (c : Call) : GLState := log c (gl_effect c s).

(** The state after a sequence of calls. *)
Definition replay (cs : list Call) (s : GLState) : GLState :=
  foldl step s cs.

(** *** Primitives *)

Definition call (c : Call) : GL unit := λ s, Ok (tt, step s c).

(** [for (auto it = v.begin(); it != v.end(); ++it) body(it)] *)
Fixpoint for_each {A} (v : list A) (body : A → GL unit) : GL unit :=
  match v with
  | [] => ret tt
  | it :: v' => body it ;;; for_each v' body
  end.

(** *** The entry points *)

Definition glBindBuffer (target : GLenum) (buffer : GLuint) : GL unit :=
  call (BindBuffer target buffer).

Definition glEnableVertexAttribArray (index : GLuint) : GL unit :=
  call (EnableVertexAttribArray index).

Definition glDisableVertexAttribArray (index : GLuint) : GL unit :=
  call (DisableVertexAttribArray index).

Definition glVertexAttribPointer (index : GLuint) (size : GLint)
    (type : GLenum) (normalized : bool) (stride pointer : Z) : GL unit :=
  call (VertexAttribPointer index size type normalized stride pointer).

(** [glGenBuffers(1, &name)] *)
Definition glGenBuffers : GL GLuint :=
  λ s, let name := drv_gen_buffer drv s in Ok (name, step s (GenBuffers name)).

Definition glBufferData (target : GLenum) (size : Z) (data : list Z)
    (usage : GLenum) : GL unit :=
  call (BufferData target size data usage).

(** [glDeleteBuffers(1, &name)] *)
Definition glDeleteBuffers (name : GLuint) : GL unit :=
  call (DeleteBuffers name).

Definition glDrawElements (mode : GLenum) (count : Z) (type : GLenum)
    (indices : Z) : GL unit :=
  call (DrawElements mode count type indices).

Definition glCreateShader (type : GLenum) : GL GLuint :=
  λ s, let name := drv_gen_object drv s in
       Ok (name, step s (CreateShader type name)).

(** [glShaderSource(shader, 1, &source, nullptr)] *)
Definition glShaderSource (shader : GLuint) (source : string) : GL unit :=
  call (ShaderSource shader source).

Definition glCompileShader (shader : GLuint) : GL unit :=
  call (CompileShader_ shader).

(** GL_INFO_LOG_LENGTH counts the terminating NUL; it is 0 without a log. *)
Definition info_log_length (info_log : string) : Z :=
  if decide (info_log = "") then 0
  else Z.of_nat (String.length info_log) + 1.

(** A query writes its result through the pointer it is given.  [None]:
    the call was an error and wrote nothing. *)
Definition glGetShaderiv (shader : GLuint) (pname : GLenum)
    : GL (option GLint) :=
  λ s, Ok (match gl_shaders s !! shader, pname with
           | Some o, GL_COMPILE_STATUS =>
               Some (if sh_compile_status o then 1 else 0)
           | Some o, GL_INFO_LOG_LENGTH =>
               Some (info_log_length (sh_info_log o))
           | _, _ => None
           end, step s (GetShaderiv shader pname)).

Definition NUL : string := String Ascii.zero EmptyString.

(** The characters an info-log query writes into a buffer of [maxLength]
    characters: as much of the log as fits before the terminating NUL. *)
Definition info_log_written (info_log : string) (maxLength : Z) : string :=
  if decide (0 < maxLength)
  then String.app (String.substring 0 (Z.to_nat (maxLength - 1)) info_log) NUL
  else "".

Definition glGetShaderInfoLog (shader : GLuint) (maxLength : Z)
    : GL string :=
  λ s, Ok (match gl_shaders s !! shader with
           | Some o => info_log_written (sh_info_log o) maxLength
           | None => ""
           end, step s (GetShaderInfoLog shader maxLength)).

Definition glAttachShader (program shader : GLuint) : GL unit :=
  call (AttachShader program shader).

Definition glDeleteShader (shader : GLuint) : GL unit :=
  call (DeleteShader shader).

Definition glCreateProgram : GL GLuint :=
  λ s, let name := drv_gen_object drv s in
       Ok (name, step s (CreateProgram name)).

Definition glBindAttribLocation (program index : GLuint) (name : string)
    : GL unit :=
  call (BindAttribLocation program index name).

Definition glLinkProgram (program : GLuint) : GL unit :=
  call (LinkProgram program).

Definition glGetProgramiv (program : GLuint) (pname : GLenum)
    : GL (option GLint) :=
  λ s, Ok (match gl_programs s !! program, pname with
           | Some o, GL_LINK_STATUS =>
               Some (if pr_link_status o then 1 else 0)
           | Some o, GL_INFO_LOG_LENGTH =>
               Some (info_log_length (pr_info_log o))
           | _, _ => None
           end, step s (GetProgramiv program pname)).

Definition glGetProgramInfoLog (program : GLuint) (maxLength : Z)
    : GL string :=
  λ s, Ok (match gl_programs s !! program with
           | Some o => info_log_written (pr_info_log o) maxLength
           | None => ""
           end, step s (GetProgramInfoLog program maxLength)).

Definition glDeleteProgram (program : GLuint) : GL unit :=
  call (DeleteProgram program).

Definition glUseProgram (program : GLuint) : GL unit :=
  call (UseProgram program).

Definition glGetUniformLocation (program : GLuint) (name : string)
    : GL GLint :=
  λ s, Ok (drv_uniform_location drv s program name,
           step s (GetUniformLocation program name)).

Definition glUniform1i (location : GLint) (v : Z) : GL unit :=
  call (Uniform1i location v).

(** [glGenTextures(1, &name)] *)
Definition glGenTextures : GL GLuint :=
  λ s, let name := drv_gen_texture drv s in
       Ok (name, step s (GenTextures name)).

Definition glActiveTexture (texture : GLenum) : GL unit :=
  call (ActiveTexture texture).

Definition glBindTexture (target : GLenum) (texture : GLuint) : GL unit :=
  call (BindTexture target texture).

Definition glTexParameteri (target pname param : GLenum) : GL unit :=
  call (TexParameteri target pname param).

Definition glTexImage2D (target : GLenum) (level : Z)
    (internalformat : GLenum) (width height border : Z)
    (format type : GLenum) (data : list (option Byte.byte)) : GL unit :=
  call (TexImage2D target level internalformat width height border
                   format type data).

Definition glEnable (cap : GLenum) : GL unit := call (Enable cap).

Definition glBlendFunc (sfactor dfactor : GLenum) : GL unit :=
  call (BlendFunc sfactor dfactor).

Definition glDepthFunc (func : GLenum) : GL unit := call (DepthFunc func).

Definition glAlphaFunc (func : GLenum) (ref : Q) : GL unit :=
  call (AlphaFunc func ref).

Definition glGenerateMipmap (target : GLenum) : GL unit :=
  call (GenerateMipmap target).

(** [it->mat->Set(renderer)]: the call leaves this file. *)
Definition Material_Set_call (mat : MaterialPtr) (renderer : Renderer)
    : GL unit :=
  call (Material_Set mat).

(** ** Vertex attribute binding *)

(** [Mesh::SetAttributes].  The pointer [attributes] is the part of the
    caller's array from the pointer on; [*attributes++] past its end is a
    read outside the array.  [fuel] bounds the iterations of [for (;;)]. *)
Fixpoint SetAttributes_loop (fuel : nat) (attributes : list Attribute)
    (stride : Z) (buffer : Z) (offset : Z) : GL unit :=
  match fuel with
  | O => out_of_fuel
  | S fuel' =>
    match attributes with
    | [] => undefined
    | kPosition3f :: attributes' =>
        glEnableVertexAttribArray kAttributePosition ;;;
        glVertexAttribPointer kAttributePosition 3 GL_FLOAT false
                              stride (ptr_add plat buffer offset) ;;;
        SetAttributes_loop fuel' attributes' stride buffer
                           (size_t_wrap plat (offset + 3 * sizeof_float))
    | kNormal3f :: attributes' =>
        glEnableVertexAttribArray kAttributeNormal ;;;
        glVertexAttribPointer kAttributeNormal 3 GL_FLOAT false
                              stride (ptr_add plat buffer offset) ;;;
        SetAttributes_loop fuel' attributes' stride buffer
                           (size_t_wrap plat (offset + 3 * sizeof_float))
    | kTexCoord2f :: attributes' =>
        glEnableVertexAttribArray kAttributeTexCoord ;;;
        glVertexAttribPointer kAttributeTexCoord 2 GL_FLOAT false
                              stride (ptr_add plat buffer offset) ;;;
        SetAttributes_loop fuel' attributes' stride buffer
                           (size_t_wrap plat (offset + 2 * sizeof_float))
    | kColor4ub :: attributes' =>
        glEnableVertexAttribArray kAttributeColor ;;;
        glVertexAttribPointer kAttributeColor 4 GL_UNSIGNED_BYTE true
                              stride (ptr_add plat buffer offset) ;;;
        SetAttributes_loop fuel' attributes' stride buffer
                           (size_t_wrap plat (offset + 4))
    | kEND :: _ => ret tt
    end
  end.

Definition SetAttributes (fuel : nat) (vbo : GLuint)
    (attributes : list Attribute) (stride : Z) (buffer : Z) : GL unit :=
  glBindBuffer GL_ARRAY_BUFFER vbo ;;;
  SetAttributes_loop fuel attributes stride buffer 0.

(** [Mesh::UnSetAttributes]. *)
Fixpoint UnSetAttributes (fuel : nat) (attributes : list Attribute)
    : GL unit :=
  match fuel with
  | O => out_of_fuel
  | S fuel' =>
    match attributes with
    | [] => undefined
    | kPosition3f :: attributes' =>
        glDisableVertexAttribArray kAttributePosition ;;;
        UnSetAttributes fuel' attributes'
    | kNormal3f :: attributes' =>
        glDisableVertexAttribArray kAttributeNormal ;;;
        UnSetAttributes fuel' attributes'
    | kTexCoord2f :: attributes' =>
        glDisableVertexAttribArray kAttributeTexCoord ;;;
        UnSetAttributes fuel' attributes'
    | kColor4ub :: attributes' =>
        glDisableVertexAttribArray kAttributeColor ;;;
        UnSetAttributes fuel' attributes'
    | kEND :: _ => ret tt
    end
  end.

(** ** Mesh *)

(** [count * vertex_size] on [int]: a signed overflow is undefined. *)
Definition int_mul (a b : Z) : GL Z :=
  if decide (INT_MIN ≤ a * b ≤ INT_MAX) then ret (a * b) else undefined.

(** [Mesh::Mesh]: [indices_] starts empty. *)
Definition Mesh_new (vertex_data : list Z) (count vertex_size : Z)
    (format : list Attribute) : GL Mesh :=
  let* vbo := glGenBuffers in
  glBindBuffer GL_ARRAY_BUFFER vbo ;;;
  let* size := int_mul count vertex_size in
  glBufferData GL_ARRAY_BUFFER size vertex_data GL_STATIC_DRAW ;;;
  ret {| vertex_size_ := vertex_size; format_ := format; vbo_ := vbo;
         indices_ := [] |}.

(** [Mesh::~Mesh] *)
Definition Mesh_delete (this : Mesh) : GL unit :=
  glDeleteBuffers (vbo_ this) ;;;
  for_each (indices_ this) (λ it, glDeleteBuffers (ibo it)).

(** [Mesh::AddIndices]; [count * sizeof(int)] is computed on [size_t], and
    glBufferData takes it as a [GLsizeiptr]. *)
Definition AddIndices (this : Mesh) (index_data : list Z) (count : Z)
    (mat : MaterialPtr) : GL Mesh :=
  let* ibo := glGenBuffers in
  glBindBuffer GL_ELEMENT_ARRAY_BUFFER ibo ;;;
  glBufferData GL_ELEMENT_ARRAY_BUFFER
               (GLsizeiptr_of_size_t plat
                  (size_t_wrap plat (size_t_wrap plat count * sizeof_int)))
               index_data GL_STATIC_DRAW ;;;
  ret {| vertex_size_ := vertex_size_ this; format_ := format_ this;
         vbo_ := vbo_ this;
         indices_ := indices_ this
                     ++ [{| count := count; ibo := ibo; mat := mat |}] |}.

(** [Mesh::Render] *)
Definition Render (fuel : nat) (this : Mesh) (renderer : Renderer)
    : GL unit :=
  SetAttributes fuel (vbo_ this) (format_ this) (vertex_size_ this) nullptr ;;;
  for_each (indices_ this) (λ it,
    Material_Set_call (mat it) renderer ;;;
    glBindBuffer GL_ELEMENT_ARRAY_BUFFER (ibo it) ;;;
    glDrawElements GL_TRIANGLES (count it) GL_UNSIGNED_INT 0) ;;;
  UnSetAttributes fuel (format_ this).

(** [Mesh::RenderArray] *)
Definition RenderArray (fuel : nat) (primitive : GLenum) (index_count : Z)
    (format : list Attribute) (vertex_size : Z) (vertices indices : Z)
    : GL unit :=
  SetAttributes fuel 0 format vertex_size vertices ;;;
  glBindBuffer GL_ELEMENT_ARRAY_BUFFER 0 ;;;
  glDrawElements primitive index_count GL_UNSIGNED_INT indices ;;;
  UnSetAttributes fuel format.

(** ** Shaders *)

(** [Shader::Initialize] *)
Definition Shader_Initialize (this : Shader) : GL Shader :=
  let* mvp := glGetUniformLocation (program_ this) "model_view_projection" in
  let* color := glGetUniformLocation (program_ this) "color" in
  let* tex := glGetUniformLocation (program_ this) "texture_unit_0" in
  (if decide (0 ≤ tex) then glUniform1i tex 0 else ret tt) ;;;
  ret {| program_ := program_ this; vs_ := vs_ this; ps_ := ps_ this;
         uniform_model_view_projection_ := mvp; uniform_color_ := color;
         uniform_texture_unit_0 := tex |}.

(** [last_error_.assign(length, '\0')] followed by an info-log query that
    writes [written] at [&last_error_[0]]. *)
Definition std_string_assign (length : Z) (c : Ascii.ascii) : string :=
  String.string_of_list_ascii (replicate (Z.to_nat length) c).

Definition written_at_front (written buf : string) : string :=
  written +:+ String.substring (String.length written)
                               (String.length buf - String.length written)%nat
                               buf.

Definition platform_preamble : string :=
  if PLATFORM_MOBILE plat
  then "#ifdef GL_ES" +:+ LF +:+ "precision highp float;" +:+ LF
       +:+ "#endif" +:+ LF
  else "#version 120" +:+ LF.

(** [Renderer::CompileShader] *)
Definition CompileShader (this : Renderer) (stage : GLenum)
    (program : GLuint) (source : string) : GL (GLuint * Renderer) :=
  let platform_source := platform_preamble +:+ source in
  let* shader_obj := glCreateShader stage in
  glShaderSource shader_obj platform_source ;;;
  glCompileShader shader_obj ;;;
  let* success := glGetShaderiv shader_obj GL_COMPILE_STATUS in
  match success with
  | None => undefined           (* [success] would be read uninitialised *)
  | Some success =>
    if decide (success ≠ 0) then
      glAttachShader program shader_obj ;;;
      ret (shader_obj, this)
    else
      let* queried := glGetShaderiv shader_obj GL_INFO_LOG_LENGTH in
      let length := default 0 queried in
      let buf := std_string_assign length Ascii.zero in
      let* written := glGetShaderInfoLog shader_obj length in
      glDeleteShader shader_obj ;;;
      ret (0, {| last_error_ := written_at_front written buf |})
  end.

(** [Renderer::CompileAndLinkShader]; [None] is the null pointer. *)
Definition CompileAndLinkShader (this : Renderer)
    (vs_source ps_source : string) : GL (option Shader * Renderer) :=
  let* program := glCreateProgram in
  let* (vs, this) := CompileShader this GL_VERTEX_SHADER program vs_source in
  if decide (vs ≠ 0) then
    let* (ps, this) :=
      CompileShader this GL_FRAGMENT_SHADER program ps_source in
    if decide (ps ≠ 0) then
      glBindAttribLocation program kAttributePosition "aPosition" ;;;
      glBindAttribLocation program kAttributeNormal "aNormal" ;;;
      glBindAttribLocation program kAttributeTexCoord "aTexCoord" ;;;
      glBindAttribLocation program kAttributeColor "aColor" ;;;
      glLinkProgram program ;;;
      let* status := glGetProgramiv program GL_LINK_STATUS in
      match status with
      | None => undefined       (* [status] would be read uninitialised *)
      | Some status =>
        if decide (status = GL_TRUE) then
          let* shader := Shader_Initialize (Shader_new program vs ps) in
          glUseProgram program ;;;
          ret (Some shader, this)
        else
          let* queried := glGetProgramiv program GL_INFO_LOG_LENGTH in
          let length := default 0 queried in
          let buf := std_string_assign length Ascii.zero in
          let* written := glGetProgramInfoLog program length in
          glDeleteShader ps ;;;
          glDeleteShader vs ;;;
          glDeleteProgram program ;;;
          ret (None, {| last_error_ := written_at_front written buf |})
      end
    else
      glDeleteShader vs ;;;
      glDeleteProgram program ;;;
      ret (None, this)
  else
    glDeleteProgram program ;;;
    ret (None, this).

(** ** Textures *)

(** [Renderer::CreateTexture]; [buffer] is the array the pointer refers to,
    [size] the pair [(x, y)]. *)
Definition CreateTexture (buffer : list (option Byte.byte)) (size : Z * Z)
    : GL GLuint :=
  let* texture_id := glGenTextures in
  glActiveTexture GL_TEXTURE0 ;;;
  glBindTexture GL_TEXTURE_2D texture_id ;;;
  glTexParameteri GL_TEXTURE_2D GL_TEXTURE_WRAP_S GL_REPEAT ;;;
  glTexParameteri GL_TEXTURE_2D GL_TEXTURE_WRAP_T GL_REPEAT ;;;
  glTexParameteri GL_TEXTURE_2D GL_TEXTURE_MAG_FILTER GL_LINEAR ;;;
  glTexParameteri GL_TEXTURE_2D GL_TEXTURE_MIN_FILTER
                  GL_LINEAR_MIPMAP_LINEAR ;;;
  glTexImage2D GL_TEXTURE_2D 0 GL_RGBA size.1 size.2 0 GL_RGBA
               GL_UNSIGNED_BYTE buffer ;;;
  glEnable GL_TEXTURE_2D ;;;
  glEnable GL_ALPHA ;;;
  glEnable GL_BLEND ;;;
  glBlendFunc GL_SRC_ALPHA GL_ONE_MINUS_SRC_ALPHA ;;;
  glEnable GL_DEPTH_TEST ;;;
  glDepthFunc GL_LEQUAL ;;;
  glAlphaFunc GL_GREATER (1 # 2) ;;;
  glEnable GL_ALPHA_TEST ;;;
  glGenerateMipmap GL_TEXTURE_2D ;;;
  ret texture_id.

(** A read through a pointer into the caller's buffer, [p] bytes from its
    start; outside the buffer the read is undefined. *)
Definition deref (mem : list Byte.byte) (p : Z) : GL Byte.byte :=
  match (if decide (0 ≤ p) then mem !! Z.to_nat p else None) with
  | Some b => ret b
  | None => undefined
  end.

(** An [unsigned short] field of the packed header, in host byte order. *)
Definition read_ushort (mem : list Byte.byte) (p : Z) : GL Z :=
  let* b0 := deref mem p in
  let* b1 := deref mem (p + 1) in
  ret (if host_little_endian plat then uchar b0 + 256 * uchar b1
       else 256 * uchar b0 + uchar b1).

(** [a[i] = v] on an array obtained from [new]. *)
Definition store (a : list (option Byte.byte)) (i : Z) (v : Byte.byte)
    : GL (list (option Byte.byte)) :=
  if decide (0 ≤ i < Z.of_nat (length a))
  then ret (<[Z.to_nat i := Some v]> a)
  else undefined.

(** The body of the inner loop: [p] is the index of the pixel in [rgba], the
    state is the read pointer [pixels] and the array [rgba]. *)
Definition convert_pixel (tga_buf : list Byte.byte) (bpp : Z) (p : Z)
    (st : Z * list (option Byte.byte)) : GL (Z * list (option Byte.byte)) :=
  let pixels := st.1 in
  let rgba := st.2 in
  let* b := deref tga_buf pixels in
  let* rgba := store rgba (p + 2) b in
  let* g := deref tga_buf (pixels + 1) in
  let* rgba := store rgba (p + 1) g in
  let* r := deref tga_buf (pixels + 2) in
  let* rgba := store rgba (p + 0) r in
  if decide (bpp = 32) then
    let* a := deref tga_buf (pixels + 3) in
    let* rgba := store rgba (p + 3) a in
    ret (pixels + 4, rgba)
  else
    let* rgba := store rgba (p + 3) (to_uchar 255) in
    ret (pixels + 3, rgba).

(** [for (int x = 0; x < n; x++) body], as a fold over [0, 1, .., n-1]. *)
Fixpoint for_in {S} (xs : list Z) (body : Z → S → GL S) (st : S) : GL S :=
  match xs with
  | [] => ret st
  | x :: xs' => let* st := body x st in for_in xs' body st
  end.

(** [for (int y = start_y; y != end_y; y += y_direction) body] *)
Fixpoint for_rows {S} (fuel : nat) (y end_y y_direction : Z)
    (body : Z → S → GL S) (st : S) : GL S :=
  if decide (y = end_y) then ret st
  else match fuel with
       | O => out_of_fuel
       | Datatypes.S fuel' =>
           let* st := body y st in
           for_rows fuel' (y + y_direction) end_y y_direction body st
       end.

(** [Renderer::CreateTextureFromTGAMemory].  The header is read in place:
    id_len at 0, color_map_type at 1, image_type at 2, width at 12, height
    at 14, bpp at 16, image_descriptor at 17, of 18 bytes in all. *)
Definition CreateTextureFromTGAMemory (fuel : nat) (tga_buf : list Byte.byte)
    : GL GLuint :=
  let little_endian := int_bytes plat 1 in
  if decide (head little_endian = Some 0) then ret 0
  else
  let* color_map_type := deref tga_buf 1 in
  if decide (uchar color_map_type ≠ 0) then ret 0 else
  let* image_type := deref tga_buf 2 in
  if decide (uchar image_type ≠ 2) then ret 0 else
  let* bpp := deref tga_buf 16 in
  if decide (uchar bpp ≠ 32 ∧ uchar bpp ≠ 24) then ret 0 else
  let* id_len := deref tga_buf 0 in
  let pixels := 18 + uchar id_len in
  let* width := read_ushort tga_buf 12 in
  let* height := read_ushort tga_buf 14 in
  let* size := int_mul width height in
  let* n := int_mul size 4 in
  let rgba := replicate (Z.to_nat n) None in
  let* image_descriptor := deref tga_buf 17 in
  let flipped := bool_decide (Z.land (uchar image_descriptor) 32 ≠ 0) in
  let start_y := if flipped then height - 1 else 0 in
  let end_y := if flipped then -1 else height in
  let y_direction := if flipped then -1 else 1 in
  let* st :=
    for_rows fuel start_y end_y y_direction (λ y st,
      for_in (seqZ 0 width) (λ x st,
        convert_pixel tga_buf (uchar bpp) ((y * width + x) * 4) st) st)
      (pixels, rgba) in
  CreateTexture st.2 (width, height).

(** ** The contract of Bind and Unbind, as the specification words it *)

(** What the specification fixes for a field: its slot, the count and type
    of its components, whether they are normalized, and its size in bytes. *)
Record FieldLayout := {
  fl_slot : GLuint;
  fl_components : GLint;
  fl_type : GLenum;
  fl_normalized : bool;
  fl_size : Z
}.

(** Position3f and Normal3f: 3 floats of 4 bytes; TexCoord2f: 2 floats of 4
    bytes; Color4ub: 4 bytes, normalized.  End is not a field. *)
Definition field_layout (a : Attribute) : option FieldLayout :=
  match a with
  | kPosition3f => Some {| fl_slot := kAttributePosition; fl_components := 3;
                           fl_type := GL_FLOAT; fl_normalized := false;
                           fl_size := 12 |}
  | kNormal3f => Some {| fl_slot := kAttributeNormal; fl_components := 3;
                         fl_type := GL_FLOAT; fl_normalized := false;
                         fl_size := 12 |}
  | kTexCoord2f => Some {| fl_slot := kAttributeTexCoord; fl_components := 2;
                           fl_type := GL_FLOAT; fl_normalized := false;
                           fl_size := 8 |}
  | kColor4ub => Some {| fl_slot := kAttributeColor; fl_components := 4;
                         fl_type := GL_UNSIGNED_BYTE; fl_normalized := true;
                         fl_size := 4 |}
  | kEND => None
  end.

(** Bind: for each field up to End, enable its slot and register it at the
    running offset, then advance the offset by the size of the field. *)
Fixpoint Bind_calls (format : list Attribute) (stride buffer offset : Z)
    : list Call :=
  match format with
  | [] => []
  | a :: format' =>
      match field_layout a with
      | None => []
      | Some l =>
          EnableVertexAttribArray (fl_slot l)
          :: VertexAttribPointer (fl_slot l) (fl_components l) (fl_type l)
               (fl_normalized l) stride (ptr_add plat buffer offset)
          :: Bind_calls format' stride buffer (offset + fl_size l)
      end
  end.

(** Unbind: for each field up to End, disable its slot. *)
Fixpoint Unbind_calls (format : list Attribute) : list Call :=
  match format with
  | [] => []
  | a :: format' =>
      match field_layout a with
      | None => []
      | Some l => DisableVertexAttribArray (fl_slot l) :: Unbind_calls format'
      end
  end.

(** The slots of the fields of a format, up to End. *)
Fixpoint format_slots (format : list Attribute) : gset Z :=
  match format with
  | [] => ∅
  | a :: format' =>
      match field_layout a with
      | None => ∅
      | Some l => {[fl_slot l]} ∪ format_slots format'
      end
  end.

(** The four fixed slots. *)
Definition fixed_slots : gset Z :=
  {[kAttributePosition; kAttributeNormal; kAttributeTexCoord;
    kAttributeColor]}.

(** ** The contract of Render and of the life of a mesh *)

(** What Render does for one IndexRange: activate its material, bind its
    index buffer, draw its indices as a triangle list. *)
Definition draw_calls (it : Indices) : list Call :=
  [Material_Set (mat it);
   BindBuffer GL_ELEMENT_ARRAY_BUFFER (ibo it);
   DrawElements GL_TRIANGLES (count it) GL_UNSIGNED_INT 0].

(** Render: one attribute bind, the ranges in insertion order, one attribute
    unbind. *)
Definition Render_calls (this : Mesh) : list Call :=
  (BindBuffer GL_ARRAY_BUFFER (vbo_ this)
   :: Bind_calls (format_ this) (vertex_size_ this) nullptr 0)
  ++ concat (draw_calls <$> indices_ this)
  ++ Unbind_calls (format_ this).

Definition is_draw (c : Call) : bool :=
  match c with DrawElements _ _ _ _ => true | _ => false end.

(** A mesh as its owner builds it: constructed, then given index ranges by
    successive calls of AddIndices, one per element of [adds]. *)
Fixpoint AddIndices_each (this : Mesh)
    (adds : list (list Z * Z * MaterialPtr)) : GL Mesh :=
  match adds with
  | [] => ret this
  | add :: adds' =>
      let* this := AddIndices this add.1.1 add.1.2 add.2 in
      AddIndices_each this adds'
  end.

Definition Mesh_built (vertex_data : list Z) (count vertex_size : Z)
    (format : list Attribute) (adds : list (list Z * Z * MaterialPtr))
    : GL Mesh :=
  let* this := Mesh_new vertex_data count vertex_size format in
  AddIndices_each this adds.

(** The buffer names a mesh holds: its vertex buffer, then its index
    buffers in insertion order. *)
Definition Mesh_buffers (this : Mesh) : list GLuint :=
  vbo_ this :: (ibo <$> indices_ this).

(** The mesh owns its buffers: they are distinct names in use, and none of
    them is among [others], the names in use that are not the mesh's. *)
Definition Mesh_owns (others : gset Z) (this : Mesh) (s : GLState) : Prop :=
  NoDup (Mesh_buffers this)
  ∧ (∀ name, name ∈ Mesh_buffers this → name ∉ others)
  ∧ gl_buffers s = list_to_set (Mesh_buffers this) ∪ others.

(** ** The contract of the shader functions *)

(** The context [s] with [cs] added to its log and nothing else changed. *)
Definition logged (cs : list Call) (s : GLState) : GLState :=
  {| gl_calls := gl_calls s ++ cs;
     gl_attrib_enabled := gl_attrib_enabled s;
     gl_buffers := gl_buffers s; gl_textures := gl_textures s;
     gl_shaders := gl_shaders s; gl_programs := gl_programs s;
     gl_current_program := gl_current_program s |}.

(** What a failed compile or link leaves in [last_error_]: the info log of
    the driver with its terminating NUL, and nothing when there is no log. *)
Definition diagnostic (info_log : string) : string :=
  if decide (info_log = "") then "" else info_log +:+ NUL.

(** CompileStage: create the stage, give it the source, compile, ask for
    the status. *)
Definition compile_calls (stage : GLenum) (sh : GLuint) (source : string)
    : list Call :=
  [CreateShader stage sh; ShaderSource sh source; CompileShader_ sh;
   GetShaderiv sh GL_COMPILE_STATUS].

(** On failure: fetch the log, delete the stage. *)
Definition compile_failure_calls (sh : GLuint) (info_log : string)
    : list Call :=
  [GetShaderiv sh GL_INFO_LOG_LENGTH;
   GetShaderInfoLog sh (info_log_length info_log);
   DeleteShader sh].

(** CompileAndLink, from the fixed attribute names to the link status. *)
Definition link_calls (program : GLuint) : list Call :=
  [BindAttribLocation program kAttributePosition "aPosition";
   BindAttribLocation program kAttributeNormal "aNormal";
   BindAttribLocation program kAttributeTexCoord "aTexCoord";
   BindAttribLocation program kAttributeColor "aColor";
   LinkProgram program;
   GetProgramiv program GL_LINK_STATUS].

(** On link failure: fetch the log, delete both stages. *)
Definition link_failure_calls (program vs ps : GLuint) (info_log : string)
    : list Call :=
  [GetProgramiv program GL_INFO_LOG_LENGTH;
   GetProgramInfoLog program (info_log_length info_log);
   DeleteShader ps; DeleteShader vs].

(** ** The contract of the TGA decoder *)

(** The calls of the texture-creation path, for the name the driver gave,
    the RGBA buffer and the size. *)
Definition CreateTexture_calls (texture_id : GLuint)
    (buffer : list (option Byte.byte)) (width height : Z) : list Call :=
  [GenTextures texture_id;
   ActiveTexture GL_TEXTURE0;
   BindTexture GL_TEXTURE_2D texture_id;
   TexParameteri GL_TEXTURE_2D GL_TEXTURE_WRAP_S GL_REPEAT;
   TexParameteri GL_TEXTURE_2D GL_TEXTURE_WRAP_T GL_REPEAT;
   TexParameteri GL_TEXTURE_2D GL_TEXTURE_MAG_FILTER GL_LINEAR;
   TexParameteri GL_TEXTURE_2D GL_TEXTURE_MIN_FILTER GL_LINEAR_MIPMAP_LINEAR;
   TexImage2D GL_TEXTURE_2D 0 GL_RGBA width height 0 GL_RGBA GL_UNSIGNED_BYTE
              buffer;
   Enable GL_TEXTURE_2D; Enable GL_ALPHA; Enable GL_BLEND;
   BlendFunc GL_SRC_ALPHA GL_ONE_MINUS_SRC_ALPHA;
   Enable GL_DEPTH_TEST; DepthFunc GL_LEQUAL; AlphaFunc GL_GREATER (1 # 2);
   Enable GL_ALPHA_TEST; GenerateMipmap GL_TEXTURE_2D].

(** A one-byte field of the header of a buffer that has one. *)
Definition TGA_field (tga_buf : list Byte.byte) (offset : nat) : Z :=
  from_option uchar 0 (tga_buf !! offset).

(** The 18 bytes of a header with id_len = 0, color_map_type = 0,
    image_type = 2, width = 2 and height = 2; the color map data, the
    origin, the depth and the descriptor are as given. *)
Definition TGA_header_2x2
    (c0 c1 c2 c3 c4 xo0 xo1 yo0 yo1 bpp image_descriptor : Byte.byte)
    : list Byte.byte :=
  [Byte.x00; Byte.x00; Byte.x02; c0; c1; c2; c3; c4; xo0; xo1; yo0; yo1;
   Byte.x02; Byte.x00; Byte.x02; Byte.x00; bpp; image_descriptor].

(** The descriptor with the vertical-flip bit set. *)
Definition set_flip_bit (image_descriptor : Byte.byte) : Byte.byte :=
  to_uchar (Z.lor (uchar image_descriptor) 32).

(** A 2×2, 32-bit image: pixels 1 and 2 in row 0, 3 and 4 in row 1, each
    as B, G, R, A. *)
Definition sample_pixels : list Byte.byte :=
  [Byte.x1b; Byte.x1a; Byte.x19; Byte.x1f;
   Byte.x2b; Byte.x2a; Byte.x29; Byte.x2f;
   Byte.x3b; Byte.x3a; Byte.x39; Byte.x3f;
   Byte.x4b; Byte.x4a; Byte.x49; Byte.x4f].

Definition sample_header (image_descriptor : Byte.byte) : list Byte.byte :=
  TGA_header_2x2 Byte.x00 Byte.x00 Byte.x00 Byte.x00 Byte.x00
                 Byte.x00 Byte.x00 Byte.x00 Byte.x00 Byte.x20
                 image_descriptor.

(** The buffer the decoder gave to glTexImage2D, if it came that far. *)
Definition uploaded (r : result (Z * GLState))
    : option (list (option Byte.byte)) :=
  match r with
  | Ok (_, s) =>
      head (omap (λ c, match c with
                       | TexImage2D _ _ _ _ _ _ _ _ data => Some data
                       | _ => None
                       end) (gl_calls s))
  | _ => None
  end.

(** *** Images of any size *)

(** An [unsigned short] field of the header of a buffer that has one, as a
    little-endian host reads it. *)
Definition TGA_ushort (tga_buf : list Byte.byte) (offset : nat) : Z :=
  TGA_field tga_buf offset + 256 * TGA_field tga_buf (S offset).

(** The bytes a pixel takes in the file. *)
Definition TGA_pixel_size (bpp : Z) : nat :=
  if decide (bpp = 32) then 4%nat else 3%nat.

(** The pixel at the front of [data], which the file has as B, G, R and, at
    32 bits, A: its bytes as R, G, B, A, with 255 for an A the file does
    not have. *)
Definition RGBA_of_BGRA (bpp : Z) (data : list Byte.byte)
    : list Byte.byte :=
  let byte_at i := default Byte.x00 (data !! i) in
  [byte_at 2%nat; byte_at 1%nat; byte_at 0%nat;
   if decide (bpp = 32) then byte_at 3%nat else Byte.xff].

(** The first [width] pixels of [data], converted. *)
Fixpoint TGA_row (bpp : Z) (width : nat) (data : list Byte.byte)
    : list Byte.byte :=
  match width with
  | O => []
  | S width' =>
      RGBA_of_BGRA bpp data
      ++ TGA_row bpp width' (drop (TGA_pixel_size bpp) data)
  end.

(** The first [height] rows of [data], converted, in the order of the
    file. *)
Fixpoint TGA_rows (bpp : Z) (width height : nat) (data : list Byte.byte)
    : list (list Byte.byte) :=
  match height with
  | O => []
  | S height' =>
      TGA_row bpp width data
      :: TGA_rows bpp width height'
           (drop (TGA_pixel_size bpp * width) data)
  end.

(** The image a TGA file describes, as RGBA bytes: its rows in the order
    of the file, or in the reverse order when the file is flipped. *)
Definition TGA_image (bpp : Z) (width height : nat) (flipped : bool)
    (data : list Byte.byte) : list Byte.byte :=
  let rows := TGA_rows bpp width height data in
  concat (if flipped then reverse rows else rows).

(** The pixel data of a buffer: what follows the header and the image id. *)
Definition TGA_pixels (tga_buf : list Byte.byte) : list Byte.byte :=
  drop (18 + Z.to_nat (TGA_field tga_buf 0)) tga_buf.

(** The bytes of pixel data an image of the size and depth of the header
    takes. *)
Definition TGA_data_size (tga_buf : list Byte.byte) : Z :=
  TGA_ushort tga_buf 12 * TGA_ushort tga_buf 14
  * Z.of_nat (TGA_pixel_size (TGA_field tga_buf 16)).

(** A header the decoder accepts: no color map, true color, 24 or 32 bits
    per pixel. *)
Definition TGA_accepted (tga_buf : list Byte.byte) : Prop :=
  (18 ≤ length tga_buf)%nat
  ∧ TGA_field tga_buf 1 = 0
  ∧ TGA_field tga_buf 2 = 2
  ∧ (TGA_field tga_buf 16 = 24 ∨ TGA_field tga_buf 16 = 32).

(** [m], run from [s], neither changes the context nor uses up an
    iteration budget, and a value it returns satisfies [Q]. *)
Definition reads_only {A} (m : GL A) (s : GLState) (Q : A → Prop) : Prop :=
  match m s with
  | Ok (a, s') => s' = s ∧ Q a
  | Undefined => True
  | OutOfFuel => False
  end.

(** Two buffers agree on what the decoder looks at: id_len, color_map_type,
    image_type, width, height, bpp, the flip bit of image_descriptor, and
    the pixel data the header announces. *)
Definition TGA_agree (a b : list Byte.byte) : Prop :=
  (∀ offset, offset ∈ [0; 1; 2; 12; 13; 14; 15; 16]%nat →
             TGA_field a offset = TGA_field b offset)
  ∧ Z.land (TGA_field a 17) 32 = Z.land (TGA_field b 17) 32
  ∧ take (Z.to_nat (TGA_data_size a)) (TGA_pixels a)
    = take (Z.to_nat (TGA_data_size a)) (TGA_pixels b).

(** ** The contract of a successful link *)

(** The calls of Shader::Initialize, for the shader as it leaves it: the
    three standard uniforms are looked up, and texture unit 0 is assigned
    to the sampler if the program has it. *)
Definition Shader_Initialize_calls (this : Shader) : list Call :=
  [GetUniformLocation (program_ this) "model_view_projection";
   GetUniformLocation (program_ this) "color";
   GetUniformLocation (program_ this) "texture_unit_0"]
  ++ (if decide (0 ≤ uniform_texture_unit_0 this)
      then [Uniform1i (uniform_texture_unit_0 this) 0] else []).

(** The calls of CompileAndLinkShader up to the link status, when both
    stages compile. *)
Definition build_calls (program vs ps : GLuint) (vsrc psrc : string)
    : list Call :=
  CreateProgram program
  :: compile_calls GL_VERTEX_SHADER vs vsrc ++ [AttachShader program vs]
  ++ compile_calls GL_FRAGMENT_SHADER ps psrc ++ [AttachShader program ps]
  ++ link_calls program.

(** A stage that compiled, and a program that linked with two stages. *)
Definition compiled_stage (stage : GLenum) (source info_log : string)
    : ShaderObj :=
  {| sh_type := stage; sh_source := source; sh_compile_status := true;
     sh_info_log := info_log; sh_delete_status := false |}.

Definition linked_program (vs ps : GLuint) (info_log : string)
    : ProgramObj :=
  {| pr_attached := {[ps]} ∪ ({[vs]} ∪ ∅); pr_link_status := true;
     pr_info_log := info_log; pr_delete_status := false |}.

(** ** The contract of RenderArray *)

(** RenderArray: one attribute bind from client memory (no vertex buffer
    bound), one draw of an index array in client memory (no index buffer
    bound), one attribute unbind. *)
Definition RenderArray_call_list (primitive : GLenum) (index_count : Z)
    (format : list Attribute) (vertex_size vertices indices : Z)
    : list Call :=
  (BindBuffer GL_ARRAY_BUFFER 0
   :: Bind_calls format vertex_size vertices 0)
  ++ [BindBuffer GL_ELEMENT_ARRAY_BUFFER 0;
      DrawElements primitive index_count GL_UNSIGNED_INT indices]
  ++ Unbind_calls format.

(** The calls that bind buffers, set up vertex attributes and draw: they
    create and delete no object. *)
Definition is_vertex_call (c : Call) : bool :=
  match c with
  | BindBuffer _ _ | EnableVertexAttribArray _ | DisableVertexAttribArray _
  | VertexAttribPointer _ _ _ _ _ _ | DrawElements _ _ _ _ => true
  | _ => false
  end.

(** The object tables of a context: all of it but the log and the enabled
    vertex attribute arrays. *)
Definition gl_objects (s : GLState)
    : gset Z * gset Z * gmap Z ShaderObj * gmap Z ProgramObj * Z :=
  (gl_buffers s, gl_textures s, gl_shaders s, gl_programs s,
   gl_current_program s).

(** ** The window *)

Context (sdl : SDL).

(** [__APPLE__] is defined; the names of the GL functions that the macros
    GLBASEEXTS and GLEXTS of the header list, in their order. *)
Context (APPLE : bool) (GLBASEEXTS GLEXTS : list string).

Definition undefined_sdl {A} : SDLM A := λ _, Undefined.

Definition sdl_call (c : SDLCall) : SDLM unit :=
  λ s, Ok (tt, sdl_step s c).

Definition SDL_Init (flags : SDL_InitFlags) : SDLM Z :=
  λ s, Ok (sdl_init sdl s, sdl_step s (Init flags (sdl_init sdl s))).

Definition SDL_GetError : SDLM string :=
  λ s, Ok (sdl_error sdl s, sdl_step s (GetError (sdl_error sdl s))).

Definition SDL_GL_SetAttribute (attr : SDL_GLattr) (value : Z) : SDLM unit :=
  sdl_call (GL_SetAttribute attr value).

Definition SDL_CreateWindow (title : string) (x y : SDL_WindowPos) (w h : Z)
    (flags : list SDL_WindowFlags) : SDLM Z :=
  λ s, let window := sdl_create_window sdl s in
       Ok (window, sdl_step s (CreateWindow title x y w h flags window)).

Definition SDL_GetWindowSize (window : Z) : SDLM (Z * Z) :=
  λ s, let size := sdl_window_size sdl s window in
       Ok (size, sdl_step s (GetWindowSize window size)).

Definition SDL_GL_CreateContext (window : Z) : SDLM Z :=
  λ s, let context := sdl_create_context sdl s window in
       Ok (context, sdl_step s (GL_CreateContext window context)).

Definition SDL_GL_SetSwapInterval (interval : Z) : SDLM unit :=
  sdl_call (GL_SetSwapInterval interval).

(** [glGetString(GL_EXTENSIONS)] *)
Definition glGetString_EXTENSIONS : SDLM (option string) :=
  λ s, let exts := sdl_extensions sdl s in
       Ok (exts, sdl_step s (GetString_EXTENSIONS exts)).

Definition SDL_GL_GetProcAddress (proc : string) : SDLM Z :=
  λ s, let data := sdl_proc_address sdl s proc in
       Ok (data, sdl_step s (GL_GetProcAddress proc data)).

Definition SDL_GL_DeleteContext (context : Z) : SDLM unit :=
  sdl_call (GL_DeleteContext context).

Definition SDL_DestroyWindow (window : Z) : SDLM unit :=
  sdl_call (DestroyWindow window).

Definition SDL_Delay (ms : Z) : SDLM unit := sdl_call (Delay ms).

Definition SDL_GL_SwapWindow (window : Z) : SDLM unit :=
  sdl_call (GL_SwapWindow window).

Definition glViewport (x y width height : Z) : SDLM unit :=
  sdl_call (Viewport x y width height).

(** [name = data_function_union_##name.function]: the pointer of file
    scope is assigned. *)
Definition assign_function (name : string) (data : Z) : SDLM unit :=
  λ s, Ok (tt, set_function_pointers
                 (<[name := data]> (gl_function_pointers s)) s).

(** The expansion of [GLBASEEXTS GLEXTS] under the definition of GLEXT in
    Initialize, which ends in [return true]. *)
Fixpoint load_GLEXT (names : list string) (this : RendererSDL)
    : SDLM (bool * RendererSDL) :=
  match names with
  | [] => mret (true, this)
  | name :: names' =>
      data ← SDL_GL_GetProcAddress name;
      if decide (data = 0) then
        mret (false,
              set_last_error
                ("could not retrieve GL function pointer " +:+ name) this)
      else
        assign_function name data;;
        load_GLEXT names' this
  end.

(** [Renderer::Initialize] *)
Definition Initialize (this : RendererSDL) (window_size : Z * Z)
    (window_title : string) : SDLM (bool * RendererSDL) :=
  r ← SDL_Init SDL_INIT_VIDEO;
  if decide (r ≠ 0) then
    e ← SDL_GetError;
    mret (false, set_last_error ("SDL_Init fail: " +:+ e) this)
  else
  (if PLATFORM_MOBILE plat then
     SDL_GL_SetAttribute SDL_GL_CONTEXT_MAJOR_VERSION 2
   else
     SDL_GL_SetAttribute SDL_GL_CONTEXT_MAJOR_VERSION 2;;
     SDL_GL_SetAttribute SDL_GL_CONTEXT_MINOR_VERSION 1;;
     SDL_GL_SetAttribute SDL_GL_CONTEXT_PROFILE_MASK
                         SDL_GL_CONTEXT_PROFILE_COMPATIBILITY);;
  SDL_GL_SetAttribute SDL_GL_DOUBLEBUFFER 1;;
  window ← SDL_CreateWindow window_title
             SDL_WINDOWPOS_CENTERED SDL_WINDOWPOS_CENTERED
             window_size.1 window_size.2
             [SDL_WINDOW_OPENGL; SDL_WINDOW_SHOWN;
              if PLATFORM_MOBILE plat then SDL_WINDOW_BORDERLESS
              else SDL_WINDOW_RESIZABLE];
  let this := set_window window this in
  if decide (window = 0) then
    e ← SDL_GetError;
    mret (false, set_last_error ("SDL_CreateWindow fail: " +:+ e) this)
  else
  size ← SDL_GetWindowSize window;
  let this := set_window_size size this in
  context ← SDL_GL_CreateContext window;
  let this := set_context context this in
  if decide (context = 0) then
    e ← SDL_GetError;
    mret (false, set_last_error ("SDL_GL_CreateContext fail: " +:+ e) this)
  else
  (if PLATFORM_MOBILE plat then mret tt else SDL_GL_SetSwapInterval 1);;
  missing ←
    (if PLATFORM_MOBILE plat then mret false
     else
       exts ← glGetString_EXTENSIONS;
       match exts with
       | None => undefined_sdl      (* strstr reads through a null pointer *)
       | Some exts =>
           mret (negb (strstr exts "GL_ARB_vertex_buffer_object")
                 || negb (strstr exts "GL_ARB_multitexture")
                 || negb (strstr exts "GL_ARB_vertex_program")
                 || negb (strstr exts "GL_ARB_fragment_program"))
       end);
  if (missing : bool) then
    mret (false, set_last_error "missing GL extensions" this)
  else if PLATFORM_MOBILE plat || APPLE then mret (true, this)
  else load_GLEXT (GLBASEEXTS ++ GLEXTS) this.

(** [Renderer::AdvanceFrame] *)
Definition AdvanceFrame (this : RendererSDL) (minimized : bool)
    : SDLM unit :=
  (if minimized then SDL_Delay 10 else SDL_GL_SwapWindow (window_ this));;
  glViewport 0 0 (window_size_ this).1 (window_size_ this).2.

(** [Renderer::ShutDown] *)
Definition ShutDown (this : RendererSDL) : SDLM RendererSDL :=
  this ← (if decide (context_ this ≠ 0) then
            SDL_GL_DeleteContext (context_ this);;
            mret (set_context 0 this)
          else mret this);
  if decide (window_ this ≠ 0) then
    SDL_DestroyWindow (window_ this);;
    mret (set_window 0 this)
  else mret this.

(** The calls of ShutDown: the context goes before the window, and each
    only if the field is not null. *)
Definition ShutDown_calls (this : RendererSDL) : list SDLCall :=
  (if decide (context_ this ≠ 0) then [GL_DeleteContext (context_ this)]
   else [])
  ++ (if decide (window_ this ≠ 0) then [DestroyWindow (window_ this)]
      else []).

(** * Properties *)

(** ** The monad and the log *)

Lemma bind_call {A} (c : Call) (k : unit → GL A) (s : GLState) :
  bind (call c) k s = k tt (step s c).
Proof. reflexivity. Qed.

Lemma bind_assoc {A B C} (m : GL A) (k : A → GL B) (k' : B → GL C) s :
  bind (bind m k) k' s = bind m (λ a, bind (k a) k') s.
Proof. unfold bind. destruct (m s) as [[a s']| |]; reflexivity. Qed.

Lemma bind_ok {A B} (m : GL A) (k : A → GL B) s a s' :
  m s = Ok (a, s') → bind m k s = k a s'.
Proof. unfold bind. by intros ->. Qed.

Lemma replay_cons (c : Call) (cs : list Call) (s : GLState) :
  replay (c :: cs) s = replay cs (step s c).
Proof. reflexivity. Qed.

Lemma replay_app (cs1 cs2 : list Call) (s : GLState) :
  replay (cs1 ++ cs2) s = replay cs2 (replay cs1 s).
Proof. apply foldl_app. Qed.

Lemma gl_calls_set_shaders m s : gl_calls (set_shaders m s) = gl_calls s.
Proof. reflexivity. Qed.

Lemma gl_calls_set_programs m s : gl_calls (set_programs m s) = gl_calls s.
Proof. reflexivity. Qed.

Lemma gl_calls_effect (c : Call) (s : GLState) :
  gl_calls (gl_effect c s) = gl_calls s.
Proof.
  destruct c; try reflexivity; simpl.
  - unfold attach_shader.
    destruct (gl_programs s !! program), (gl_shaders s !! shader); reflexivity.
  - unfold delete_shader. destruct (gl_shaders s !! shader); [|reflexivity].
    case_decide; reflexivity.
  - unfold delete_program. destruct (gl_programs s !! program); [|reflexivity].
    case_decide; reflexivity.
  - unfold use_program. case_decide; [|reflexivity].
    case_decide; [reflexivity|].
    destruct (gl_programs s !! gl_current_program s) as [o|]; [|reflexivity].
    destruct (pr_delete_status o); reflexivity.
Qed.

Lemma gl_calls_step (c : Call) (s : GLState) :
  gl_calls (step s c) = gl_calls s ++ [c].
Proof. unfold step. simpl. by rewrite gl_calls_effect. Qed.

(** The log after a sequence of calls is the log before, then the calls. *)
Lemma gl_calls_replay (cs : list Call) (s : GLState) :
  gl_calls (replay cs s) = gl_calls s ++ cs.
Proof.
  revert s. induction cs as [|c cs IH]; intros s.
  - by rewrite app_nil_r.
  - rewrite replay_cons, IH, gl_calls_step, <- app_assoc. reflexivity.
Qed.

(** ** Binding and unbinding vertex attributes *)

Lemma size_t_wrap_0 : size_t_wrap plat 0 = 0.
Proof. unfold size_t_wrap. apply Zmod_0_l. Qed.

Lemma ptr_add_wrap (p n : Z) :
  ptr_add plat p (size_t_wrap plat n) = ptr_add plat p n.
Proof. unfold ptr_add, size_t_wrap. apply Zplus_mod_idemp_r. Qed.

Lemma size_t_wrap_add (n k : Z) :
  size_t_wrap plat (size_t_wrap plat n + k) = size_t_wrap plat (n + k).
Proof. unfold size_t_wrap. apply Zplus_mod_idemp_l. Qed.

Lemma Bind_calls_app_END fields rest stride buffer offset :
  kEND ∉ fields →
  Bind_calls (fields ++ kEND :: rest) stride buffer offset
  = Bind_calls fields stride buffer offset.
Proof.
  revert offset. induction fields as [|a fields IH]; intros offset Hend.
  - reflexivity.
  - apply not_elem_of_cons in Hend as [Ha Hend].
    destruct a; try done; simpl; by rewrite IH.
Qed.

Lemma Unbind_calls_app_END fields rest :
  kEND ∉ fields →
  Unbind_calls (fields ++ kEND :: rest) = Unbind_calls fields.
Proof.
  induction fields as [|a fields IH]; intros Hend.
  - reflexivity.
  - apply not_elem_of_cons in Hend as [Ha Hend].
    destruct a; try done; simpl; by rewrite IH.
Qed.

Lemma Bind_calls_length fields stride buffer offset :
  kEND ∉ fields →
  length (Bind_calls fields stride buffer offset) = (2 * length fields)%nat.
Proof.
  revert offset. induction fields as [|a fields IH]; intros offset Hend.
  - reflexivity.
  - apply not_elem_of_cons in Hend as [Ha Hend].
    destruct a; try done; simpl; rewrite IH by done; lia.
Qed.

Lemma Unbind_calls_length fields :
  kEND ∉ fields → length (Unbind_calls fields) = length fields.
Proof.
  induction fields as [|a fields IH]; intros Hend.
  - reflexivity.
  - apply not_elem_of_cons in Hend as [Ha Hend].
    destruct a; try done; simpl; by rewrite IH.
Qed.

(** The loop on a sequence with an End: with more iterations allowed than
    there are fields before the End, it returns, having made the calls of
    the contract. *)
Lemma SetAttributes_loop_returns fields rest fuel stride buffer offset s :
  kEND ∉ fields → (length fields < fuel)%nat →
  SetAttributes_loop fuel (fields ++ kEND :: rest) stride buffer
                     (size_t_wrap plat offset) s
  = Ok (tt, replay (Bind_calls fields stride buffer offset) s).
Proof.
  revert fuel offset s.
  induction fields as [|a fields IH]; intros fuel offset s Hend Hfuel.
  - destruct fuel; [simpl in Hfuel; lia|]. reflexivity.
  - apply not_elem_of_cons in Hend as [Ha Hend].
    destruct fuel as [|fuel]; [simpl in Hfuel; lia|].
    simpl in Hfuel.
    destruct a; try done; simpl;
      unfold glEnableVertexAttribArray, glVertexAttribPointer;
      rewrite !bind_call, size_t_wrap_add, ptr_add_wrap, IH by (done || lia);
      reflexivity.
Qed.

Lemma UnSetAttributes_returns fields rest fuel s :
  kEND ∉ fields → (length fields < fuel)%nat →
  UnSetAttributes fuel (fields ++ kEND :: rest) s
  = Ok (tt, replay (Unbind_calls fields) s).
Proof.
  revert fuel s.
  induction fields as [|a fields IH]; intros fuel s Hend Hfuel.
  - destruct fuel; [simpl in Hfuel; lia|]. reflexivity.
  - apply not_elem_of_cons in Hend as [Ha Hend].
    destruct fuel as [|fuel]; [simpl in Hfuel; lia|].
    simpl in Hfuel.
    destruct a; try done; simpl; unfold glDisableVertexAttribArray;
      rewrite !bind_call, IH by (done || lia); reflexivity.
Qed.

(** Short of iterations, the loop is still inside the sequence. *)
Lemma SetAttributes_loop_short fields tail fuel stride buffer offset s :
  kEND ∉ fields → (fuel ≤ length fields)%nat →
  SetAttributes_loop fuel (fields ++ tail) stride buffer offset s = OutOfFuel.
Proof.
  revert fuel offset s.
  induction fields as [|a fields IH]; intros fuel offset s Hend Hfuel.
  - destruct fuel; [reflexivity|simpl in Hfuel; lia].
  - apply not_elem_of_cons in Hend as [Ha Hend].
    destruct fuel as [|fuel]; [reflexivity|]. simpl in Hfuel.
    destruct a; try done; simpl;
      unfold glEnableVertexAttribArray, glVertexAttribPointer;
      rewrite !bind_call, IH by (done || lia); reflexivity.
Qed.

Lemma UnSetAttributes_short fields tail fuel s :
  kEND ∉ fields → (fuel ≤ length fields)%nat →
  UnSetAttributes fuel (fields ++ tail) s = OutOfFuel.
Proof.
  revert fuel s.
  induction fields as [|a fields IH]; intros fuel s Hend Hfuel.
  - destruct fuel; [reflexivity|simpl in Hfuel; lia].
  - apply not_elem_of_cons in Hend as [Ha Hend].
    destruct fuel as [|fuel]; [reflexivity|]. simpl in Hfuel.
    destruct a; try done; simpl; unfold glDisableVertexAttribArray;
      rewrite !bind_call, IH by (done || lia); reflexivity.
Qed.

(** Without an End the loop leaves the array: its next read is outside. *)
Lemma SetAttributes_loop_overruns attributes fuel stride buffer offset s :
  kEND ∉ attributes → (length attributes < fuel)%nat →
  SetAttributes_loop fuel attributes stride buffer offset s = Undefined.
Proof.
  revert fuel offset s.
  induction attributes as [|a attributes IH]; intros fuel offset s Hend Hfuel.
  - destruct fuel; [simpl in Hfuel; lia|reflexivity].
  - apply not_elem_of_cons in Hend as [Ha Hend].
    destruct fuel as [|fuel]; [simpl in Hfuel; lia|]. simpl in Hfuel.
    destruct a; try done; simpl;
      unfold glEnableVertexAttribArray, glVertexAttribPointer;
      rewrite !bind_call, IH by (done || lia); reflexivity.
Qed.

Lemma UnSetAttributes_overruns attributes fuel s :
  kEND ∉ attributes → (length attributes < fuel)%nat →
  UnSetAttributes fuel attributes s = Undefined.
Proof.
  revert fuel s.
  induction attributes as [|a attributes IH]; intros fuel s Hend Hfuel.
  - destruct fuel; [simpl in Hfuel; lia|reflexivity].
  - apply not_elem_of_cons in Hend as [Ha Hend].
    destruct fuel as [|fuel]; [simpl in Hfuel; lia|]. simpl in Hfuel.
    destruct a; try done; simpl; unfold glDisableVertexAttribArray;
      rewrite !bind_call, IH by (done || lia); reflexivity.
Qed.

(** A sequence with an End splits at its first End. *)
Lemma first_END (attributes : list Attribute) :
  kEND ∈ attributes →
  ∃ fields rest, attributes = fields ++ kEND :: rest ∧ kEND ∉ fields.
Proof.
  induction attributes as [|a attributes IH]; intros Hin.
  - by apply elem_of_nil in Hin.
  - destruct (decide (a = kEND)) as [->|Ha].
    + exists [], attributes. split; [reflexivity|apply not_elem_of_nil].
    + apply elem_of_cons in Hin as [Heq|Hin]; [congruence|].
      destruct (IH Hin) as (fields & rest & -> & Hend).
      exists (a :: fields), rest. split; [reflexivity|].
      apply not_elem_of_cons. split; [congruence|done].
Qed.

Lemma SetAttributes_returns fields rest fuel vbo stride buffer s :
  kEND ∉ fields → (length fields < fuel)%nat →
  SetAttributes fuel vbo (fields ++ kEND :: rest) stride buffer s
  = Ok (tt, replay (BindBuffer GL_ARRAY_BUFFER vbo
                    :: Bind_calls fields stride buffer 0) s).
Proof.
  intros Hend Hfuel. unfold SetAttributes, glBindBuffer.
  rewrite bind_call, <- size_t_wrap_0 at 1.
  by rewrite SetAttributes_loop_returns.
Qed.

Lemma attrib_enabled_Bind_calls fields stride buffer offset s :
  gl_attrib_enabled (replay (Bind_calls fields stride buffer offset) s)
  = format_slots fields ∪ gl_attrib_enabled s.
Proof.
  revert offset s. induction fields as [|a fields IH]; intros offset s.
  - simpl. set_solver.
  - destruct a; cbn [Bind_calls field_layout format_slots];
      [simpl; set_solver|..];
      rewrite !replay_cons, IH; simpl; set_solver.
Qed.

Lemma attrib_enabled_Unbind_calls fields s :
  gl_attrib_enabled (replay (Unbind_calls fields) s)
  = gl_attrib_enabled s ∖ format_slots fields.
Proof.
  revert s. induction fields as [|a fields IH]; intros s.
  - simpl. set_solver.
  - destruct a; cbn [Unbind_calls field_layout format_slots];
      [simpl; set_solver|..];
      rewrite !replay_cons, IH; simpl; set_solver.
Qed.

(** C1. Given a field sequence terminated by End, SetAttributes returns
    after the calls of the contract of Bind and no others: the vertex buffer
    is bound, then the fields before the first End are walked in declaration
    order from offset 0, each one enabling its fixed slot and registering
    its component count, type and normalization flag at the running offset,
    which then advances by the fixed size of the field (12 bytes for
    Position3f and Normal3f, 8 for TexCoord2f, 4 for Color4ub, the only
    normalized one).  What follows the first End is not looked at. *)
Theorem SetAttributes_walks_fields_from_offset_0
    fuel vbo fields rest stride buffer s :
  kEND ∉ fields → (length fields < fuel)%nat →
  ∃ s',
    SetAttributes fuel vbo (fields ++ kEND :: rest) stride buffer s
    = Ok (tt, s')
    ∧ s' = replay (BindBuffer GL_ARRAY_BUFFER vbo
                   :: Bind_calls (fields ++ kEND :: rest) stride buffer 0) s
    ∧ gl_calls s'
      = gl_calls s ++ BindBuffer GL_ARRAY_BUFFER vbo
                      :: Bind_calls (fields ++ kEND :: rest) stride buffer 0
    ∧ Bind_calls (fields ++ kEND :: rest) stride buffer 0
      = Bind_calls fields stride buffer 0
    ∧ length (Bind_calls fields stride buffer 0) = (2 * length fields)%nat
    ∧ gl_attrib_enabled s' = format_slots fields ∪ gl_attrib_enabled s.
Proof.
  intros Hend Hfuel. eexists. split; [by apply SetAttributes_returns|].
  rewrite Bind_calls_app_END by done.
  split; [reflexivity|]. split; [apply gl_calls_replay|].
  split; [reflexivity|]. split; [by apply Bind_calls_length|].
  rewrite replay_cons. by rewrite attrib_enabled_Bind_calls.
Qed.

(** C2. For a format terminated by End, Bind (SetAttributes) immediately
    followed by Unbind (UnSetAttributes) with the same format returns and
    leaves all four fixed attribute slots (position, normal, texcoord,
    color) disabled, provided the fixed slots the format does not name
    were disabled before the Bind.  They are in a new context, and the
    pair itself leaves all four disabled: under the pairing of Bind and
    Unbind that the specification requires, and that the callers in this
    file keep, every Bind starts from such a state.  Whatever the state
    before, the pair disables the slots the format names and leaves the
    others as they were. *)
Theorem Bind_then_Unbind_leaves_fixed_slots_disabled
    fuel vbo fields rest stride buffer s :
  kEND ∉ fields → (length fields < fuel)%nat →
  ∃ s',
    (SetAttributes fuel vbo (fields ++ kEND :: rest) stride buffer ;;;
     UnSetAttributes fuel (fields ++ kEND :: rest)) s = Ok (tt, s')
    ∧ gl_attrib_enabled s' = gl_attrib_enabled s ∖ format_slots fields
    ∧ ((∀ slot, slot ∈ fixed_slots → slot ∉ format_slots fields →
                slot ∉ gl_attrib_enabled s) →
       ∀ slot, slot ∈ fixed_slots → slot ∉ gl_attrib_enabled s').
Proof.
  intros Hend Hfuel. eexists. split; [|split].
  - unfold bind. rewrite SetAttributes_returns by done.
    by apply UnSetAttributes_returns.
  - rewrite attrib_enabled_Unbind_calls, replay_cons,
      attrib_enabled_Bind_calls. simpl. set_solver.
  - intros Hbefore slot Hslot.
    rewrite attrib_enabled_Unbind_calls, replay_cons,
      attrib_enabled_Bind_calls.
    specialize (Hbefore slot Hslot). simpl. set_solver.
Qed.

(** C10. SetAttributes and UnSetAttributes return exactly when the sequence
    they are given contains kEND.  On a sequence with a kEND both return
    once allowed one iteration more than there are fields before the first
    kEND, and not with fewer, having processed exactly those fields.  On a
    sequence without kEND neither returns: as long as the iterations allowed
    do not exceed the length of the sequence the loop is still inside it,
    and with more it reads past its end. *)
Theorem attribute_walks_return_iff_kEND vbo attributes stride buffer s :
  ((∃ fuel s', SetAttributes fuel vbo attributes stride buffer s
               = Ok (tt, s')) ↔ kEND ∈ attributes)
  ∧ ((∃ fuel s', UnSetAttributes fuel attributes s = Ok (tt, s'))
     ↔ kEND ∈ attributes)
  ∧ (∀ fields rest fuel,
       attributes = fields ++ kEND :: rest → kEND ∉ fields →
       ((length fields < fuel)%nat →
          SetAttributes fuel vbo attributes stride buffer s
          = Ok (tt, replay (BindBuffer GL_ARRAY_BUFFER vbo
                            :: Bind_calls fields stride buffer 0) s)
          ∧ UnSetAttributes fuel attributes s
            = Ok (tt, replay (Unbind_calls fields) s))
       ∧ ((fuel ≤ length fields)%nat →
          SetAttributes fuel vbo attributes stride buffer s = OutOfFuel
          ∧ UnSetAttributes fuel attributes s = OutOfFuel))
  ∧ (kEND ∉ attributes → ∀ fuel,
       ((fuel ≤ length attributes)%nat →
          SetAttributes fuel vbo attributes stride buffer s = OutOfFuel
          ∧ UnSetAttributes fuel attributes s = OutOfFuel)
       ∧ ((length attributes < fuel)%nat →
          SetAttributes fuel vbo attributes stride buffer s = Undefined
          ∧ UnSetAttributes fuel attributes s = Undefined)).
Proof.
  assert (Hnone : kEND ∉ attributes → ∀ fuel,
       ((fuel ≤ length attributes)%nat →
          SetAttributes fuel vbo attributes stride buffer s = OutOfFuel
          ∧ UnSetAttributes fuel attributes s = OutOfFuel)
       ∧ ((length attributes < fuel)%nat →
          SetAttributes fuel vbo attributes stride buffer s = Undefined
          ∧ UnSetAttributes fuel attributes s = Undefined)).
  { intros Hend fuel. unfold SetAttributes, glBindBuffer.
    rewrite bind_call. split; intros Hfuel.
    - rewrite <- (app_nil_r attributes).
      by rewrite SetAttributes_loop_short, UnSetAttributes_short.
    - by rewrite SetAttributes_loop_overruns, UnSetAttributes_overruns. }
  assert (Hsome : ∀ fields rest fuel,
       attributes = fields ++ kEND :: rest → kEND ∉ fields →
       ((length fields < fuel)%nat →
          SetAttributes fuel vbo attributes stride buffer s
          = Ok (tt, replay (BindBuffer GL_ARRAY_BUFFER vbo
                            :: Bind_calls fields stride buffer 0) s)
          ∧ UnSetAttributes fuel attributes s
            = Ok (tt, replay (Unbind_calls fields) s))
       ∧ ((fuel ≤ length fields)%nat →
          SetAttributes fuel vbo attributes stride buffer s = OutOfFuel
          ∧ UnSetAttributes fuel attributes s = OutOfFuel)).
  { intros fields rest fuel -> Hend. split; intros Hfuel.
    - by rewrite SetAttributes_returns, UnSetAttributes_returns.
    - unfold SetAttributes, glBindBuffer. rewrite bind_call.
      by rewrite SetAttributes_loop_short, UnSetAttributes_short. }
  split; [|split; [|split; [exact Hsome|exact Hnone]]].
  - split.
    + intros (fuel & s' & Hrun).
      destruct (decide (kEND ∈ attributes)) as [|Hend]; [done|].
      destruct (Hnone Hend fuel) as [Hshort Hover].
      destruct (decide (fuel ≤ length attributes)%nat).
      * destruct Hshort as [Hset _]; [done|]. congruence.
      * destruct Hover as [Hset _]; [lia|]. congruence.
    + intros (fields & rest & Heq & Hend)%first_END.
      exists (S (length fields)). eexists.
      apply (Hsome fields rest (S (length fields)) Heq Hend). lia.
  - split.
    + intros (fuel & s' & Hrun).
      destruct (decide (kEND ∈ attributes)) as [|Hend]; [done|].
      destruct (Hnone Hend fuel) as [Hshort Hover].
      destruct (decide (fuel ≤ length attributes)%nat).
      * destruct Hshort as [_ Hunset]; [done|]. congruence.
      * destruct Hover as [_ Hunset]; [lia|]. congruence.
    + intros (fields & rest & Heq & Hend)%first_END.
      exists (S (length fields)). eexists.
      apply (Hsome fields rest (S (length fields)) Heq Hend). lia.
Qed.

(** ** Rendering a mesh *)

Lemma draw_one (it : Indices) (renderer : Renderer) (s : GLState) :
  (Material_Set_call (mat it) renderer ;;;
   glBindBuffer GL_ELEMENT_ARRAY_BUFFER (ibo it) ;;;
   glDrawElements GL_TRIANGLES (count it) GL_UNSIGNED_INT 0) s
  = Ok (tt, replay (draw_calls it) s).
Proof. reflexivity. Qed.

Lemma for_each_draw (v : list Indices) (renderer : Renderer)
    (s : GLState) :
  for_each v (λ it,
    Material_Set_call (mat it) renderer ;;;
    glBindBuffer GL_ELEMENT_ARRAY_BUFFER (ibo it) ;;;
    glDrawElements GL_TRIANGLES (count it) GL_UNSIGNED_INT 0) s
  = Ok (tt, replay (concat (draw_calls <$> v)) s).
Proof.
  revert s. induction v as [|it v IH]; intros s.
  - reflexivity.
  - cbn [for_each fmap list_fmap concat].
    erewrite bind_ok by apply draw_one.
    by rewrite IH, replay_app.
Qed.

Lemma filter_is_draw_Bind_calls fields stride buffer offset :
  filter is_draw (Bind_calls fields stride buffer offset) = [].
Proof.
  revert offset. induction fields as [|a fields IH]; intros offset.
  - reflexivity.
  - destruct a; simpl; try reflexivity; apply IH.
Qed.

Lemma filter_is_draw_Unbind_calls fields :
  filter is_draw (Unbind_calls fields) = [].
Proof.
  induction fields as [|a fields IH].
  - reflexivity.
  - destruct a; simpl; try reflexivity; apply IH.
Qed.

Lemma filter_is_draw_draw_calls (v : list Indices) :
  filter is_draw (concat (draw_calls <$> v))
  = (λ it, DrawElements GL_TRIANGLES (count it) GL_UNSIGNED_INT 0) <$> v.
Proof.
  induction v as [|it v IH].
  - reflexivity.
  - cbn [fmap list_fmap concat]. rewrite filter_app, IH. reflexivity.
Qed.

(** C3. For a mesh holding N IndexRanges (and an End-terminated format),
    Render returns after exactly these calls: one attribute bind, then for
    each range in the order AddIndices added them the activation of its own
    material, the binding of its own index buffer and one triangle-list
    draw of its own count, then one attribute unbind.  The draws among them
    are exactly N, one per range in that order. *)
Theorem Render_draws_each_range_in_order
    fuel this renderer fields rest s :
  format_ this = fields ++ kEND :: rest → kEND ∉ fields →
  (length fields < fuel)%nat →
  ∃ s',
    Render fuel this renderer s = Ok (tt, s')
    ∧ s' = replay (Render_calls this) s
    ∧ gl_calls s' = gl_calls s ++ Render_calls this
    ∧ filter is_draw (Render_calls this)
      = (λ it, DrawElements GL_TRIANGLES (count it) GL_UNSIGNED_INT 0)
        <$> indices_ this
    ∧ length (filter is_draw (Render_calls this)) = length (indices_ this).
Proof.
  intros Hformat Hend Hfuel.
  assert (Hdraws : filter is_draw (Render_calls this)
      = (λ it, DrawElements GL_TRIANGLES (count it) GL_UNSIGNED_INT 0)
        <$> indices_ this).
  { unfold Render_calls. rewrite !filter_app, filter_cons_False by auto.
    rewrite filter_is_draw_Bind_calls, filter_is_draw_Unbind_calls,
      filter_is_draw_draw_calls. by rewrite app_nil_r. }
  eexists. split; [|split; [reflexivity|split; [apply gl_calls_replay|]]].
  - unfold Render, bind. rewrite Hformat.
    rewrite SetAttributes_returns, (for_each_draw _ renderer),
      UnSetAttributes_returns by done.
    unfold Render_calls. rewrite Hformat, !replay_app.
    by rewrite Bind_calls_app_END, Unbind_calls_app_END.
  - split; [exact Hdraws|]. by rewrite Hdraws, length_fmap.
Qed.

(** ** The buffers of a mesh *)

Lemma Mesh_new_runs vertex_data count vertex_size format s :
  INT_MIN ≤ count * vertex_size ≤ INT_MAX →
  Mesh_new vertex_data count vertex_size format s
  = Ok ({| vertex_size_ := vertex_size; format_ := format;
           vbo_ := drv_gen_buffer drv s; indices_ := [] |},
        replay [GenBuffers (drv_gen_buffer drv s);
                BindBuffer GL_ARRAY_BUFFER (drv_gen_buffer drv s);
                BufferData GL_ARRAY_BUFFER (count * vertex_size) vertex_data
                           GL_STATIC_DRAW] s).
Proof.
  intros Hsize. unfold Mesh_new, bind, glGenBuffers, int_mul.
  rewrite decide_True by done. reflexivity.
Qed.

Lemma AddIndices_runs this index_data count mat s :
  AddIndices this index_data count mat s
  = Ok ({| vertex_size_ := vertex_size_ this; format_ := format_ this;
           vbo_ := vbo_ this;
           indices_ := indices_ this
                       ++ [{| count := count; ibo := drv_gen_buffer drv s;
                              mat := mat |}] |},
        replay [GenBuffers (drv_gen_buffer drv s);
                BindBuffer GL_ELEMENT_ARRAY_BUFFER (drv_gen_buffer drv s);
                BufferData GL_ELEMENT_ARRAY_BUFFER
                  (GLsizeiptr_of_size_t plat
                     (size_t_wrap plat
                        (size_t_wrap plat count * sizeof_int)))
                  index_data GL_STATIC_DRAW] s).
Proof. reflexivity. Qed.

Lemma Mesh_new_owns vertex_data count vertex_size format s :
  fresh_buffer_names drv →
  INT_MIN ≤ count * vertex_size ≤ INT_MAX →
  ∃ this s',
    Mesh_new vertex_data count vertex_size format s = Ok (this, s')
    ∧ Mesh_owns (gl_buffers s) this s' ∧ indices_ this = [].
Proof.
  intros Hfresh Hsize. eexists _, _.
  split; [by apply Mesh_new_runs|]. split; [|reflexivity].
  destruct (Hfresh s) as [_ Hnew]. unfold Mesh_owns, Mesh_buffers. simpl.
  split; [apply NoDup_singleton|]. split.
  - intros name ->%list_elem_of_singleton. done.
  - set_solver.
Qed.

Lemma AddIndices_owns others this index_data count mat s :
  fresh_buffer_names drv → Mesh_owns others this s →
  ∃ this' s',
    AddIndices this index_data count mat s = Ok (this', s')
    ∧ Mesh_owns others this' s'
    ∧ length (indices_ this') = S (length (indices_ this)).
Proof.
  intros Hfresh (Hdup & Hothers & Hbuffers). eexists _, _.
  split; [apply AddIndices_runs|].
  destruct (Hfresh s) as [_ Hnew]. rewrite Hbuffers in Hnew.
  split; [|simpl; rewrite length_app; simpl; lia].
  unfold Mesh_owns, Mesh_buffers in *. simpl.
  rewrite fmap_app. simpl.
  change (vbo_ this :: (ibo <$> indices_ this) ++ [drv_gen_buffer drv s])
    with ((vbo_ this :: (ibo <$> indices_ this)) ++ [drv_gen_buffer drv s]).
  split; [|split].
  - apply NoDup_app. split; [done|]. split; [|apply NoDup_singleton].
    intros name Hin ->%list_elem_of_singleton. set_solver.
  - intros name [Hin| ->%list_elem_of_singleton]%elem_of_app.
    + by apply Hothers.
    + set_solver.
  - rewrite Hbuffers, list_to_set_app_L. set_solver.
Qed.

Lemma AddIndices_each_owns others adds this s :
  fresh_buffer_names drv → Mesh_owns others this s →
  ∃ this' s',
    AddIndices_each this adds s = Ok (this', s')
    ∧ Mesh_owns others this' s'
    ∧ length (indices_ this')
      = (length (indices_ this) + length adds)%nat.
Proof.
  intros Hfresh. revert this s.
  induction adds as [|add adds IH]; intros this s Howns.
  - exists this, s. split; [reflexivity|]. split; [done|simpl; lia].
  - destruct (AddIndices_owns others this add.1.1 add.1.2 add.2 s)
      as (this1 & s1 & Hrun & Howns1 & Hlen1); [done..|].
    destruct (IH this1 s1 Howns1) as (this' & s' & Hrun' & Howns' & Hlen').
    exists this', s'. split; [|split; [done|]].
    + cbn [AddIndices_each]. by erewrite bind_ok by exact Hrun.
    + rewrite Hlen', Hlen1. simpl. lia.
Qed.

Lemma for_each_delete (v : list Indices) (s : GLState) :
  for_each v (λ it, glDeleteBuffers (ibo it)) s
  = Ok (tt, replay (DeleteBuffers <$> (ibo <$> v)) s).
Proof.
  revert s. induction v as [|it v IH]; intros s.
  - reflexivity.
  - cbn [for_each]. unfold glDeleteBuffers at 1. by rewrite bind_call, IH.
Qed.

Lemma Mesh_delete_runs this s :
  Mesh_delete this s
  = Ok (tt, replay (DeleteBuffers <$> Mesh_buffers this) s).
Proof.
  unfold Mesh_delete, glDeleteBuffers at 1.
  by rewrite bind_call, for_each_delete.
Qed.

Lemma gl_buffers_replay_delete (names : list GLuint) (s : GLState) :
  gl_buffers (replay (DeleteBuffers <$> names) s)
  = gl_buffers s ∖ list_to_set names.
Proof.
  revert s. induction names as [|name names IH]; intros s.
  - simpl. set_solver.
  - cbn [fmap list_fmap]. rewrite replay_cons, IH. simpl. set_solver.
Qed.

(** C9. For a mesh built by its constructor and any number of calls of
    AddIndices (none included), destruction deletes the vertex buffer and
    then the index buffer of every range, in insertion order, and nothing
    else; the names deleted are pairwise distinct, so that no buffer is
    deleted twice, each was in use, and the names in use afterwards are
    those from before the mesh was built. *)
Theorem Mesh_delete_releases_each_buffer_once
    vertex_data count vertex_size format adds s :
  fresh_buffer_names drv →
  INT_MIN ≤ count * vertex_size ≤ INT_MAX →
  ∃ this s1 s2,
    Mesh_built vertex_data count vertex_size format adds s = Ok (this, s1)
    ∧ Mesh_delete this s1 = Ok (tt, s2)
    ∧ length (indices_ this) = length adds
    ∧ gl_calls s2
      = gl_calls s1 ++ DeleteBuffers (vbo_ this)
                       :: (DeleteBuffers <$> (ibo <$> indices_ this))
    ∧ NoDup (vbo_ this :: (ibo <$> indices_ this))
    ∧ (∀ name, name ∈ vbo_ this :: (ibo <$> indices_ this) →
               name ∈ gl_buffers s1 ∧ name ∉ gl_buffers s2)
    ∧ gl_buffers s2 = gl_buffers s
    ∧ (adds = [] →
       gl_calls s2 = gl_calls s1 ++ [DeleteBuffers (vbo_ this)]).
Proof.
  intros Hfresh Hsize.
  destruct (Mesh_new_owns vertex_data count vertex_size format s)
    as (this0 & s0 & Hnew & Howns0 & Hnone); [done..|].
  destruct (AddIndices_each_owns (gl_buffers s) adds this0 s0)
    as (this & s1 & Hadd & Howns & Hlen); [done..|].
  rewrite Hnone in Hlen. simpl in Hlen.
  destruct Howns as (Hdup & Hothers & Hbuffers).
  exists this, s1, (replay (DeleteBuffers <$> Mesh_buffers this) s1).
  assert (Hcalls :
    gl_calls (replay (DeleteBuffers <$> Mesh_buffers this) s1)
    = gl_calls s1 ++ DeleteBuffers (vbo_ this)
                     :: (DeleteBuffers <$> (ibo <$> indices_ this))).
  { by rewrite gl_calls_replay. }
  split; [unfold Mesh_built; by erewrite bind_ok by exact Hnew|].
  split; [apply Mesh_delete_runs|]. split; [done|].
  split; [exact Hcalls|]. split; [exact Hdup|].
  rewrite gl_buffers_replay_delete, Hbuffers.
  split; [|split].
  - intros name Hin. split; [set_solver|].
    apply not_elem_of_difference. right. by apply elem_of_list_to_set.
  - apply set_eq. intros name. specialize (Hothers name).
    rewrite elem_of_difference, elem_of_union, elem_of_list_to_set.
    unfold Mesh_buffers in *. tauto.
  - intros ->. destruct (indices_ this); [exact Hcalls|done].
Qed.

(** ** Compiling and linking shaders *)

Lemma substring_full (x : string) :
  String.substring 0 (String.length x) x = x.
Proof. induction x as [|c x IH]; simpl; [reflexivity|by f_equal]. Qed.

Lemma substring_none (n : nat) (x : string) : String.substring n 0 x = "".
Proof.
  revert n. induction x as [|c x IH]; intros [|n]; simpl; try reflexivity.
  apply IH.
Qed.

Lemma string_app_nil_r (x : string) : x +:+ "" = x.
Proof.
  induction x as [|c x IH]; [reflexivity|].
  change (String c (x +:+ "") = String c x). by f_equal.
Qed.

Lemma string_length_app (x y : string) :
  String.length (x +:+ y) = (String.length x + String.length y)%nat.
Proof.
  induction x as [|c x IH]; [reflexivity|].
  change (S (String.length (x +:+ y))
          = S (String.length x + String.length y)). by f_equal.
Qed.

Lemma std_string_assign_length (n : Z) c :
  String.length (std_string_assign n c) = Z.to_nat n.
Proof.
  unfold std_string_assign.
  induction (Z.to_nat n) as [|k IH]; simpl; [reflexivity|by f_equal].
Qed.

Lemma last_error_after_query (info_log : string) :
  written_at_front (info_log_written info_log (info_log_length info_log))
                   (std_string_assign (info_log_length info_log) Ascii.zero)
  = diagnostic info_log.
Proof.
  unfold written_at_front, info_log_written, info_log_length, diagnostic.
  destruct (decide (info_log = "")) as [->|Hlog].
  - reflexivity.
  - rewrite decide_True by lia.
    replace (Z.to_nat (Z.of_nat (String.length info_log) + 1 - 1))
      with (String.length info_log) by lia.
    rewrite substring_full, std_string_assign_length, string_length_app.
    replace (Z.to_nat (Z.of_nat (String.length info_log) + 1)
             - (String.length info_log + String.length NUL))%nat
      with 0%nat by (simpl; lia).
    by rewrite substring_none, string_app_nil_r.
Qed.

Lemma elem_of_attached_names (programs : gmap Z ProgramObj) (sh : Z) :
  sh ∈ attached_names programs
  ↔ ∃ p o, programs !! p = Some o ∧ sh ∈ pr_attached o.
Proof.
  unfold attached_names. rewrite elem_of_union_list. split.
  - intros (X & HX & Hsh).
    apply list_elem_of_fmap in HX as (o & -> & Ho).
    apply list_elem_of_fmap in Ho as ([p o'] & -> & Hin).
    apply elem_of_map_to_list in Hin. eauto.
  - intros (p & o & Hlook & Hsh). exists (pr_attached o). split; [|done].
    apply list_elem_of_fmap. exists o. split; [done|].
    apply list_elem_of_fmap. exists (p, o). split; [done|].
    by apply elem_of_map_to_list.
Qed.

(** States are kept in the form [logged cs (set_programs P (set_shaders S
    s))]: the equations below, used as rewrite rules, bring them there. *)

Lemma log_logged c s : log c s = logged [c] s.
Proof. reflexivity. Qed.

Lemma logged_logged cs1 cs2 s :
  logged cs2 (logged cs1 s) = logged (cs1 ++ cs2) s.
Proof.
  unfold logged.
  cbn [gl_calls gl_attrib_enabled gl_buffers gl_textures gl_shaders
       gl_programs gl_current_program].
  by rewrite (assoc_L (++)).
Qed.

Lemma set_shaders_logged m cs s :
  set_shaders m (logged cs s) = logged cs (set_shaders m s).
Proof. reflexivity. Qed.

Lemma set_programs_logged m cs s :
  set_programs m (logged cs s) = logged cs (set_programs m s).
Proof. reflexivity. Qed.

Lemma set_shaders_set_shaders m m' s :
  set_shaders m (set_shaders m' s) = set_shaders m s.
Proof. reflexivity. Qed.

Lemma set_programs_set_programs m m' s :
  set_programs m (set_programs m' s) = set_programs m s.
Proof. reflexivity. Qed.

Lemma set_shaders_set_programs m P s :
  set_shaders m (set_programs P s) = set_programs P (set_shaders m s).
Proof. reflexivity. Qed.

Lemma set_shaders_id s : set_shaders (gl_shaders s) s = s.
Proof. by destruct s. Qed.

Lemma set_programs_id s : set_programs (gl_programs s) s = s.
Proof. by destruct s. Qed.

Lemma gl_shaders_logged cs s : gl_shaders (logged cs s) = gl_shaders s.
Proof. reflexivity. Qed.

Lemma gl_programs_logged cs s : gl_programs (logged cs s) = gl_programs s.
Proof. reflexivity. Qed.

Lemma gl_current_program_logged cs s :
  gl_current_program (logged cs s) = gl_current_program s.
Proof. reflexivity. Qed.

Lemma gl_shaders_set_shaders m s : gl_shaders (set_shaders m s) = m.
Proof. reflexivity. Qed.

Lemma gl_shaders_set_programs m s :
  gl_shaders (set_programs m s) = gl_shaders s.
Proof. reflexivity. Qed.

Lemma gl_programs_set_programs m s : gl_programs (set_programs m s) = m.
Proof. reflexivity. Qed.

Lemma gl_programs_set_shaders m s :
  gl_programs (set_shaders m s) = gl_programs s.
Proof. reflexivity. Qed.

Lemma gl_current_program_set_shaders m s :
  gl_current_program (set_shaders m s) = gl_current_program s.
Proof. reflexivity. Qed.

Lemma gl_current_program_set_programs m s :
  gl_current_program (set_programs m s) = gl_current_program s.
Proof. reflexivity. Qed.

Create Rewrite HintDb gl.
#[local] Hint Rewrite log_logged logged_logged
  set_shaders_logged set_programs_logged
  set_shaders_set_shaders set_programs_set_programs set_shaders_set_programs
  set_shaders_id set_programs_id gl_shaders_logged gl_programs_logged
  gl_current_program_logged gl_shaders_set_shaders gl_shaders_set_programs
  gl_programs_set_programs gl_programs_set_shaders
  gl_current_program_set_shaders gl_current_program_set_programs : gl.

Ltac gl_unfold :=
  unfold glCreateShader, glShaderSource, glCompileShader, glGetShaderiv,
    glGetShaderInfoLog, glDeleteShader, glAttachShader, glCreateProgram,
    glBindAttribLocation, glLinkProgram, glGetProgramiv, glGetProgramInfoLog,
    glDeleteProgram, glUseProgram, call, step, bind, ret;
  cbn [gl_effect].

Lemma fresh_object (s : GLState) :
  fresh_object_names drv →
  drv_gen_object drv s ≠ 0
  ∧ drv_gen_object drv s ≠ gl_current_program s
  ∧ gl_shaders s !! drv_gen_object drv s = None
  ∧ gl_programs s !! drv_gen_object drv s = None
  ∧ drv_gen_object drv s ∉ attached_names (gl_programs s).
Proof.
  intros Hfresh. destruct (Hfresh s) as [Hnz Hnew].
  unfold gl_object_names in Hnew.
  rewrite !not_elem_of_union, not_elem_of_singleton, !not_elem_of_dom in Hnew.
  tauto.
Qed.

Lemma CompileShader_fails this stage program source s :
  fresh_object_names drv →
  (drv_compile drv stage (platform_preamble +:+ source)).1 = false →
  CompileShader this stage program source s
  = Ok ((0, {| last_error_ :=
                 diagnostic (drv_compile drv stage
                               (platform_preamble +:+ source)).2 |}),
        logged (compile_calls stage (drv_gen_object drv s)
                              (platform_preamble +:+ source)
                ++ compile_failure_calls (drv_gen_object drv s)
                     (drv_compile drv stage
                        (platform_preamble +:+ source)).2) s).
Proof.
  intros Hfresh Hfail.
  destruct (fresh_object s Hfresh) as (Hnz & Hcur & Hsh & Hpr & Hatt).
  unfold CompileShader. gl_unfold. autorewrite with gl.
  rewrite !alter_insert_eq, lookup_insert_eq.
  cbn [with_compiled with_source new_shader sh_compile_status sh_type
       sh_source sh_info_log].
  rewrite Hfail, decide_False by (intros H; by apply H).
  autorewrite with gl. rewrite lookup_insert_eq.
  cbn [with_compiled sh_info_log default id].
  unfold delete_shader. autorewrite with gl.
  rewrite lookup_insert_eq, decide_False by exact Hatt.
  rewrite delete_insert_id by exact Hsh.
  autorewrite with gl. rewrite last_error_after_query.
  reflexivity.
Qed.

Lemma CompileShader_succeeds this stage program o source s :
  fresh_object_names drv →
  gl_programs s !! program = Some o →
  (drv_compile drv stage (platform_preamble +:+ source)).1 = true →
  CompileShader this stage program source s
  = Ok ((drv_gen_object drv s, this),
        logged (compile_calls stage (drv_gen_object drv s)
                              (platform_preamble +:+ source)
                ++ [AttachShader program (drv_gen_object drv s)])
          (set_programs
             (<[program := with_attached ({[drv_gen_object drv s]}
                                          ∪ pr_attached o) o]>
                (gl_programs s))
             (set_shaders
                (<[drv_gen_object drv s :=
                     with_compiled
                       (drv_compile drv stage
                          (platform_preamble +:+ source))
                       (with_source (platform_preamble +:+ source)
                                    (new_shader stage))]> (gl_shaders s))
                s))).
Proof.
  intros Hfresh Hprog Hok.
  unfold CompileShader. gl_unfold. autorewrite with gl.
  rewrite !alter_insert_eq, lookup_insert_eq.
  cbn [with_compiled with_source new_shader sh_compile_status sh_type
       sh_source sh_info_log].
  rewrite Hok, decide_True by done.
  unfold attach_shader. autorewrite with gl.
  rewrite Hprog, lookup_insert_eq. autorewrite with gl.
  reflexivity.
Qed.

Lemma elem_of_attached_names_insert (programs : gmap Z ProgramObj) p o sh :
  sh ∈ attached_names (<[p := o]> programs)
  ↔ sh ∈ pr_attached o ∨ sh ∈ attached_names (delete p programs).
Proof.
  rewrite (elem_of_attached_names (<[p := o]> programs)),
    (elem_of_attached_names (delete p programs)). split.
  - intros (q & o' & Hlook & Hin).
    destruct (decide (p = q)) as [->|Hne].
    + rewrite lookup_insert_eq in Hlook. left.
      injection Hlook as ->. exact Hin.
    + rewrite lookup_insert_ne in Hlook by exact Hne. right.
      exists q, o'. rewrite lookup_delete_ne by exact Hne. split; assumption.
  - intros [Hin|(q & o' & Hlook & Hin)].
    + exists p, o. rewrite lookup_insert_eq. split; [reflexivity|assumption].
    + destruct (decide (p = q)) as [->|Hne].
      * rewrite lookup_delete_eq in Hlook. discriminate.
      * rewrite lookup_delete_ne in Hlook by exact Hne.
        exists q, o'. rewrite lookup_insert_ne by exact Hne. split; assumption.
Qed.

Lemma swept_none_id (attached : gset Z) programs
    (shaders : gmap Z ShaderObj) :
  (∀ sh, sh ∈ attached → shaders !! sh = None) →
  filter (λ kv, ¬ swept attached programs kv) shaders = shaders.
Proof.
  intros Hnone. apply map_filter_id. intros sh o Hlook (_ & Hin & _).
  rewrite (Hnone sh Hin) in Hlook. discriminate.
Qed.

Lemma swept_insert (attached : gset Z) programs
    (shaders : gmap Z ShaderObj) sh o :
  sh_delete_status o = true → sh ∈ attached →
  sh ∉ attached_names programs →
  filter (λ kv, ¬ swept attached programs kv) (<[sh := o]> shaders)
  = filter (λ kv, ¬ swept attached programs kv) (delete sh shaders).
Proof.
  intros Hflag Hin Hnot. apply map_filter_insert_False.
  intros Hkeep. apply Hkeep. by split.
Qed.

Lemma CompileAndLinkShader_vertex_fails this vs_source ps_source s :
  fresh_object_names drv →
  (drv_compile drv GL_VERTEX_SHADER (platform_preamble +:+ vs_source)).1
  = false →
  ∃ program vs,
  CompileAndLinkShader this vs_source ps_source s
  = Ok ((None, {| last_error_ :=
                 diagnostic (drv_compile drv GL_VERTEX_SHADER
                               (platform_preamble +:+ vs_source)).2 |}),
        logged (CreateProgram program :: compile_calls GL_VERTEX_SHADER vs
                              (platform_preamble +:+ vs_source)
                ++ compile_failure_calls vs
                     (drv_compile drv GL_VERTEX_SHADER
                        (platform_preamble +:+ vs_source)).2
                ++ [DeleteProgram program]) s).
Proof.
  intros Hfresh Hfail.
  destruct (fresh_object s Hfresh) as (Hnz & Hcur & Hsh & Hpr & Hatt).
  eexists _, _.
  unfold CompileAndLinkShader. unfold bind at 1. unfold glCreateProgram at 1.
  cbv beta iota zeta.
  erewrite bind_ok by (by apply CompileShader_fails).
  cbv beta iota zeta.
  rewrite decide_False by (intros H; by apply H).
  gl_unfold. unfold delete_program. autorewrite with gl.
  rewrite lookup_insert_eq, decide_False by exact Hcur.
  unfold remove_program. autorewrite with gl.
  rewrite delete_insert_id by exact Hpr.
  rewrite swept_none_id by (intros sh Hin; by apply elem_of_empty in Hin).
  autorewrite with gl. reflexivity.
Qed.

Lemma CompileAndLinkShader_fragment_fails this vs_source ps_source s :
  fresh_object_names drv →
  (drv_compile drv GL_VERTEX_SHADER (platform_preamble +:+ vs_source)).1
  = true →
  (drv_compile drv GL_FRAGMENT_SHADER (platform_preamble +:+ ps_source)).1
  = false →
  ∃ program vs ps,
  CompileAndLinkShader this vs_source ps_source s
  = Ok ((None, {| last_error_ :=
                 diagnostic (drv_compile drv GL_FRAGMENT_SHADER
                               (platform_preamble +:+ ps_source)).2 |}),
        logged (CreateProgram program :: compile_calls GL_VERTEX_SHADER vs
                              (platform_preamble +:+ vs_source)
                ++ [AttachShader program vs]
                ++ compile_calls GL_FRAGMENT_SHADER ps
                              (platform_preamble +:+ ps_source)
                ++ compile_failure_calls ps
                     (drv_compile drv GL_FRAGMENT_SHADER
                        (platform_preamble +:+ ps_source)).2
                ++ [DeleteShader vs; DeleteProgram program]) s).
Proof.
  intros Hfresh Hok Hfail.
  destruct (fresh_object s Hfresh) as (Hnz & Hcur & Hsh & Hpr & Hatt).
  pose proof (fresh_object (step s (CreateProgram (drv_gen_object drv s)))
                Hfresh) as (Hnz1 & Hcur1 & Hsh1 & Hpr1 & Hatt1).
  remember (CompileAndLinkShader this vs_source ps_source s)
    as r eqn:Hrun.
  symmetry in Hrun.
  unfold CompileAndLinkShader in Hrun. unfold bind at 1 in Hrun.
  unfold glCreateProgram at 1 in Hrun. cbv beta iota zeta in Hrun.
  erewrite bind_ok in Hrun; cycle 1.
  { eapply CompileShader_succeeds; [exact Hfresh| |exact Hok].
    unfold step. cbn [gl_effect]. autorewrite with gl. apply lookup_insert_eq. }
  cbv beta iota zeta in Hrun.
  rewrite decide_True in Hrun by exact Hnz1.
  erewrite bind_ok in Hrun by (by apply CompileShader_fails).
  cbv beta iota zeta in Hrun.
  rewrite decide_False in Hrun by (intros H; by apply H).
  revert Hnz1 Hcur1 Hsh1 Hpr1 Hatt1 Hrun.
  generalize
    (drv_gen_object drv (step s (CreateProgram (drv_gen_object drv s)))).
  intros vs Hnz1 Hcur1 Hsh1 Hpr1 Hatt1 Hrun.
  unfold step in *. cbn [gl_effect] in *. autorewrite with gl in *.
  revert Hrun.
  match goal with
  | |- context [compile_failure_calls ?x _] => generalize x; intros ps Hrun
  end.
  assert (Hatt0 : vs ∉ attached_names (gl_programs s)).
  { intros Hin. apply Hatt1. apply elem_of_attached_names_insert. right.
    by rewrite delete_id by exact Hpr. }
  rewrite insert_insert_eq in Hrun.
  revert Hrun.
  gl_unfold. unfold delete_shader. autorewrite with gl.
  rewrite lookup_insert_eq, decide_True; cycle 1.
  { apply elem_of_attached_names_insert. left.
    cbn [pr_attached with_attached]. apply elem_of_union_l, elem_of_singleton.
    reflexivity. }
  rewrite insert_insert_eq.
  unfold delete_program. autorewrite with gl.
  rewrite lookup_insert_eq, decide_False by exact Hcur.
  unfold remove_program. autorewrite with gl.
  rewrite delete_insert_id by exact Hpr.
  cbn [pr_attached with_attached new_program].
  rewrite swept_insert;
    [|reflexivity|apply elem_of_union_l, elem_of_singleton; reflexivity
     |exact Hatt0].
  rewrite delete_id by exact Hsh1.
  rewrite swept_none_id; cycle 1.
  { intros sh [->%elem_of_singleton|Hin%elem_of_empty]%elem_of_union;
      [exact Hsh1|done]. }
  autorewrite with gl. intros <-.
  exists (drv_gen_object drv s), vs, ps. reflexivity.
Qed.

Lemma attached_sources_stages (shaders : gmap Z ShaderObj)
    vs ps rv rp vsrc psrc :
  vs ≠ ps →
  attached_sources
    (<[ps := with_compiled rp
               (with_source psrc (new_shader GL_FRAGMENT_SHADER))]>
       (<[vs := with_compiled rv
                  (with_source vsrc (new_shader GL_VERTEX_SHADER))]>
          shaders))
    GL_VERTEX_SHADER ({[ps]} ∪ ({[vs]} ∪ ∅)) = {[vsrc]}
  ∧ attached_sources
      (<[ps := with_compiled rp
                 (with_source psrc (new_shader GL_FRAGMENT_SHADER))]>
         (<[vs := with_compiled rv
                    (with_source vsrc (new_shader GL_VERTEX_SHADER))]>
            shaders))
      GL_FRAGMENT_SHADER ({[ps]} ∪ ({[vs]} ∪ ∅)) = {[psrc]}.
Proof.
  intros Hne. unfold attached_sources.
  split; apply set_eq; intros x;
    rewrite elem_of_set_omap, elem_of_singleton; split.
  - intros (sh & Hin & Hsrc).
    apply elem_of_union in Hin as [->%elem_of_singleton|Hin].
    + rewrite lookup_insert_eq in Hsrc.
      cbn [sh_type sh_source with_compiled with_source new_shader] in Hsrc.
      rewrite decide_False in Hsrc by discriminate. discriminate.
    + apply elem_of_union in Hin as [->%elem_of_singleton|Hin%elem_of_empty];
        [|done].
      rewrite lookup_insert_ne, lookup_insert_eq in Hsrc by congruence.
      cbn [sh_type sh_source with_compiled with_source new_shader] in Hsrc.
      rewrite decide_True in Hsrc by reflexivity. congruence.
  - intros ->. exists vs. split.
    + apply elem_of_union_r, elem_of_union_l, elem_of_singleton. reflexivity.
    + rewrite lookup_insert_ne, lookup_insert_eq by congruence.
      cbn [sh_type sh_source with_compiled with_source new_shader].
      by rewrite decide_True.
  - intros (sh & Hin & Hsrc).
    apply elem_of_union in Hin as [->%elem_of_singleton|Hin].
    + rewrite lookup_insert_eq in Hsrc.
      cbn [sh_type sh_source with_compiled with_source new_shader] in Hsrc.
      rewrite decide_True in Hsrc by reflexivity. congruence.
    + apply elem_of_union in Hin as [->%elem_of_singleton|Hin%elem_of_empty];
        [|done].
      rewrite lookup_insert_ne, lookup_insert_eq in Hsrc by congruence.
      cbn [sh_type sh_source with_compiled with_source new_shader] in Hsrc.
      rewrite decide_False in Hsrc by discriminate. discriminate.
  - intros ->. exists ps. split.
    + apply elem_of_union_l, elem_of_singleton. reflexivity.
    + rewrite lookup_insert_eq.
      cbn [sh_type sh_source with_compiled with_source new_shader].
      by rewrite decide_True.
Qed.

Lemma CompileAndLinkShader_link_fails this vs_source ps_source s :
  fresh_object_names drv →
  (drv_compile drv GL_VERTEX_SHADER (platform_preamble +:+ vs_source)).1
  = true →
  (drv_compile drv GL_FRAGMENT_SHADER (platform_preamble +:+ ps_source)).1
  = true →
  (drv_link drv {[platform_preamble +:+ vs_source]}
                {[platform_preamble +:+ ps_source]}).1 = false →
  ∃ program vs ps,
  CompileAndLinkShader this vs_source ps_source s
  = Ok ((None, {| last_error_ :=
                 diagnostic (drv_link drv {[platform_preamble +:+ vs_source]}
                {[platform_preamble +:+ ps_source]}).2 |}),
        logged (CreateProgram program :: compile_calls GL_VERTEX_SHADER vs
                              (platform_preamble +:+ vs_source)
                ++ [AttachShader program vs]
                ++ compile_calls GL_FRAGMENT_SHADER ps
                              (platform_preamble +:+ ps_source)
                ++ [AttachShader program ps]
                ++ link_calls program
                ++ link_failure_calls program vs ps
                     (drv_link drv {[platform_preamble +:+ vs_source]}
                {[platform_preamble +:+ ps_source]}).2
                ++ [DeleteProgram program]) s).
Proof.
  intros Hfresh Hvok Hpok Hfail.
  destruct (fresh_object s Hfresh) as (Hnz & Hcur & Hsh & Hpr & Hatt).
  pose proof (fresh_object (step s (CreateProgram (drv_gen_object drv s)))
                Hfresh) as (Hnz1 & Hcur1 & Hsh1 & Hpr1 & Hatt1).
  remember (CompileAndLinkShader this vs_source ps_source s)
    as r eqn:Hrun.
  symmetry in Hrun.
  unfold CompileAndLinkShader in Hrun. unfold bind at 1 in Hrun.
  unfold glCreateProgram at 1 in Hrun. cbv beta iota zeta in Hrun.
  erewrite bind_ok in Hrun; cycle 1.
  { eapply CompileShader_succeeds; [exact Hfresh| |exact Hvok].
    unfold step. cbn [gl_effect]. autorewrite with gl. apply lookup_insert_eq. }
  cbv beta iota zeta in Hrun.
  rewrite decide_True in Hrun by exact Hnz1.
  revert Hnz1 Hcur1 Hsh1 Hpr1 Hatt1 Hrun.
  generalize
    (drv_gen_object drv (step s (CreateProgram (drv_gen_object drv s)))).
  intros vs Hnz1 Hcur1 Hsh1 Hpr1 Hatt1 Hrun.
  unfold step in *. cbn [gl_effect] in *. autorewrite with gl in *.
  rewrite insert_insert_eq in Hrun.
  match type of Hrun with
  | (let* _ := CompileShader _ _ _ _ in _) ?s2 = _ =>
      pose proof (fresh_object s2 Hfresh)
        as (Hnz2 & Hcur2 & Hsh2 & Hpr2 & Hatt2)
  end.
  erewrite bind_ok in Hrun; cycle 1.
  { eapply CompileShader_succeeds; [exact Hfresh| |exact Hpok].
    autorewrite with gl. apply lookup_insert_eq. }
  cbv beta iota zeta in Hrun.
  rewrite decide_True in Hrun by exact Hnz2.
  revert Hnz2 Hcur2 Hsh2 Hpr2 Hatt2 Hrun.
  match goal with
  | |- drv_gen_object drv ?s2 ≠ 0 → _ => generalize (drv_gen_object drv s2)
  end.
  intros ps Hnz2 Hcur2 Hsh2 Hpr2 Hatt2 Hrun.
  autorewrite with gl in *.
  rewrite insert_insert_eq in Hrun.
  cbn [pr_attached with_attached new_program] in *.
  assert (Hne : vs ≠ ps).
  { intros ->. by rewrite lookup_insert_eq in Hsh2. }
  rewrite lookup_insert_ne in Hsh2 by exact Hne.
  assert (Hatt0 : vs ∉ attached_names (gl_programs s)).
  { intros Hin. apply Hatt1. apply elem_of_attached_names_insert. right.
    by rewrite delete_id by exact Hpr. }
  assert (Hatt0' : ps ∉ attached_names (gl_programs s)).
  { intros Hin. apply Hatt2. apply elem_of_attached_names_insert. right.
    by rewrite delete_id by exact Hpr. }
  destruct (attached_sources_stages (gl_shaders s) vs ps
              (drv_compile drv GL_VERTEX_SHADER
                 (platform_preamble +:+ vs_source))
              (drv_compile drv GL_FRAGMENT_SHADER
                 (platform_preamble +:+ ps_source))
              (platform_preamble +:+ vs_source)
              (platform_preamble +:+ ps_source) Hne) as [Hvsrc Hpsrc].
  revert Hrun. gl_unfold. autorewrite with gl.
  rewrite alter_insert_eq.
  cbn [pr_attached with_attached new_program].
  rewrite Hvsrc, Hpsrc, lookup_insert_eq.
  cbn [pr_link_status pr_info_log with_linked].
  rewrite Hfail, decide_False by discriminate.
  autorewrite with gl. rewrite lookup_insert_eq.
  cbn [pr_link_status pr_info_log with_linked default id].
  rewrite last_error_after_query.
  unfold delete_shader. autorewrite with gl.
  rewrite lookup_insert_eq, decide_True; cycle 1.
  { apply elem_of_attached_names_insert. left.
    cbn [pr_attached with_attached with_linked].
    apply elem_of_union_l, elem_of_singleton. reflexivity. }
  rewrite insert_insert_eq. autorewrite with gl.
  rewrite lookup_insert_ne, lookup_insert_eq by congruence.
  rewrite decide_True; cycle 1.
  { apply elem_of_attached_names_insert. left.
    cbn [pr_attached with_attached with_linked].
    apply elem_of_union_r, elem_of_union_l, elem_of_singleton. reflexivity. }
  unfold delete_program. autorewrite with gl.
  rewrite lookup_insert_eq, decide_False by exact Hcur.
  unfold remove_program. autorewrite with gl.
  rewrite delete_insert_id by exact Hpr.
  cbn [pr_attached with_attached with_linked].
  rewrite swept_insert;
    [|reflexivity
     |apply elem_of_union_r, elem_of_union_l, elem_of_singleton; reflexivity
     |exact Hatt0].
  rewrite delete_insert_ne, delete_insert_id by (exact Hsh1 || congruence).
  rewrite swept_insert;
    [|reflexivity|apply elem_of_union_l, elem_of_singleton; reflexivity
     |exact Hatt0'].
  rewrite delete_id by exact Hsh2.
  rewrite swept_none_id; cycle 1.
  { intros sh [->%elem_of_singleton|Hin]%elem_of_union; [exact Hsh2|].
    apply elem_of_union in Hin as [->%elem_of_singleton|Hin%elem_of_empty];
      [exact Hsh1|done]. }
  autorewrite with gl. intros <-.
  exists (drv_gen_object drv s), vs, ps. reflexivity.
Qed.

Lemma diagnostic_nonempty (info_log : string) :
  info_log ≠ "" → diagnostic info_log ≠ "".
Proof.
  intros Hlog. unfold diagnostic. rewrite decide_False by exact Hlog.
  destruct info_log; [done|discriminate].
Qed.

(** C5, as the code has it. For every source that fails to compile,
    CompileShader stores the diagnostic log of the compiler (with its
    terminating NUL; nothing when the driver has no log) in the shared
    last-error string and returns the null handle; the failed stage is never
    attached to the program, and CompileShader itself deletes it before it
    returns: the stage no longer exists, and the context is as before the
    call but for its log. *)
Theorem CompileShader_failure_stores_log_and_deletes_stage
    this stage program source s :
  fresh_object_names drv →
  (drv_compile drv stage (platform_preamble +:+ source)).1 = false →
  ∃ sh s',
    CompileShader this stage program source s
    = Ok ((0, {| last_error_ :=
                   diagnostic (drv_compile drv stage
                                 (platform_preamble +:+ source)).2 |}), s')
    ∧ s' = logged (compile_calls stage sh (platform_preamble +:+ source)
                   ++ compile_failure_calls sh
                        (drv_compile drv stage
                           (platform_preamble +:+ source)).2) s
    ∧ sh ≠ 0
    ∧ gl_shaders s !! sh = None
    ∧ gl_shaders s' !! sh = None
    ∧ (sh ∉ attached_names (gl_programs s'))
    ∧ gl_programs s' = gl_programs s.
Proof.
  intros Hfresh Hfail.
  destruct (fresh_object s Hfresh) as (Hnz & Hcur & Hsh & Hpr & Hatt).
  exists (drv_gen_object drv s). eexists.
  split; [by apply CompileShader_fails|].
  split; [reflexivity|]. autorewrite with gl. done.
Qed.

(** C4, as the code has it. When the vertex source fails to compile,
    CompileAndLinkShader returns the null pointer, having deleted the stage
    and the program it created, and the shared diagnostic string holds the
    log of the compiler: it is non-empty when the driver gave a log, the
    code adding no text of its own.  When the fragment source fails to
    compile, or the program fails to link, it returns the null pointer as
    well, having deleted every stage and the program it created.  In the
    three cases the context is as before the call but for its log. *)
Theorem CompileAndLinkShader_failure_returns_null_and_cleans_up
    this vs_source ps_source s :
  fresh_object_names drv →
  ∃ program vs ps,
    let vsrc := platform_preamble +:+ vs_source in
    let psrc := platform_preamble +:+ ps_source in
    let vc := drv_compile drv GL_VERTEX_SHADER vsrc in
    let pc := drv_compile drv GL_FRAGMENT_SHADER psrc in
    let lk := drv_link drv {[vsrc]} {[psrc]} in
    (vc.1 = false →
       CompileAndLinkShader this vs_source ps_source s
       = Ok ((None, {| last_error_ := diagnostic vc.2 |}),
             logged (CreateProgram program
                     :: compile_calls GL_VERTEX_SHADER vs vsrc
                     ++ compile_failure_calls vs vc.2
                     ++ [DeleteProgram program]) s)
       ∧ (vc.2 ≠ "" → diagnostic vc.2 ≠ ""))
    ∧ (vc.1 = true → pc.1 = false →
       CompileAndLinkShader this vs_source ps_source s
       = Ok ((None, {| last_error_ := diagnostic pc.2 |}),
             logged (CreateProgram program
                     :: compile_calls GL_VERTEX_SHADER vs vsrc
                     ++ [AttachShader program vs]
                     ++ compile_calls GL_FRAGMENT_SHADER ps psrc
                     ++ compile_failure_calls ps pc.2
                     ++ [DeleteShader vs; DeleteProgram program]) s))
    ∧ (vc.1 = true → pc.1 = true → lk.1 = false →
       CompileAndLinkShader this vs_source ps_source s
       = Ok ((None, {| last_error_ := diagnostic lk.2 |}),
             logged (CreateProgram program
                     :: compile_calls GL_VERTEX_SHADER vs vsrc
                     ++ [AttachShader program vs]
                     ++ compile_calls GL_FRAGMENT_SHADER ps psrc
                     ++ [AttachShader program ps]
                     ++ link_calls program
                     ++ link_failure_calls program vs ps lk.2
                     ++ [DeleteProgram program]) s)).
Proof.
  intros Hfresh.
  destruct (drv_compile drv GL_VERTEX_SHADER
              (platform_preamble +:+ vs_source)).1 eqn:Hvc.
  - destruct (drv_compile drv GL_FRAGMENT_SHADER
                (platform_preamble +:+ ps_source)).1 eqn:Hpc.
    + destruct (drv_link drv {[platform_preamble +:+ vs_source]}
                  {[platform_preamble +:+ ps_source]}).1 eqn:Hlk.
      * exists 0, 0, 0. cbv zeta. rewrite Hvc, Hpc, Hlk. done.
      * destruct (CompileAndLinkShader_link_fails this vs_source ps_source s
                    Hfresh Hvc Hpc Hlk) as (program & vs & ps & Hrun).
        exists program, vs, ps. cbv zeta. rewrite Hvc, Hpc, Hlk. done.
    + destruct (CompileAndLinkShader_fragment_fails this vs_source ps_source s
                  Hfresh Hvc Hpc) as (program & vs & ps & Hrun).
      exists program, vs, ps. cbv zeta. rewrite Hvc, Hpc. done.
  - destruct (CompileAndLinkShader_vertex_fails this vs_source ps_source s
                Hfresh Hvc) as (program & vs & Hrun).
    exists program, vs, 0. cbv zeta. rewrite Hvc.
    split; [|done]. intros _. split; [exact Hrun|apply diagnostic_nonempty].
Qed.

(** ** Decoding a TGA image *)

Lemma bind_Ok_inv {A B} (m : GL A) (k : A → GL B) s r :
  bind m k s = Ok r → ∃ a s', m s = Ok (a, s') ∧ k a s' = Ok r.
Proof.
  unfold bind. destruct (m s) as [[a s']| |]; [|done..]. intros H.
  by exists a, s'.
Qed.

Lemma CreateTexture_runs buffer width height s :
  CreateTexture buffer (width, height) s
  = Ok (drv_gen_texture drv s,
        replay (CreateTexture_calls (drv_gen_texture drv s) buffer
                                    width height) s).
Proof. reflexivity. Qed.

Lemma deref_Some (mem : list Byte.byte) (p : Z) (b : Byte.byte) s :
  0 ≤ p → mem !! Z.to_nat p = Some b → deref mem p s = Ok (b, s).
Proof.
  intros Hp Hb. unfold deref. by rewrite decide_True, Hb by exact Hp.
Qed.

(** More iterations allowed do not change a result. *)
Lemma for_rows_fuel_mono {S} (n m : nat) y end_y y_direction
    (body : Z → S → GL S) st s r :
  (n ≤ m)%nat →
  for_rows n y end_y y_direction body st s = Ok r →
  for_rows m y end_y y_direction body st s = Ok r.
Proof.
  revert m y st s. induction n as [|n IH]; intros m y st s Hle Hrun.
  - destruct m; simpl in *; destruct (decide (y = end_y)); done.
  - destruct m as [|m]; [lia|]. simpl in *.
    destruct (decide (y = end_y)); [done|].
    unfold bind in *. destruct (body y st s) as [[st' s']| |]; [|done..].
    apply IH; [lia|done].
Qed.

Lemma CreateTextureFromTGAMemory_fuel_mono (n m : nat) tga_buf s r :
  (n ≤ m)%nat →
  CreateTextureFromTGAMemory n tga_buf s = Ok r →
  CreateTextureFromTGAMemory m tga_buf s = Ok r.
Proof.
  intros Hle Hrun. unfold CreateTextureFromTGAMemory in *.
  repeat match type of Hrun with
  | (if decide ?P then _ else _) _ = Ok _ =>
      destruct (decide P); [exact Hrun|]
  | bind (for_rows _ _ _ _ _ _) _ _ = Ok _ =>
      apply bind_Ok_inv in Hrun as (? & ? & Hm & Hrun);
      erewrite bind_ok by (eapply for_rows_fuel_mono; [exact Hle|exact Hm])
  | bind _ _ _ = Ok _ =>
      apply bind_Ok_inv in Hrun as (? & ? & Hm & Hrun);
      erewrite bind_ok by exact Hm; clear Hm
  end.
  exact Hrun.
Qed.

(** C8. On a big-endian host, and for every buffer whose header has
    color_map_type other than 0, or image_type other than 2, or bpp other
    than 24 and 32, CreateTextureFromTGAMemory returns 0 and leaves the
    context as it was: nothing was converted, no call was made, no texture
    name was taken. *)
Theorem CreateTextureFromTGAMemory_rejects fuel tga_buf s :
  host_little_endian plat = false
  ∨ ((18 ≤ length tga_buf)%nat
     ∧ (TGA_field tga_buf 1 ≠ 0
        ∨ TGA_field tga_buf 2 ≠ 2
        ∨ (TGA_field tga_buf 16 ≠ 24 ∧ TGA_field tga_buf 16 ≠ 32))) →
  CreateTextureFromTGAMemory fuel tga_buf s = Ok (0, s).
Proof.
  intros Hreject. unfold CreateTextureFromTGAMemory, int_bytes.
  destruct (host_little_endian plat) eqn:Hhost.
  - destruct Hreject as [?|[Hlen Hfields]]; [done|].
    rewrite decide_False by (vm_compute; discriminate).
    destruct (lookup_lt_is_Some_2 tga_buf 1) as [c Hc]; [lia|].
    destruct (lookup_lt_is_Some_2 tga_buf 2) as [t Ht]; [lia|].
    destruct (lookup_lt_is_Some_2 tga_buf 16) as [b Hb]; [lia|].
    unfold TGA_field in Hfields. rewrite Hc, Ht, Hb in Hfields.
    cbn [from_option] in Hfields.
    erewrite bind_ok by (by apply deref_Some).
    destruct (decide (uchar c ≠ 0)); [reflexivity|].
    erewrite bind_ok by (by apply deref_Some).
    destruct (decide (uchar t ≠ 2)); [reflexivity|].
    erewrite bind_ok by (by apply deref_Some).
    destruct (decide (uchar b ≠ 32 ∧ uchar b ≠ 24)); [reflexivity|].
    exfalso. tauto.
  - rewrite decide_True by reflexivity. reflexivity.
Qed.

(** C6. For the 2×2 buffer with header {width = 2, height = 2, bpp = 32,
    image_type = 2, color_map_type = 0, id_len = 0}, the flip bit clear,
    and four pixels of bytes B, G, R, A, CreateTextureFromTGAMemory hands
    the texture-creation path exactly 16 bytes: the four pixels in the
    order of the input, rows top to bottom, each as R, G, B, A with the
    alpha byte of the input.  With bpp = 24 and four pixels of bytes B, G,
    R the alpha byte of every pixel is 255. *)
Theorem CreateTextureFromTGAMemory_2x2_gives_RGBA_top_to_bottom
    fuel c0 c1 c2 c3 c4 xo0 xo1 yo0 yo1 d
    b0 g0 r0 a0 b1 g1 r1 a1 b2 g2 r2 a2 b3 g3 r3 a3 s :
  host_little_endian plat = true →
  Z.land (uchar d) 32 = 0 →
  (3 ≤ fuel)%nat →
  CreateTextureFromTGAMemory fuel
    (TGA_header_2x2 c0 c1 c2 c3 c4 xo0 xo1 yo0 yo1 Byte.x20 d
     ++ [b0; g0; r0; a0;  b1; g1; r1; a1;
         b2; g2; r2; a2;  b3; g3; r3; a3]) s
  = Ok (drv_gen_texture drv s,
        replay (CreateTexture_calls (drv_gen_texture drv s)
                  (Some <$> [r0; g0; b0; a0;  r1; g1; b1; a1;
                             r2; g2; b2; a2;  r3; g3; b3; a3]) 2 2) s)
  ∧ CreateTextureFromTGAMemory fuel
      (TGA_header_2x2 c0 c1 c2 c3 c4 xo0 xo1 yo0 yo1 Byte.x18 d
       ++ [b0; g0; r0;  b1; g1; r1;  b2; g2; r2;  b3; g3; r3]) s
    = Ok (drv_gen_texture drv s,
          replay (CreateTexture_calls (drv_gen_texture drv s)
                    (Some <$> [r0; g0; b0; Byte.xff;  r1; g1; b1; Byte.xff;
                               r2; g2; b2; Byte.xff;  r3; g3; b3; Byte.xff])
                    2 2) s).
Proof.
  intros Hhost Hflip Hfuel.
  split; apply (CreateTextureFromTGAMemory_fuel_mono 3 fuel _ _ _ Hfuel);
    rewrite <- CreateTexture_runs;
    unfold CreateTextureFromTGAMemory, int_bytes, read_ushort;
    rewrite Hhost; generalize CreateTexture; intros K;
    destruct d; try (exfalso; vm_compute in Hflip; discriminate Hflip);
    vm_compute; reflexivity.
Qed.

(** C7. For the 2×2, 32-bit buffer of C6, setting the vertical-flip bit of
    image_descriptor and swapping rows 0 and 1 of the pixel data gives the
    same result as the buffer of C6, byte for byte: the texture-creation
    path receives the same 16 bytes. *)
Theorem CreateTextureFromTGAMemory_2x2_flip_and_swap_rows
    fuel c0 c1 c2 c3 c4 xo0 xo1 yo0 yo1 d
    b0 g0 r0 a0 b1 g1 r1 a1 b2 g2 r2 a2 b3 g3 r3 a3 s :
  host_little_endian plat = true →
  Z.land (uchar d) 32 = 0 →
  (3 ≤ fuel)%nat →
  Z.land (uchar (set_flip_bit d)) 32 = 32
  ∧ CreateTextureFromTGAMemory fuel
      (TGA_header_2x2 c0 c1 c2 c3 c4 xo0 xo1 yo0 yo1 Byte.x20
                      (set_flip_bit d)
       ++ [b2; g2; r2; a2;  b3; g3; r3; a3;
           b0; g0; r0; a0;  b1; g1; r1; a1]) s
    = CreateTextureFromTGAMemory fuel
        (TGA_header_2x2 c0 c1 c2 c3 c4 xo0 xo1 yo0 yo1 Byte.x20 d
         ++ [b0; g0; r0; a0;  b1; g1; r1; a1;
             b2; g2; r2; a2;  b3; g3; r3; a3]) s
  ∧ CreateTextureFromTGAMemory fuel
      (TGA_header_2x2 c0 c1 c2 c3 c4 xo0 xo1 yo0 yo1 Byte.x20
                      (set_flip_bit d)
       ++ [b2; g2; r2; a2;  b3; g3; r3; a3;
           b0; g0; r0; a0;  b1; g1; r1; a1]) s
    = Ok (drv_gen_texture drv s,
          replay (CreateTexture_calls (drv_gen_texture drv s)
                    (Some <$> [r0; g0; b0; a0;  r1; g1; b1; a1;
                               r2; g2; b2; a2;  r3; g3; b3; a3]) 2 2) s).
Proof.
  intros Hhost Hflip Hfuel.
  assert (Hflipped :
    CreateTextureFromTGAMemory fuel
      (TGA_header_2x2 c0 c1 c2 c3 c4 xo0 xo1 yo0 yo1 Byte.x20
                      (set_flip_bit d)
       ++ [b2; g2; r2; a2;  b3; g3; r3; a3;
           b0; g0; r0; a0;  b1; g1; r1; a1]) s
    = Ok (drv_gen_texture drv s,
          replay (CreateTexture_calls (drv_gen_texture drv s)
                    (Some <$> [r0; g0; b0; a0;  r1; g1; b1; a1;
                               r2; g2; b2; a2;  r3; g3; b3; a3]) 2 2) s)).
  { apply (CreateTextureFromTGAMemory_fuel_mono 3 fuel _ _ _ Hfuel).
    rewrite <- CreateTexture_runs.
    unfold CreateTextureFromTGAMemory, int_bytes, read_ushort.
    rewrite Hhost. generalize CreateTexture. intros K.
    destruct d; try (exfalso; vm_compute in Hflip; discriminate Hflip);
      vm_compute; reflexivity. }
  split; [|split; [|exact Hflipped]].
  - destruct d; try (exfalso; vm_compute in Hflip; discriminate Hflip);
      reflexivity.
  - rewrite Hflipped. symmetry.
    apply (CreateTextureFromTGAMemory_fuel_mono 3 fuel _ _ _ Hfuel).
    rewrite <- CreateTexture_runs.
    unfold CreateTextureFromTGAMemory, int_bytes, read_ushort.
    rewrite Hhost. generalize CreateTexture. intros K.
    destruct d; try (exfalso; vm_compute in Hflip; discriminate Hflip);
      vm_compute; reflexivity.
Qed.

(** ** Decoding images of any size *)

Lemma store_Ok (a : list (option Byte.byte)) (i : nat) v s :
  (i < length a)%nat →
  store a (Z.of_nat i) v s = Ok (<[i := Some v]> a, s).
Proof.
  intros Hi. unfold store. rewrite decide_True by lia.
  by rewrite Nat2Z.id.
Qed.

Lemma deref_nat (mem : list Byte.byte) (p : nat) (b : Byte.byte) s :
  mem !! p = Some b → deref mem (Z.of_nat p) s = Ok (b, s).
Proof.
  intros Hb. apply deref_Some; [lia|]. by rewrite Nat2Z.id.
Qed.

(** Four stores at [p + 2], [p + 1], [p] and [p + 3] fill the cells of one
    pixel. *)
Lemma insert_pixel {A} (l : list A) (p : nat) (r g b a : A) :
  (p + 4 ≤ length l)%nat →
  <[(p + 3)%nat := a]>
    (<[(p + 0)%nat := r]> (<[(p + 1)%nat := g]> (<[(p + 2)%nat := b]> l)))
  = take p l ++ [r; g; b; a] ++ drop (p + 4) l.
Proof.
  intros Hlen.
  rewrite <- (take_drop p l) at 1.
  assert (Hp : length (take p l) = p) by (rewrite length_take; lia).
  rewrite <- Hp at 1 2 3 4. rewrite !insert_app_r.
  rewrite <- (drop_drop l 4 p).
  pose proof (length_drop l p) as Hd.
  destruct (drop p l) as [|c0 [|c1 [|c2 [|c3 rest]]]]; simpl in Hd; try lia.
  reflexivity.
Qed.

Lemma convert_pixel_runs tga_buf bpp (p pixels : nat) rgba s :
  (pixels + TGA_pixel_size bpp ≤ length tga_buf)%nat →
  (p + 4 ≤ length rgba)%nat →
  convert_pixel tga_buf bpp (Z.of_nat p) (Z.of_nat pixels, rgba) s
  = Ok ((Z.of_nat (pixels + TGA_pixel_size bpp),
         take p rgba ++ (Some <$> RGBA_of_BGRA bpp (drop pixels tga_buf))
         ++ drop (p + 4) rgba), s).
Proof.
  intros Hbuf Hrgba. unfold convert_pixel, TGA_pixel_size, RGBA_of_BGRA in *.
  cbn [fst snd].
  assert (H3 : (pixels + 3 ≤ length tga_buf)%nat)
    by (destruct (decide (bpp = 32)); lia).
  destruct (lookup_lt_is_Some_2 tga_buf (pixels + 0)) as [b Hb]; [lia|].
  destruct (lookup_lt_is_Some_2 tga_buf (pixels + 1)) as [g Hg]; [lia|].
  destruct (lookup_lt_is_Some_2 tga_buf (pixels + 2)) as [r Hr]; [lia|].
  rewrite !lookup_drop, Hb, Hg, Hr. cbn [default].
  replace (Z.of_nat pixels) with (Z.of_nat (pixels + 0)) at 1 by lia.
  replace (Z.of_nat pixels + 1) with (Z.of_nat (pixels + 1)) by lia.
  replace (Z.of_nat pixels + 2) with (Z.of_nat (pixels + 2)) by lia.
  replace (Z.of_nat pixels + 3) with (Z.of_nat (pixels + 3)) by lia.
  replace (Z.of_nat p + 0) with (Z.of_nat (p + 0)) by lia.
  replace (Z.of_nat p + 1) with (Z.of_nat (p + 1)) by lia.
  replace (Z.of_nat p + 2) with (Z.of_nat (p + 2)) by lia.
  replace (Z.of_nat p + 3) with (Z.of_nat (p + 3)) by lia.
  erewrite bind_ok by (by apply deref_nat).
  erewrite bind_ok by (apply store_Ok; lia).
  erewrite bind_ok by (by apply deref_nat).
  erewrite bind_ok by (apply store_Ok; rewrite !length_insert; lia).
  erewrite bind_ok by (by apply deref_nat).
  erewrite bind_ok by (apply store_Ok; rewrite !length_insert; lia).
  destruct (decide (bpp = 32)) as [Hbpp|Hbpp].
  - destruct (lookup_lt_is_Some_2 tga_buf (pixels + 3)) as [a Ha]; [lia|].
    rewrite Ha. cbn [default].
    erewrite bind_ok by (by apply deref_nat).
    erewrite bind_ok by (apply store_Ok; rewrite !length_insert; lia).
    unfold ret. rewrite insert_pixel by exact Hrgba.
    repeat f_equal; lia.
  - erewrite bind_ok by (apply store_Ok; rewrite !length_insert; lia).
    unfold ret. rewrite insert_pixel by exact Hrgba.
    repeat f_equal; lia.
Qed.

(** The inner loop, over the [n] pixels of a row from column [x0] on. *)
Lemma for_in_row tga_buf bpp (y width : Z) (n x0 pixels : nat) rgba s :
  0 ≤ y * width →
  ((0 < n)%nat → (pixels + TGA_pixel_size bpp * n ≤ length tga_buf)%nat) →
  (Z.to_nat ((y * width + Z.of_nat x0) * 4) + 4 * n ≤ length rgba)%nat →
  for_in (seqZ (Z.of_nat x0) (Z.of_nat n))
    (λ x st, convert_pixel tga_buf bpp ((y * width + x) * 4) st)
    (Z.of_nat pixels, rgba) s
  = Ok ((Z.of_nat (pixels + TGA_pixel_size bpp * n),
         take (Z.to_nat ((y * width + Z.of_nat x0) * 4)) rgba
         ++ (Some <$> TGA_row bpp n (drop pixels tga_buf))
         ++ drop (Z.to_nat ((y * width + Z.of_nat x0) * 4) + 4 * n) rgba),
        s).
Proof.
  intros Hy. revert x0 pixels rgba.
  induction n as [|n IH]; intros x0 pixels rgba Hbuf Hrgba.
  - cbn [for_in TGA_row fmap list_fmap app]. unfold ret.
    rewrite Nat.mul_0_r, !Nat.add_0_r, take_drop. reflexivity.
  - rewrite seqZ_cons by lia. cbn [for_in TGA_row].
    replace (Z.succ (Z.of_nat x0)) with (Z.of_nat (S x0)) by lia.
    replace (Z.pred (Z.of_nat (S n))) with (Z.of_nat n) by lia.
    set (base := Z.to_nat ((y * width + Z.of_nat x0) * 4)) in *.
    assert (Hbase : (y * width + Z.of_nat x0) * 4 = Z.of_nat base)
      by (unfold base; lia).
    assert (Hnext : Z.to_nat ((y * width + Z.of_nat (S x0)) * 4)
                    = (base + 4)%nat) by (unfold base; lia).
    rewrite Hbase.
    erewrite bind_ok by (apply convert_pixel_runs; lia).
    assert (Hfront : length (take base rgba
                             ++ (Some <$> RGBA_of_BGRA bpp
                                            (drop pixels tga_buf)))
                     = (base + 4)%nat).
    { rewrite length_app, length_take, length_fmap. cbn [RGBA_of_BGRA length].
      lia. }
    rewrite IH; rewrite ?Hnext.
    + rewrite (assoc_L (++) (take base rgba)).
      rewrite take_app_length' by (symmetry; exact Hfront).
      rewrite drop_app_ge by lia. rewrite Hfront.
      rewrite drop_drop, drop_drop, fmap_app, <- !(assoc_L (++)).
      replace (base + 4 + (base + 4 + 4 * n - (base + 4)))%nat
        with (base + 4 * S n)%nat by lia.
      replace (pixels + TGA_pixel_size bpp + TGA_pixel_size bpp * n)%nat
        with (pixels + TGA_pixel_size bpp * S n)%nat by lia.
      reflexivity.
    + lia.
    + rewrite (assoc_L (++) (take base rgba)), length_app, Hfront, length_drop.
      lia.
Qed.

Lemma length_TGA_row bpp (w : nat) data :
  length (TGA_row bpp w data) = (4 * w)%nat.
Proof.
  revert data. induction w as [|w IH]; intros data; [reflexivity|].
  cbn [TGA_row]. rewrite length_app, IH. cbn [RGBA_of_BGRA length]. lia.
Qed.

(** One row: the [w] pixels at the read pointer go to row [y] of [rgba]. *)
Lemma for_in_whole_row tga_buf bpp (y w pixels : nat) rgba s :
  ((0 < w)%nat → (pixels + TGA_pixel_size bpp * w ≤ length tga_buf)%nat) →
  (4 * w * y + 4 * w ≤ length rgba)%nat →
  for_in (seqZ 0 (Z.of_nat w))
    (λ x st, convert_pixel tga_buf bpp
               ((Z.of_nat y * Z.of_nat w + x) * 4) st)
    (Z.of_nat pixels, rgba) s
  = Ok ((Z.of_nat (pixels + TGA_pixel_size bpp * w),
         take (4 * w * y) rgba
         ++ (Some <$> TGA_row bpp w (drop pixels tga_buf))
         ++ drop (4 * w * y + 4 * w) rgba), s).
Proof.
  intros Hbuf Hrgba.
  assert (Hbase : Z.to_nat ((Z.of_nat y * Z.of_nat w + Z.of_nat 0) * 4)
                  = (4 * w * y)%nat) by lia.
  pose proof (for_in_row tga_buf bpp (Z.of_nat y) (Z.of_nat w) w 0 pixels
                rgba s) as Hrun.
  rewrite Hbase in Hrun. apply Hrun; [lia|exact Hbuf|lia].
Qed.

(** The outer loop on a file that is not flipped: [n] rows are left, from
    row [y] up to the last one. *)
Lemma for_rows_up tga_buf bpp (w h n : nat) : ∀ fuel (y pixels : nat) rgba s,
  (n ≤ fuel)%nat → (y + n = h)%nat →
  ((0 < w * n)%nat →
   (pixels + TGA_pixel_size bpp * w * n ≤ length tga_buf)%nat) →
  (4 * w * h ≤ length rgba)%nat →
  for_rows fuel (Z.of_nat y) (Z.of_nat h) 1
    (λ y st, for_in (seqZ 0 (Z.of_nat w))
               (λ x st, convert_pixel tga_buf bpp
                          ((y * Z.of_nat w + x) * 4) st) st)
    (Z.of_nat pixels, rgba) s
  = Ok ((Z.of_nat (pixels + TGA_pixel_size bpp * w * n),
         take (4 * w * y) rgba
         ++ (Some <$> concat (TGA_rows bpp w n (drop pixels tga_buf)))
         ++ drop (4 * w * (y + n)) rgba), s).
Proof.
  induction n as [|n IH]; intros fuel y pixels rgba s Hfuel Hy Hbuf Hrgba.
  - destruct fuel; cbn [for_rows]; rewrite decide_True by lia;
      cbn [TGA_rows concat fmap list_fmap app]; unfold ret;
      rewrite !Nat.mul_0_r, !Nat.add_0_r, take_drop; reflexivity.
  - destruct fuel as [|fuel]; [lia|]. cbn [for_rows].
    rewrite decide_False by lia.
    erewrite bind_ok by (apply for_in_whole_row; nia).
    replace (Z.of_nat y + 1) with (Z.of_nat (S y)) by lia.
    assert (Hfront : length (take (4 * w * y) rgba
                             ++ (Some <$> TGA_row bpp w
                                            (drop pixels tga_buf)))
                     = (4 * w * S y)%nat).
    { rewrite length_app, length_take, length_fmap, length_TGA_row. nia. }
    rewrite IH.
    + rewrite (assoc_L (++) (take (4 * w * y) rgba)).
      rewrite take_app_length' by (symmetry; exact Hfront).
      rewrite drop_app_ge by nia. rewrite Hfront.
      cbn [TGA_rows concat].
      rewrite !drop_drop, !fmap_app, <- !(assoc_L (++)).
      replace (4 * w * y + 4 * w + (4 * w * (S y + n) - 4 * w * S y))%nat
        with (4 * w * (y + S n))%nat by nia.
      replace (pixels + TGA_pixel_size bpp * w
               + TGA_pixel_size bpp * w * n)%nat
        with (pixels + TGA_pixel_size bpp * w * S n)%nat by nia.
      reflexivity.
    + lia.
    + lia.
    + nia.
    + rewrite (assoc_L (++) (take (4 * w * y) rgba)), length_app, Hfront,
        length_drop. nia.
Qed.

(** The outer loop on a flipped file: [n] rows are left, from row [n - 1]
    down to row 0. *)
Lemma for_rows_down tga_buf bpp (w n : nat) : ∀ fuel (pixels : nat) rgba s,
  (n ≤ fuel)%nat →
  ((0 < w * n)%nat →
   (pixels + TGA_pixel_size bpp * w * n ≤ length tga_buf)%nat) →
  (4 * w * n ≤ length rgba)%nat →
  for_rows fuel (Z.of_nat n - 1) (-1) (-1)
    (λ y st, for_in (seqZ 0 (Z.of_nat w))
               (λ x st, convert_pixel tga_buf bpp
                          ((y * Z.of_nat w + x) * 4) st) st)
    (Z.of_nat pixels, rgba) s
  = Ok ((Z.of_nat (pixels + TGA_pixel_size bpp * w * n),
         (Some <$> concat (reverse (TGA_rows bpp w n
                                      (drop pixels tga_buf))))
         ++ drop (4 * w * n) rgba), s).
Proof.
  induction n as [|n IH]; intros fuel pixels rgba s Hfuel Hbuf Hrgba.
  - destruct fuel; cbn [for_rows]; rewrite decide_True by lia;
      cbn [TGA_rows reverse concat fmap list_fmap app]; unfold ret;
      rewrite !Nat.mul_0_r, !Nat.add_0_r; reflexivity.
  - destruct fuel as [|fuel]; [lia|]. cbn [for_rows].
    rewrite decide_False by lia.
    replace (Z.of_nat (S n) - 1) with (Z.of_nat n) by lia.
    erewrite bind_ok by (apply for_in_whole_row; nia).
    replace (Z.of_nat n + -1) with (Z.of_nat n - 1) by lia.
    assert (Hfront : length (take (4 * w * n) rgba) = (4 * w * n)%nat)
      by (rewrite length_take; nia).
    rewrite IH.
    + rewrite drop_app_length' by (symmetry; exact Hfront).
      cbn [TGA_rows]. rewrite reverse_cons, concat_app. cbn [concat].
      rewrite app_nil_r, !drop_drop, !fmap_app, <- !(assoc_L (++)).
      replace (4 * w * n + 4 * w)%nat with (4 * w * S n)%nat by nia.
      replace (pixels + TGA_pixel_size bpp * w
               + TGA_pixel_size bpp * w * n)%nat
        with (pixels + TGA_pixel_size bpp * w * S n)%nat by nia.
      reflexivity.
    + lia.
    + nia.
    + rewrite !length_app, Hfront. nia.
Qed.

Lemma uchar_range (b : Byte.byte) : 0 ≤ uchar b < 256.
Proof.
  unfold uchar. pose proof (Byte.to_N_bounded b) as Hb. lia.
Qed.

Lemma TGA_field_range (tga_buf : list Byte.byte) (offset : nat) :
  0 ≤ TGA_field tga_buf offset < 256.
Proof.
  unfold TGA_field. destruct (tga_buf !! offset) as [b|]; cbn [from_option].
  - apply uchar_range.
  - lia.
Qed.

Lemma TGA_ushort_range (tga_buf : list Byte.byte) (offset : nat) :
  0 ≤ TGA_ushort tga_buf offset < 65536.
Proof.
  unfold TGA_ushort.
  pose proof (TGA_field_range tga_buf offset).
  pose proof (TGA_field_range tga_buf (S offset)). lia.
Qed.

(** A read of a header field of a buffer that has a header. *)
Lemma deref_TGA_field (tga_buf : list Byte.byte) (offset : nat) s :
  (offset < length tga_buf)%nat →
  ∃ b, deref tga_buf (Z.of_nat offset) s = Ok (b, s)
       ∧ uchar b = TGA_field tga_buf offset.
Proof.
  intros Hlen. destruct (lookup_lt_is_Some_2 tga_buf offset Hlen) as [b Hb].
  exists b. split; [by apply deref_nat|].
  unfold TGA_field. by rewrite Hb.
Qed.

Lemma read_ushort_TGA (tga_buf : list Byte.byte) (offset : nat) s :
  host_little_endian plat = true →
  (S offset < length tga_buf)%nat →
  read_ushort tga_buf (Z.of_nat offset) s
  = Ok (TGA_ushort tga_buf offset, s).
Proof.
  intros Hhost Hlen. unfold read_ushort, TGA_ushort.
  destruct (deref_TGA_field tga_buf offset s) as (b0 & Hr0 & <-); [lia|].
  destruct (deref_TGA_field tga_buf (S offset) s) as (b1 & Hr1 & <-); [lia|].
  replace (Z.of_nat offset + 1) with (Z.of_nat (S offset)) by lia.
  erewrite bind_ok by exact Hr0. erewrite bind_ok by exact Hr1.
  by rewrite Hhost.
Qed.

(** The reads of the header of a buffer that has one: the three checks
    pass, then id_len, width and height are read. *)
Ltac TGA_read_field tga_buf s offset :=
  let b := fresh "b" in
  let Hr := fresh "Hr" in
  let Hb := fresh "Hb" in
  destruct (deref_TGA_field tga_buf offset s) as (b & Hr & Hb); [lia|];
  erewrite bind_ok by exact Hr; clear Hr; rewrite Hb; clear b Hb.

Ltac TGA_read_header tga_buf s Hhost :=
  unfold CreateTextureFromTGAMemory, int_bytes; rewrite Hhost;
  rewrite decide_False by (vm_compute; discriminate);
  TGA_read_field tga_buf s 1%nat; rewrite decide_False by lia;
  TGA_read_field tga_buf s 2%nat; rewrite decide_False by lia;
  TGA_read_field tga_buf s 16%nat; rewrite decide_False by lia;
  TGA_read_field tga_buf s 0%nat;
  erewrite bind_ok by (apply (read_ushort_TGA tga_buf 12); [done|lia]);
  erewrite bind_ok by (apply (read_ushort_TGA tga_buf 14); [done|lia]).

(** The decoder on a well-formed buffer: a header it accepts, a size that
    fits [int], and all the pixel data the header announces. *)
Lemma CreateTextureFromTGAMemory_runs fuel tga_buf s :
  host_little_endian plat = true →
  TGA_accepted tga_buf →
  TGA_ushort tga_buf 12 * TGA_ushort tga_buf 14 * 4 ≤ INT_MAX →
  (0 < TGA_ushort tga_buf 12 * TGA_ushort tga_buf 14 →
   18 + TGA_field tga_buf 0 + TGA_data_size tga_buf
   ≤ Z.of_nat (length tga_buf)) →
  (Z.to_nat (TGA_ushort tga_buf 14) ≤ fuel)%nat →
  CreateTextureFromTGAMemory fuel tga_buf s
  = Ok (drv_gen_texture drv s,
        replay (CreateTexture_calls (drv_gen_texture drv s)
                  (Some <$> TGA_image (TGA_field tga_buf 16)
                              (Z.to_nat (TGA_ushort tga_buf 12))
                              (Z.to_nat (TGA_ushort tga_buf 14))
                              (bool_decide
                                 (Z.land (TGA_field tga_buf 17) 32 ≠ 0))
                              (TGA_pixels tga_buf))
                  (TGA_ushort tga_buf 12) (TGA_ushort tga_buf 14)) s).
Proof.
  intros Hhost (Hlen & Hcmt & Htype & Hbpp) Hsize Hdata Hfuel.
  unfold TGA_data_size, TGA_pixels, TGA_image in *.
  pose proof (TGA_ushort_range tga_buf 12) as HW.
  pose proof (TGA_ushort_range tga_buf 14) as HH.
  pose proof (TGA_field_range tga_buf 0) as Hid.
  TGA_read_header tga_buf s Hhost.
  unfold int_mul.
  rewrite decide_True by (unfold INT_MIN, INT_MAX in *; nia).
  unfold bind at 1, ret at 1.
  rewrite decide_True by (unfold INT_MIN, INT_MAX in *; nia).
  unfold bind at 1, ret at 1.
  TGA_read_field tga_buf s 17%nat.
  revert HW HH Hsize Hdata Hfuel.
  generalize (TGA_ushort tga_buf 12) (TGA_ushort tga_buf 14).
  intros W H HW HH Hsize Hdata Hfuel.
  destruct (Z_of_nat_complete W) as [w ->]; [lia|].
  destruct (Z_of_nat_complete H) as [h ->]; [lia|].
  rewrite !Nat2Z.id in *.
  replace (18 + TGA_field tga_buf 0)
    with (Z.of_nat (18 + Z.to_nat (TGA_field tga_buf 0))) by lia.
  set (rgba := replicate (Z.to_nat (Z.of_nat w * Z.of_nat h * 4)) None).
  assert (Hrgba : length rgba = (4 * w * h)%nat).
  { unfold rgba. rewrite length_replicate. lia. }
  destruct (bool_decide (Z.land (TGA_field tga_buf 17) 32 ≠ 0)).
  - erewrite bind_ok by (apply (for_rows_down tga_buf _ w h); nia).
    cbn [snd]. rewrite (drop_ge rgba), app_nil_r by lia.
    apply CreateTexture_runs.
  - erewrite bind_ok
      by (apply (for_rows_up tga_buf _ w h h _ 0%nat); nia).
    cbn [snd]. rewrite (drop_ge rgba), app_nil_r by lia.
    rewrite Nat.mul_0_r, take_0.
    apply CreateTexture_runs.
Qed.

(** *** What the decoder reads *)

Lemma reads_only_ret {A} (a : A) s (Q : A → Prop) :
  Q a → reads_only (ret a) s Q.
Proof. by split. Qed.

Lemma reads_only_bind {A B} (m : GL A) (k : A → GL B) s
    (Q : A → Prop) (R : B → Prop) :
  reads_only m s Q → (∀ a, Q a → reads_only (k a) s R) →
  reads_only (bind m k) s R.
Proof.
  unfold reads_only, bind. destruct (m s) as [[a s']| |]; [|done..].
  intros [-> Ha] Hk. by apply Hk.
Qed.

Lemma reads_only_weaken {A} (m : GL A) s (Q R : A → Prop) :
  reads_only m s Q → (∀ a, Q a → R a) → reads_only m s R.
Proof.
  unfold reads_only. destruct (m s) as [[a s']| |]; [|done..].
  intros [-> Ha] HQR. split; [done|by apply HQR].
Qed.

Lemma reads_only_deref (mem : list Byte.byte) (p : Z) s :
  reads_only (deref mem p) s (λ _, 0 ≤ p < Z.of_nat (length mem)).
Proof.
  unfold reads_only, deref.
  destruct (decide (0 ≤ p)) as [Hp|Hp]; [|done].
  destruct (mem !! Z.to_nat p) as [b|] eqn:Hb; [|done].
  apply lookup_lt_Some in Hb. split; [done|lia].
Qed.

Lemma reads_only_store (a : list (option Byte.byte)) i v s :
  reads_only (store a i v) s (λ _, True).
Proof.
  unfold reads_only, store.
  by destruct (decide (0 ≤ i < Z.of_nat (length a))).
Qed.

(** A pixel is converted only if its bytes are in the buffer. *)
Lemma convert_pixel_reads tga_buf bpp p pixels rgba s :
  reads_only (convert_pixel tga_buf bpp p (pixels, rgba)) s
    (λ st, st.1 = pixels + Z.of_nat (TGA_pixel_size bpp)
           ∧ 0 ≤ pixels ∧ st.1 ≤ Z.of_nat (length tga_buf)).
Proof.
  unfold convert_pixel, TGA_pixel_size. cbn [fst snd].
  eapply reads_only_bind; [apply reads_only_deref|]. intros b Hb.
  eapply reads_only_bind; [apply reads_only_store|]. intros rgba1 _.
  eapply reads_only_bind; [apply reads_only_deref|]. intros g Hg.
  eapply reads_only_bind; [apply reads_only_store|]. intros rgba2 _.
  eapply reads_only_bind; [apply reads_only_deref|]. intros r Hr.
  eapply reads_only_bind; [apply reads_only_store|]. intros rgba3 _.
  destruct (decide (bpp = 32)).
  - eapply reads_only_bind; [apply reads_only_deref|]. intros a Ha.
    eapply reads_only_bind; [apply reads_only_store|]. intros rgba4 _.
    apply reads_only_ret. cbn [fst]. cbv beta in *. lia.
  - eapply reads_only_bind; [apply reads_only_store|]. intros rgba4 _.
    apply reads_only_ret. cbn [fst]. cbv beta in *. lia.
Qed.

(** A row of [n] pixels is converted only if its bytes are in the buffer. *)
Lemma for_in_reads tga_buf bpp (base : Z → Z) (n : nat) :
  ∀ x0 pixels rgba s,
  reads_only (for_in (seqZ x0 (Z.of_nat n))
                (λ x st, convert_pixel tga_buf bpp (base x) st)
                (pixels, rgba)) s
    (λ st, st.1 = pixels + Z.of_nat (TGA_pixel_size bpp * n)
           ∧ ((0 < n)%nat →
              0 ≤ pixels ∧ st.1 ≤ Z.of_nat (length tga_buf))).
Proof.
  induction n as [|n IH]; intros x0 pixels rgba s.
  - apply reads_only_ret. cbn [fst]. lia.
  - rewrite seqZ_cons by lia. cbn [for_in].
    replace (Z.pred (Z.of_nat (S n))) with (Z.of_nat n) by lia.
    eapply reads_only_bind; [apply convert_pixel_reads|].
    intros [pixels1 rgba1] (Hp & Hpos & Hlen). cbn [fst] in *.
    eapply reads_only_weaken; [apply IH|].
    intros st [Hst Hbound]. destruct n; lia.
Qed.

(** [k] rows of [w] pixels are converted only if their bytes are in the
    buffer. *)
Lemma for_rows_reads tga_buf bpp (w : nat) (y_direction : Z)
    (base : Z → Z → Z) (k : nat) :
  y_direction ≠ 0 →
  ∀ fuel y pixels rgba s,
  (k ≤ fuel)%nat →
  reads_only (for_rows fuel y (y + Z.of_nat k * y_direction) y_direction
                (λ y st, for_in (seqZ 0 (Z.of_nat w))
                           (λ x st, convert_pixel tga_buf bpp (base y x) st)
                           st)
                (pixels, rgba)) s
    (λ st, st.1 = pixels + Z.of_nat (TGA_pixel_size bpp * w * k)
           ∧ ((0 < k)%nat → (0 < w)%nat →
              st.1 ≤ Z.of_nat (length tga_buf))).
Proof.
  intros Hdir.
  induction k as [|k IH]; intros fuel y pixels rgba s Hfuel.
  - destruct fuel; cbn [for_rows]; rewrite decide_True by lia;
      apply reads_only_ret; cbn [fst]; lia.
  - destruct fuel as [|fuel]; [lia|]. cbn [for_rows].
    rewrite decide_False by nia.
    eapply reads_only_bind; [apply (for_in_reads _ _ (base y))|].
    intros [pixels1 rgba1] [Hp Hrow]. cbn [fst] in *.
    replace (y + Z.of_nat (S k) * y_direction)
      with (y + y_direction + Z.of_nat k * y_direction) by lia.
    eapply reads_only_weaken; [apply IH; lia|].
    intros st [Hst Hbound]. split; [nia|].
    intros _ Hw. destruct k as [|k].
    + specialize (Hrow Hw). nia.
    + assert (st.1 ≤ Z.of_nat (length tga_buf)) by (apply Hbound; lia). lia.
Qed.

(** *** What the image depends on *)

Lemma RGBA_of_BGRA_take bpp (m : nat) data :
  (TGA_pixel_size bpp ≤ m)%nat →
  RGBA_of_BGRA bpp (take m data) = RGBA_of_BGRA bpp data.
Proof.
  unfold RGBA_of_BGRA, TGA_pixel_size. intros Hm.
  destruct (decide (bpp = 32)); rewrite !lookup_take_lt by lia; reflexivity.
Qed.

Lemma TGA_row_take bpp (w : nat) : ∀ (m : nat) data,
  (TGA_pixel_size bpp * w ≤ m)%nat →
  TGA_row bpp w (take m data) = TGA_row bpp w data.
Proof.
  induction w as [|w IH]; intros m data Hm; [reflexivity|].
  cbn [TGA_row]. rewrite RGBA_of_BGRA_take by lia.
  rewrite skipn_firstn_comm, IH by lia. reflexivity.
Qed.

Lemma TGA_rows_take bpp (w h : nat) : ∀ (m : nat) data,
  (TGA_pixel_size bpp * w * h ≤ m)%nat →
  TGA_rows bpp w h (take m data) = TGA_rows bpp w h data.
Proof.
  induction h as [|h IH]; intros m data Hm; [reflexivity|].
  cbn [TGA_rows]. rewrite TGA_row_take by nia.
  rewrite skipn_firstn_comm, IH by nia. reflexivity.
Qed.

Lemma TGA_image_take bpp (w h : nat) flipped (m : nat) data :
  (TGA_pixel_size bpp * w * h ≤ m)%nat →
  TGA_image bpp w h flipped (take m data) = TGA_image bpp w h flipped data.
Proof.
  intros Hm. unfold TGA_image. by rewrite TGA_rows_take.
Qed.

Lemma length_concat_rows bpp (w h : nat) : ∀ data,
  length (concat (TGA_rows bpp w h data)) = (4 * w * h)%nat
  ∧ length (concat (reverse (TGA_rows bpp w h data))) = (4 * w * h)%nat.
Proof.
  induction h as [|h IH]; intros data;
    [split; simpl; lia|].
  cbn [TGA_rows].
  destruct (IH (drop (TGA_pixel_size bpp * w) data)) as [Hup Hdown].
  split.
  - cbn [concat]. rewrite length_app, length_TGA_row, Hup. nia.
  - rewrite reverse_cons, concat_app, length_app, Hdown. cbn [concat].
    rewrite app_nil_r, length_TGA_row. nia.
Qed.

Lemma length_TGA_image bpp (w h : nat) flipped data :
  length (TGA_image bpp w h flipped data) = (4 * w * h)%nat.
Proof.
  unfold TGA_image. destruct flipped; apply length_concat_rows.
Qed.

Lemma TGA_ushort_agree (a b : list Byte.byte) (offset : nat) :
  TGA_field a offset = TGA_field b offset →
  TGA_field a (S offset) = TGA_field b (S offset) →
  TGA_ushort a offset = TGA_ushort b offset.
Proof. unfold TGA_ushort. by intros -> ->. Qed.

(** X1. On a little-endian host, for a buffer of any size whose header the
    decoder accepts, whose size fits [int] and that holds all the pixel
    data its header announces, CreateTextureFromTGAMemory returns the
    texture name the driver gave and has uploaded the image of the file:
    width × height pixels of four bytes R, G, B, A, every byte written,
    the rows in the order of the file, or in the reverse order when the
    flip bit is set. *)
Theorem CreateTextureFromTGAMemory_decodes_any_size fuel tga_buf s :
  host_little_endian plat = true →
  TGA_accepted tga_buf →
  TGA_ushort tga_buf 12 * TGA_ushort tga_buf 14 * 4 ≤ INT_MAX →
  18 + TGA_field tga_buf 0 + TGA_data_size tga_buf
    ≤ Z.of_nat (length tga_buf) →
  (Z.to_nat (TGA_ushort tga_buf 14) ≤ fuel)%nat →
  ∃ image,
    image = TGA_image (TGA_field tga_buf 16)
              (Z.to_nat (TGA_ushort tga_buf 12))
              (Z.to_nat (TGA_ushort tga_buf 14))
              (bool_decide (Z.land (TGA_field tga_buf 17) 32 ≠ 0))
              (TGA_pixels tga_buf)
    ∧ Z.of_nat (length image)
      = TGA_ushort tga_buf 12 * TGA_ushort tga_buf 14 * 4
    ∧ CreateTextureFromTGAMemory fuel tga_buf s
      = Ok (drv_gen_texture drv s,
            replay (CreateTexture_calls (drv_gen_texture drv s)
                      (Some <$> image)
                      (TGA_ushort tga_buf 12) (TGA_ushort tga_buf 14)) s).
Proof.
  intros Hhost Hacc Hsize Hdata Hfuel. eexists. split; [reflexivity|].
  pose proof (TGA_ushort_range tga_buf 12).
  pose proof (TGA_ushort_range tga_buf 14).
  split; [rewrite length_TGA_image; lia|].
  apply CreateTextureFromTGAMemory_runs;
    [exact Hhost|exact Hacc|exact Hsize|intros _; exact Hdata|exact Hfuel].
Qed.

(** X2. The decoder has no length to check: on a buffer whose header it
    accepts but that is shorter than the header announces (a non-empty
    image with less pixel data than width × height pixels take), it reads
    past the end of the buffer, which is undefined behaviour. *)
Theorem CreateTextureFromTGAMemory_reads_past_truncated_buffer
    fuel tga_buf s :
  host_little_endian plat = true →
  TGA_accepted tga_buf →
  0 < TGA_ushort tga_buf 12 → 0 < TGA_ushort tga_buf 14 →
  Z.of_nat (length tga_buf)
    < 18 + TGA_field tga_buf 0 + TGA_data_size tga_buf →
  (Z.to_nat (TGA_ushort tga_buf 14) ≤ fuel)%nat →
  CreateTextureFromTGAMemory fuel tga_buf s = Undefined.
Proof.
  intros Hhost (Hlen & Hcmt & Htype & Hbpp) HW0 HH0 Hshort Hfuel.
  unfold TGA_data_size in *.
  pose proof (TGA_ushort_range tga_buf 12) as HW.
  pose proof (TGA_ushort_range tga_buf 14) as HH.
  pose proof (TGA_field_range tga_buf 0) as Hid.
  TGA_read_header tga_buf s Hhost.
  unfold int_mul.
  destruct (decide (INT_MIN ≤ TGA_ushort tga_buf 12 * TGA_ushort tga_buf 14
                    ≤ INT_MAX)); [|reflexivity].
  unfold bind at 1, ret at 1.
  destruct (decide (INT_MIN ≤ TGA_ushort tga_buf 12 * TGA_ushort tga_buf 14
                    * 4 ≤ INT_MAX)); [|reflexivity].
  unfold bind at 1, ret at 1.
  TGA_read_field tga_buf s 17%nat.
  revert HW HH HW0 HH0 Hshort Hfuel.
  generalize (TGA_ushort tga_buf 12) (TGA_ushort tga_buf 14).
  intros W H HW HH HW0 HH0 Hshort Hfuel.
  destruct (Z_of_nat_complete W) as [w ->]; [lia|].
  destruct (Z_of_nat_complete H) as [h ->]; [lia|].
  rewrite !Nat2Z.id in *.
  match goal with
  | |- bind (for_rows _ ?start_y ?end_y ?dir _ (?pixels, ?rgba)) _ _ = _ =>
      pose proof (for_rows_reads tga_buf (TGA_field tga_buf 16) w dir
                    (λ y x, (y * Z.of_nat w + x) * 4) h
                    ltac:(destruct (bool_decide _); lia)
                    fuel start_y pixels rgba s Hfuel) as Hreads;
      replace (start_y + Z.of_nat h * dir) with end_y in Hreads
        by (destruct (bool_decide _); lia)
  end.
  unfold reads_only in Hreads. unfold bind at 1.
  match type of Hreads with
  | match ?run with _ => _ end => destruct run as [[st s']| |]
  end; [|reflexivity|done].
  exfalso. destruct Hreads as (_ & Hst & Hbound). nia.
Qed.

(** X3. An image of more than INT_MAX / 4 pixels makes the computation of
    the size of the RGBA buffer overflow [int], which is undefined
    behaviour: the decoder does not bound width × height. *)
Theorem CreateTextureFromTGAMemory_size_overflows fuel tga_buf s :
  host_little_endian plat = true →
  TGA_accepted tga_buf →
  INT_MAX < TGA_ushort tga_buf 12 * TGA_ushort tga_buf 14 * 4 →
  CreateTextureFromTGAMemory fuel tga_buf s = Undefined.
Proof.
  intros Hhost (Hlen & Hcmt & Htype & Hbpp) Hbig.
  TGA_read_header tga_buf s Hhost.
  unfold int_mul.
  destruct (decide (INT_MIN ≤ TGA_ushort tga_buf 12 * TGA_ushort tga_buf 14
                    ≤ INT_MAX)); [|reflexivity].
  unfold bind at 1, ret at 1.
  rewrite decide_False by lia. reflexivity.
Qed.

(** X4. An image with no pixel (width 0 or height 0) is not rejected: a
    texture is created all the same, with an empty upload, and nothing
    after the header is read. *)
Theorem CreateTextureFromTGAMemory_accepts_empty_image fuel tga_buf s :
  host_little_endian plat = true →
  TGA_accepted tga_buf →
  TGA_ushort tga_buf 12 = 0 ∨ TGA_ushort tga_buf 14 = 0 →
  (Z.to_nat (TGA_ushort tga_buf 14) ≤ fuel)%nat →
  CreateTextureFromTGAMemory fuel tga_buf s
  = Ok (drv_gen_texture drv s,
        replay (CreateTexture_calls (drv_gen_texture drv s) []
                  (TGA_ushort tga_buf 12) (TGA_ushort tga_buf 14)) s)
  ∧ drv_gen_texture drv s
    ∈ gl_textures (replay (CreateTexture_calls (drv_gen_texture drv s) []
                             (TGA_ushort tga_buf 12)
                             (TGA_ushort tga_buf 14)) s).
Proof.
  intros Hhost Hacc Hempty Hfuel.
  pose proof (TGA_ushort_range tga_buf 12).
  pose proof (TGA_ushort_range tga_buf 14).
  split.
  - rewrite CreateTextureFromTGAMemory_runs;
      [|exact Hhost|exact Hacc| | |exact Hfuel].
    + pose proof (length_TGA_image (TGA_field tga_buf 16)
                    (Z.to_nat (TGA_ushort tga_buf 12))
                    (Z.to_nat (TGA_ushort tga_buf 14))
                    (bool_decide (Z.land (TGA_field tga_buf 17) 32 ≠ 0))
                    (TGA_pixels tga_buf)) as Hlen.
      destruct (TGA_image _ _ _ _ _); [reflexivity|].
      cbn [length] in Hlen. nia.
    + unfold INT_MAX. nia.
    + nia.
  - cbn [CreateTexture_calls replay foldl]. unfold step.
    cbn [gl_effect log set_textures gl_textures]. set_solver.
Qed.

(** X5. The decoder looks at nothing but id_len, color_map_type,
    image_type, width, height, bpp, the flip bit and the pixel data the
    header announces: two buffers that agree on these give the same
    result, whatever their color map data, their origin, the other bits of
    their descriptor, their image id and the bytes after their pixel
    data. *)
Theorem CreateTextureFromTGAMemory_depends_on fuel a b s :
  host_little_endian plat = true →
  TGA_accepted a →
  TGA_ushort a 12 * TGA_ushort a 14 * 4 ≤ INT_MAX →
  18 + TGA_field a 0 + TGA_data_size a ≤ Z.of_nat (length a) →
  18 + TGA_field a 0 + TGA_data_size a ≤ Z.of_nat (length b) →
  (Z.to_nat (TGA_ushort a 14) ≤ fuel)%nat →
  TGA_agree a b →
  CreateTextureFromTGAMemory fuel a s = CreateTextureFromTGAMemory fuel b s.
Proof.
  intros Hhost Hacc Hsize Hdata Hdatab Hfuel (Hfields & Hflip & Hpixels).
  assert (H0 := Hfields 0%nat ltac:(set_solver)).
  assert (H1 := Hfields 1%nat ltac:(set_solver)).
  assert (H2 := Hfields 2%nat ltac:(set_solver)).
  assert (H16 := Hfields 16%nat ltac:(set_solver)).
  assert (HW : TGA_ushort a 12 = TGA_ushort b 12)
    by (apply TGA_ushort_agree; apply Hfields; set_solver).
  assert (HH : TGA_ushort a 14 = TGA_ushort b 14)
    by (apply TGA_ushort_agree; apply Hfields; set_solver).
  assert (Hsame : TGA_data_size a = TGA_data_size b)
    by (unfold TGA_data_size; by rewrite HW, HH, H16).
  pose proof (TGA_ushort_range a 12).
  pose proof (TGA_ushort_range a 14).
  pose proof (TGA_field_range a 0).
  assert (Haccb : TGA_accepted b).
  { destruct Hacc as (Hlen & Hcmt & Htype & Hbpp).
    unfold TGA_accepted. rewrite <- H1, <- H2, <- H16.
    split; [|by repeat split]. unfold TGA_data_size in *. nia. }
  rewrite (CreateTextureFromTGAMemory_runs fuel a);
    [|exact Hhost|exact Hacc|exact Hsize|intros _; exact Hdata|exact Hfuel].
  rewrite (CreateTextureFromTGAMemory_runs fuel b);
    [|exact Hhost|exact Haccb|lia|intros _; lia|lia].
  rewrite <- HW, <- HH, <- H16, <- Hflip.
  rewrite <- (TGA_image_take _ _ _ _ (Z.to_nat (TGA_data_size a))
                (TGA_pixels a)) by (unfold TGA_data_size; nia).
  rewrite <- (TGA_image_take _ _ _ _ (Z.to_nat (TGA_data_size a))
                (TGA_pixels b)) by (unfold TGA_data_size; nia).
  by rewrite Hpixels.
Qed.


(** ** A successful link *)

Lemma gl_current_program_set_current p s :
  gl_current_program (set_current_program p s) = p.
Proof. reflexivity. Qed.

Lemma gl_programs_set_current p s :
  gl_programs (set_current_program p s) = gl_programs s.
Proof. reflexivity. Qed.

Lemma gl_shaders_set_current p s :
  gl_shaders (set_current_program p s) = gl_shaders s.
Proof. reflexivity. Qed.

Lemma gl_current_program_log c s :
  gl_current_program (log c s) = gl_current_program s.
Proof. reflexivity. Qed.

Lemma gl_programs_log c s : gl_programs (log c s) = gl_programs s.
Proof. reflexivity. Qed.

Lemma gl_shaders_log c s : gl_shaders (log c s) = gl_shaders s.
Proof. reflexivity. Qed.

(** glUseProgram of a linked program that is not current: it becomes
    current, it stays as it is, and so does every shader that is not
    flagged for deletion. *)
Lemma use_program_linked (p : Z) (o : ProgramObj) (s : GLState) :
  gl_programs s !! p = Some o → pr_link_status o = true →
  p ≠ gl_current_program s →
  gl_current_program (step s (UseProgram p)) = p
  ∧ gl_programs (step s (UseProgram p)) !! p = Some o
  ∧ (∀ sh so,
       gl_shaders s !! sh = Some so → sh_delete_status so = false →
       gl_shaders (step s (UseProgram p)) !! sh = Some so).
Proof.
  intros Hp Hlinked Hcur. unfold step. cbn [gl_effect]. unfold use_program.
  rewrite decide_True by (right; rewrite Hp; cbn [fmap option_fmap option_map];
                          by rewrite Hlinked).
  cbv zeta. rewrite decide_False by congruence.
  rewrite gl_current_program_log, gl_programs_log, gl_shaders_log.
  destruct (gl_programs s !! gl_current_program s) as [old|] eqn:Hold;
    [destruct (pr_delete_status old)|]; try (split; [|split]; done).
  unfold remove_program.
  rewrite ?gl_current_program_set_shaders, ?gl_current_program_set_programs,
    ?gl_programs_set_shaders, ?gl_programs_set_programs,
    ?gl_shaders_set_shaders, ?gl_shaders_set_programs,
    ?gl_current_program_set_current, ?gl_programs_set_current,
    ?gl_shaders_set_current.
  split; [reflexivity|]. split.
  - rewrite lookup_delete_ne by congruence. exact Hp.
  - intros sh so Hsh Hflag. apply map_lookup_filter_Some. split; [exact Hsh|].
    intros (Hdel & _). cbn [snd] in Hdel. congruence.
Qed.

Lemma Shader_Initialize_runs (this : Shader) (s : GLState) :
  ∃ shader,
    Shader_Initialize this s
    = Ok (shader, logged (Shader_Initialize_calls shader) s)
    ∧ program_ shader = program_ this
    ∧ vs_ shader = vs_ this ∧ ps_ shader = ps_ this.
Proof.
  set (s1 := step s (GetUniformLocation (program_ this)
                       "model_view_projection")).
  set (s2 := step s1 (GetUniformLocation (program_ this) "color")).
  exists {| program_ := program_ this; vs_ := vs_ this; ps_ := ps_ this;
            uniform_model_view_projection_ :=
              drv_uniform_location drv s (program_ this)
                                   "model_view_projection";
            uniform_color_ :=
              drv_uniform_location drv s1 (program_ this) "color";
            uniform_texture_unit_0 :=
              drv_uniform_location drv s2 (program_ this)
                                   "texture_unit_0" |}.
  split; [|done].
  unfold Shader_Initialize, Shader_Initialize_calls, glGetUniformLocation,
    glUniform1i, call, bind, ret.
  cbn [program_ uniform_texture_unit_0]. fold s1. fold s2.
  destruct (decide (0 ≤ drv_uniform_location drv s2 (program_ this)
                          "texture_unit_0"));
    unfold s2, s1, step; cbn [gl_effect]; autorewrite with gl; reflexivity.
Qed.

Lemma CompileAndLinkShader_links this vs_source ps_source s :
  fresh_object_names drv →
  (drv_compile drv GL_VERTEX_SHADER (platform_preamble +:+ vs_source)).1
  = true →
  (drv_compile drv GL_FRAGMENT_SHADER (platform_preamble +:+ ps_source)).1
  = true →
  (drv_link drv {[platform_preamble +:+ vs_source]}
                {[platform_preamble +:+ ps_source]}).1 = true →
  ∃ program vs ps shader,
    CompileAndLinkShader this vs_source ps_source s
    = Ok ((Some shader, this),
          step
            (logged
               (build_calls program vs ps (platform_preamble +:+ vs_source)
                            (platform_preamble +:+ ps_source)
                ++ Shader_Initialize_calls shader)
               (set_programs
                  (<[program :=
                       linked_program vs ps
                         (drv_link drv {[platform_preamble +:+ vs_source]}
                            {[platform_preamble +:+ ps_source]}).2]>
                     (gl_programs s))
                  (set_shaders
                     (<[ps := compiled_stage GL_FRAGMENT_SHADER
                                (platform_preamble +:+ ps_source)
                                (drv_compile drv GL_FRAGMENT_SHADER
                                   (platform_preamble +:+ ps_source)).2]>
                        (<[vs := compiled_stage GL_VERTEX_SHADER
                                   (platform_preamble +:+ vs_source)
                                   (drv_compile drv GL_VERTEX_SHADER
                                      (platform_preamble +:+ vs_source)).2]>
                           (gl_shaders s)))
                     s)))
            (UseProgram program))
    ∧ program_ shader = program ∧ vs_ shader = vs ∧ ps_ shader = ps
    ∧ program ≠ 0 ∧ vs ≠ 0 ∧ ps ≠ 0
    ∧ program ≠ vs ∧ program ≠ ps ∧ vs ≠ ps
    ∧ program ≠ gl_current_program s
    ∧ gl_programs s !! program = None
    ∧ gl_shaders s !! vs = None ∧ gl_shaders s !! ps = None.
Proof.
  intros Hfresh Hvok Hpok Hok.
  destruct (fresh_object s Hfresh) as (Hnz & Hcur & Hsh & Hpr & Hatt).
  pose proof (fresh_object (step s (CreateProgram (drv_gen_object drv s)))
                Hfresh) as (Hnz1 & Hcur1 & Hsh1 & Hpr1 & Hatt1).
  remember (CompileAndLinkShader this vs_source ps_source s)
    as r eqn:Hrun.
  symmetry in Hrun.
  unfold CompileAndLinkShader in Hrun. unfold bind at 1 in Hrun.
  unfold glCreateProgram at 1 in Hrun. cbv beta iota zeta in Hrun.
  erewrite bind_ok in Hrun; cycle 1.
  { eapply CompileShader_succeeds; [exact Hfresh| |exact Hvok].
    unfold step. cbn [gl_effect]. autorewrite with gl. apply lookup_insert_eq. }
  cbv beta iota zeta in Hrun.
  rewrite decide_True in Hrun by exact Hnz1.
  revert Hnz1 Hcur1 Hsh1 Hpr1 Hatt1 Hrun.
  generalize
    (drv_gen_object drv (step s (CreateProgram (drv_gen_object drv s)))).
  intros vs Hnz1 Hcur1 Hsh1 Hpr1 Hatt1 Hrun.
  unfold step in Hcur1, Hsh1, Hpr1, Hatt1, Hrun.
  cbn [gl_effect] in *. autorewrite with gl in *.
  rewrite insert_insert_eq in Hrun.
  match type of Hrun with
  | (let* _ := CompileShader _ _ _ _ in _) ?s2 = _ =>
      pose proof (fresh_object s2 Hfresh)
        as (Hnz2 & Hcur2 & Hsh2 & Hpr2 & Hatt2)
  end.
  erewrite bind_ok in Hrun; cycle 1.
  { eapply CompileShader_succeeds; [exact Hfresh| |exact Hpok].
    autorewrite with gl. apply lookup_insert_eq. }
  cbv beta iota zeta in Hrun.
  rewrite decide_True in Hrun by exact Hnz2.
  revert Hnz2 Hcur2 Hsh2 Hpr2 Hatt2 Hrun.
  match goal with
  | |- drv_gen_object drv ?s2 ≠ 0 → _ => generalize (drv_gen_object drv s2)
  end.
  intros ps Hnz2 Hcur2 Hsh2 Hpr2 Hatt2 Hrun.
  autorewrite with gl in *.
  rewrite insert_insert_eq in Hrun.
  cbn [pr_attached with_attached new_program] in *.
  assert (Hne : vs ≠ ps).
  { intros ->. by rewrite lookup_insert_eq in Hsh2. }
  rewrite lookup_insert_ne in Hsh2 by exact Hne.
  assert (Hpv : drv_gen_object drv s ≠ vs).
  { intros Heq. rewrite <- Heq in Hpr1. by rewrite lookup_insert_eq in Hpr1. }
  assert (Hpp : drv_gen_object drv s ≠ ps).
  { intros Heq. rewrite <- Heq in Hpr2. by rewrite lookup_insert_eq in Hpr2. }
  destruct (attached_sources_stages (gl_shaders s) vs ps
              (drv_compile drv GL_VERTEX_SHADER
                 (platform_preamble +:+ vs_source))
              (drv_compile drv GL_FRAGMENT_SHADER
                 (platform_preamble +:+ ps_source))
              (platform_preamble +:+ vs_source)
              (platform_preamble +:+ ps_source) Hne) as [Hvsrc Hpsrc].
  revert Hrun.
  unfold glBindAttribLocation, glLinkProgram, glGetProgramiv, call, step.
  unfold bind at 1 2 3 4 5 6.
  cbn [gl_effect]. autorewrite with gl.
  rewrite alter_insert_eq.
  cbn [pr_attached with_attached new_program].
  rewrite Hvsrc, Hpsrc, lookup_insert_eq.
  cbn [pr_link_status pr_info_log with_linked].
  rewrite Hok, decide_True by reflexivity.
  match goal with
  | |- bind (Shader_Initialize ?sh) _ ?st = _ → _ =>
      destruct (Shader_Initialize_runs sh st)
        as (shader & Hinit & Hprogram & Hvs & Hps)
  end.
  unfold bind at 1. rewrite Hinit.
  unfold glUseProgram, call, bind, ret, step. cbn [gl_effect].
  intros <-. cbn [program_ vs_ ps_ Shader_new] in Hprogram, Hvs, Hps.
  exists (drv_gen_object drv s), vs, ps, shader.
  split; [|done].
  autorewrite with gl.
  unfold build_calls, compile_calls, link_calls, linked_program,
    compiled_stage, with_linked, with_attached, with_compiled, with_source,
    new_shader, new_program.
  cbn [app pr_attached pr_link_status pr_info_log pr_delete_status
       sh_type sh_source sh_compile_status sh_info_log sh_delete_status].
  rewrite Hok, Hvok, Hpok. reflexivity.
Qed.

(** X6. When both stages compile and the program links, CompileAndLinkShader
    returns a Shader holding three new, distinct, non-zero names, and
    leaves [last_error_] as it was.  In the context it leaves, the program
    is the current one and is linked with exactly the two stages attached,
    and each stage is compiled from the platform preamble followed by the
    source it was given. *)
Theorem CompileAndLinkShader_success_leaves_program_current
    this vs_source ps_source s :
  fresh_object_names drv →
  (drv_compile drv GL_VERTEX_SHADER (platform_preamble +:+ vs_source)).1
  = true →
  (drv_compile drv GL_FRAGMENT_SHADER (platform_preamble +:+ ps_source)).1
  = true →
  (drv_link drv {[platform_preamble +:+ vs_source]}
                {[platform_preamble +:+ ps_source]}).1 = true →
  ∃ shader s',
    CompileAndLinkShader this vs_source ps_source s
    = Ok ((Some shader, this), s')
    ∧ program_ shader ≠ 0 ∧ vs_ shader ≠ 0 ∧ ps_ shader ≠ 0
    ∧ NoDup [program_ shader; vs_ shader; ps_ shader]
    ∧ gl_programs s !! program_ shader = None
    ∧ gl_shaders s !! vs_ shader = None
    ∧ gl_shaders s !! ps_ shader = None
    ∧ gl_current_program s' = program_ shader
    ∧ gl_programs s' !! program_ shader
      = Some (linked_program (vs_ shader) (ps_ shader)
                (drv_link drv {[platform_preamble +:+ vs_source]}
                              {[platform_preamble +:+ ps_source]}).2)
    ∧ gl_shaders s' !! vs_ shader
      = Some (compiled_stage GL_VERTEX_SHADER
                (platform_preamble +:+ vs_source)
                (drv_compile drv GL_VERTEX_SHADER
                   (platform_preamble +:+ vs_source)).2)
    ∧ gl_shaders s' !! ps_ shader
      = Some (compiled_stage GL_FRAGMENT_SHADER
                (platform_preamble +:+ ps_source)
                (drv_compile drv GL_FRAGMENT_SHADER
                   (platform_preamble +:+ ps_source)).2).
Proof.
  intros Hfresh Hvok Hpok Hok.
  destruct (CompileAndLinkShader_links this vs_source ps_source s
              Hfresh Hvok Hpok Hok)
    as (program & vs & ps & shader & Hrun & <- & <- & <- & Hnz & Hvnz & Hpnz
        & Hpv & Hpp & Hvp & Hcur & Hprog & Hvs & Hps).
  eexists shader, _. split; [exact Hrun|].
  match type of Hrun with
  | _ = Ok (_, step ?s1 (UseProgram _)) =>
      destruct (use_program_linked (program_ shader)
                  (linked_program (vs_ shader) (ps_ shader)
                     (drv_link drv {[platform_preamble +:+ vs_source]}
                                   {[platform_preamble +:+ ps_source]}).2) s1)
        as (Hcurrent & Hlinked & Hkept)
  end.
  { autorewrite with gl. apply lookup_insert_eq. }
  { reflexivity. }
  { autorewrite with gl. exact Hcur. }
  repeat split; try assumption.
  - repeat constructor; set_solver.
  - apply Hkept; [|reflexivity]. autorewrite with gl.
    rewrite lookup_insert_ne by congruence. apply lookup_insert_eq.
  - apply Hkept; [|reflexivity]. autorewrite with gl. apply lookup_insert_eq.
Qed.

(** X7. The calls of a successful CompileAndLinkShader, in order: the
    program is created; each stage is created, given its source, compiled,
    queried and attached, the vertex stage first; the four attribute names
    are bound to the slots 0 to 3 before the link; the link status is
    queried; Shader::Initialize looks up the three uniforms; and
    glUseProgram comes last.  So the glUniform1i of Initialize, when the
    program has the sampler, is issued while the program of the caller, not
    the new one, is current. *)
Theorem CompileAndLinkShader_success_calls this vs_source ps_source s :
  fresh_object_names drv →
  (drv_compile drv GL_VERTEX_SHADER (platform_preamble +:+ vs_source)).1
  = true →
  (drv_compile drv GL_FRAGMENT_SHADER (platform_preamble +:+ ps_source)).1
  = true →
  (drv_link drv {[platform_preamble +:+ vs_source]}
                {[platform_preamble +:+ ps_source]}).1 = true →
  ∃ shader s1,
    CompileAndLinkShader this vs_source ps_source s
    = Ok ((Some shader, this), step s1 (UseProgram (program_ shader)))
    ∧ gl_calls s1
      = gl_calls s
        ++ build_calls (program_ shader) (vs_ shader) (ps_ shader)
             (platform_preamble +:+ vs_source)
             (platform_preamble +:+ ps_source)
        ++ Shader_Initialize_calls shader
    ∧ gl_calls (step s1 (UseProgram (program_ shader)))
      = gl_calls s1 ++ [UseProgram (program_ shader)]
    ∧ gl_current_program s1 = gl_current_program s
    ∧ gl_current_program s ≠ program_ shader
    ∧ (0 ≤ uniform_texture_unit_0 shader →
       last (gl_calls s1)
       = Some (Uniform1i (uniform_texture_unit_0 shader) 0)).
Proof.
  intros Hfresh Hvok Hpok Hok.
  destruct (CompileAndLinkShader_links this vs_source ps_source s
              Hfresh Hvok Hpok Hok)
    as (program & vs & ps & shader & Hrun & <- & <- & <- & Hnz & Hvnz & Hpnz
        & Hpv & Hpp & Hvp & Hcur & Hprog & Hvs & Hps).
  eexists shader, _. split; [exact Hrun|].
  split; [reflexivity|]. split; [apply gl_calls_step|].
  split; [reflexivity|]. split; [congruence|].
  intros Htex. cbn [logged gl_calls]. unfold Shader_Initialize_calls.
  rewrite decide_True by exact Htex.
  rewrite !(assoc_L (++)). apply last_snoc.
Qed.

(** X8. When the source compiles, CompileShader returns the new, non-zero
    name of the stage and leaves [last_error_] as it was; the stage is
    compiled from the platform preamble followed by the source, and it is
    attached to the program it was given. *)
Theorem CompileShader_success_attaches_stage
    this stage program o source s :
  fresh_object_names drv →
  gl_programs s !! program = Some o →
  (drv_compile drv stage (platform_preamble +:+ source)).1 = true →
  ∃ sh s',
    CompileShader this stage program source s = Ok ((sh, this), s')
    ∧ sh ≠ 0
    ∧ gl_shaders s !! sh = None
    ∧ gl_shaders s' !! sh
      = Some (compiled_stage stage (platform_preamble +:+ source)
                (drv_compile drv stage (platform_preamble +:+ source)).2)
    ∧ gl_programs s' !! program
      = Some (with_attached ({[sh]} ∪ pr_attached o) o)
    ∧ sh ∈ attached_names (gl_programs s')
    ∧ gl_current_program s' = gl_current_program s.
Proof.
  intros Hfresh Hprog Hok.
  destruct (fresh_object s Hfresh) as (Hnz & Hcur & Hsh & Hpr & Hatt).
  eexists _, _. split; [by apply CompileShader_succeeds|].
  autorewrite with gl. rewrite !lookup_insert_eq.
  split; [exact Hnz|]. split; [exact Hsh|].
  split.
  { unfold compiled_stage, with_compiled, with_source, new_shader.
    cbn [sh_type sh_source sh_delete_status]. by rewrite Hok. }
  split; [reflexivity|]. split; [|reflexivity].
  apply elem_of_attached_names_insert. left.
  cbn [pr_attached with_attached]. set_solver.
Qed.

(** ** Drawing from client memory, and adding index ranges *)

Lemma gl_objects_vertex_calls (cs : list Call) (s : GLState) :
  forallb is_vertex_call cs = true →
  gl_objects (replay cs s) = gl_objects s.
Proof.
  revert s. induction cs as [|c cs IH]; intros s Hcs; [reflexivity|].
  cbn [forallb] in Hcs. apply andb_prop in Hcs as [Hc Hcs].
  rewrite replay_cons, IH by exact Hcs.
  destruct c; try discriminate Hc; reflexivity.
Qed.

Lemma is_vertex_call_Bind_calls fields stride buffer offset :
  forallb is_vertex_call (Bind_calls fields stride buffer offset) = true.
Proof.
  revert offset. induction fields as [|a fields IH]; intros offset.
  - reflexivity.
  - destruct a; cbn [Bind_calls field_layout forallb is_vertex_call andb];
      try reflexivity; apply IH.
Qed.

Lemma is_vertex_call_Unbind_calls fields :
  forallb is_vertex_call (Unbind_calls fields) = true.
Proof.
  induction fields as [|a fields IH].
  - reflexivity.
  - destruct a; cbn [Unbind_calls field_layout forallb is_vertex_call andb];
      try reflexivity; apply IH.
Qed.

(** X9. For a format terminated by End, RenderArray returns after exactly
    these calls: the attributes are bound with buffer 0 as the array
    buffer, so that their pointers are addresses in the memory of the
    caller, [vertices] plus the running offset; buffer 0 is bound as the
    element array buffer; the indices are drawn once, with the primitive and
    the count given; the attributes are unbound.  The enabled attribute
    arrays are those from before without the slots of the format, and no
    buffer, texture, shader or program is created, deleted or made
    current. *)
Theorem RenderArray_draws_once_from_client_memory
    fuel primitive index_count fields rest vertex_size vertices indices s :
  kEND ∉ fields → (length fields < fuel)%nat →
  ∃ s',
    RenderArray fuel primitive index_count (fields ++ kEND :: rest)
                vertex_size vertices indices s = Ok (tt, s')
    ∧ s' = replay (RenderArray_call_list primitive index_count fields
                     vertex_size vertices indices) s
    ∧ filter is_draw (RenderArray_call_list primitive index_count fields
                        vertex_size vertices indices)
      = [DrawElements primitive index_count GL_UNSIGNED_INT indices]
    ∧ gl_attrib_enabled s' = gl_attrib_enabled s ∖ format_slots fields
    ∧ gl_objects s' = gl_objects s.
Proof.
  intros Hend Hfuel. eexists. split; [|split; [reflexivity|]].
  - unfold RenderArray, bind.
    rewrite SetAttributes_returns by done.
    unfold glBindBuffer, glDrawElements, call.
    rewrite UnSetAttributes_returns by done.
    unfold RenderArray_call_list. by rewrite !replay_app.
  - unfold RenderArray_call_list. split; [|split].
    + rewrite !filter_app, filter_cons_False by auto.
      rewrite filter_is_draw_Bind_calls, filter_is_draw_Unbind_calls.
      reflexivity.
    + rewrite !replay_app, attrib_enabled_Unbind_calls, !replay_cons.
      change (replay [] ?x) with x.
      unfold step at 1 2. cbn [gl_effect log gl_attrib_enabled].
      rewrite attrib_enabled_Bind_calls.
      unfold step. cbn [gl_effect log gl_attrib_enabled]. set_solver.
    + apply gl_objects_vertex_calls.
      rewrite !forallb_app. cbn [forallb is_vertex_call andb].
      by rewrite is_vertex_call_Bind_calls, is_vertex_call_Unbind_calls.
Qed.

(** The size AddIndices passes to glBufferData is 4 × count, negative
    when count is, as long as that fits [GLsizeiptr]. *)
Lemma GLsizeiptr_of_count (count : Z) :
  0 < size_t_bits plat →
  - 2 ^ (size_t_bits plat - 1) ≤ 4 * count < 2 ^ (size_t_bits plat - 1) →
  GLsizeiptr_of_size_t plat
    (size_t_wrap plat (size_t_wrap plat count * sizeof_int))
  = 4 * count.
Proof.
  intros Hbits Hsize. unfold GLsizeiptr_of_size_t, size_t_wrap, sizeof_int.
  rewrite Zmult_mod_idemp_l, (Z.mul_comm count 4).
  assert (Hhalf : 2 ^ size_t_bits plat = 2 * 2 ^ (size_t_bits plat - 1)).
  { rewrite <- Z.pow_succ_r by lia. f_equal. lia. }
  destruct (Z.le_gt_cases 0 (4 * count)) as [Hpos|Hneg].
  - rewrite Z.mod_small by lia. rewrite decide_True by lia. reflexivity.
  - rewrite <- (Z_mod_plus_full (4 * count) 1 (2 ^ size_t_bits plat)).
    rewrite Z.mod_small by lia. rewrite decide_False by lia. lia.
Qed.

(** X10. AddIndices appends one index range, with the count and the
    material given and a buffer name that was not in use, after the ranges
    the mesh has, which it keeps together with its vertex buffer, its
    format and its vertex size; a mesh that owns its buffers still does.
    For a [count] that is an [int], with 4 × count in the range of
    [GLsizeiptr], the size passed to glBufferData is 4 × count.  The count
    is not checked: a negative one is stored in the range, and a negative
    size is passed. *)
Theorem AddIndices_appends_a_range others this index_data count mat s :
  fresh_buffer_names drv → Mesh_owns others this s →
  0 < size_t_bits plat → INT_MIN ≤ count ≤ INT_MAX →
  - 2 ^ (size_t_bits plat - 1) ≤ 4 * count < 2 ^ (size_t_bits plat - 1) →
  ∃ name this' s',
    AddIndices this index_data count mat s = Ok (this', s')
    ∧ indices_ this'
      = indices_ this ++ [{| count := count; ibo := name; mat := mat |}]
    ∧ vbo_ this' = vbo_ this ∧ format_ this' = format_ this
    ∧ vertex_size_ this' = vertex_size_ this
    ∧ name ≠ 0 ∧ (name ∉ gl_buffers s)
    ∧ gl_buffers s' = {[name]} ∪ gl_buffers s
    ∧ Mesh_owns others this' s'
    ∧ gl_calls s'
      = gl_calls s
        ++ [GenBuffers name; BindBuffer GL_ELEMENT_ARRAY_BUFFER name;
            BufferData GL_ELEMENT_ARRAY_BUFFER (4 * count) index_data
                       GL_STATIC_DRAW].
Proof.
  intros Hfresh Howns Hbits Hcount Hsize.
  destruct (AddIndices_owns others this index_data count mat s Hfresh Howns)
    as (this' & s' & Hrun & Howns' & _).
  rewrite AddIndices_runs in Hrun. injection Hrun as <- <-.
  destruct (Hfresh s) as [Hnz Hnew].
  eexists _, _, _. split; [apply AddIndices_runs|].
  cbn [indices_ vbo_ format_ vertex_size_].
  do 4 (split; [reflexivity|]).
  split; [exact Hnz|]. split; [exact Hnew|]. split; [reflexivity|].
  split; [exact Howns'|].
  rewrite gl_calls_replay. by rewrite GLsizeiptr_of_count.
Qed.

(** ** The window *)

Lemma sdl_calls_step s c : sdl_calls (sdl_step s c) = sdl_calls s ++ [c].
Proof.
  unfold sdl_step. destruct c; cbn [sdl_effect sdl_log sdl_calls];
    try reflexivity; by destruct (decide _).
Qed.

Lemma sdl_windows_step s c :
  sdl_windows (sdl_step s c)
  = match c with
    | CreateWindow _ _ _ _ _ _ window =>
        if decide (window = 0) then sdl_windows s
        else {[window]} ∪ sdl_windows s
    | DestroyWindow window => sdl_windows s ∖ {[window]}
    | _ => sdl_windows s
    end.
Proof.
  unfold sdl_step. destruct c; cbn [sdl_effect sdl_log sdl_windows];
    try reflexivity; by destruct (decide _).
Qed.

Lemma sdl_contexts_step s c :
  sdl_contexts (sdl_step s c)
  = match c with
    | GL_CreateContext _ context =>
        if decide (context = 0) then sdl_contexts s
        else {[context]} ∪ sdl_contexts s
    | GL_DeleteContext context => sdl_contexts s ∖ {[context]}
    | _ => sdl_contexts s
    end.
Proof.
  unfold sdl_step. destruct c; cbn [sdl_effect sdl_log sdl_contexts];
    try reflexivity; by destruct (decide _).
Qed.

Lemma gl_function_pointers_step s c :
  gl_function_pointers (sdl_step s c) = gl_function_pointers s.
Proof.
  unfold sdl_step. destruct c; cbn [sdl_effect sdl_log gl_function_pointers];
    try reflexivity; by destruct (decide _).
Qed.

(** The loop over the GL functions: it makes no window and no context, it
    leaves the fields of the window alone, a pointer that is not null stays
    so, and it succeeds exactly when every function was found. *)
Lemma load_GLEXT_inv (names : list string) : ∀ this s ok this' s',
  load_GLEXT names this s = Ok ((ok, this'), s') →
  sdl_windows s' = sdl_windows s ∧ sdl_contexts s' = sdl_contexts s
  ∧ window_ this' = window_ this ∧ context_ this' = context_ this
  ∧ window_size_ this' = window_size_ this
  ∧ (∃ more, sdl_calls s' = sdl_calls s ++ more)
  ∧ (∀ name p, gl_function_pointers s !! name = Some p → p ≠ 0 →
       ∃ p', gl_function_pointers s' !! name = Some p' ∧ p' ≠ 0)
  ∧ (if ok then
       shared this' = shared this
       ∧ ∀ name, name ∈ names →
           ∃ p, gl_function_pointers s' !! name = Some p ∧ p ≠ 0
     else
       ∃ name, name ∈ names
         ∧ last_error_ (shared this')
           = "could not retrieve GL function pointer " +:+ name).
Proof.
  induction names as [|name names IH]; intros this s ok this' s' Hrun.
  - injection Hrun as <- <- <-.
    repeat split; try done;
      [exists []; by rewrite app_nil_r|eauto|by intros ? ?%elem_of_nil].
  - cbn [load_GLEXT] in Hrun.
    unfold mbind, SDLM_bind, SDL_GL_GetProcAddress, assign_function in Hrun.
    cbv beta iota zeta in Hrun.
    destruct (decide (sdl_proc_address sdl s name = 0)) as [Hnull|Hfound].
    + injection Hrun as <- <- <-.
      rewrite sdl_windows_step, sdl_contexts_step, sdl_calls_step.
      repeat split; try done; [by eexists| |].
      * intros n p Hp Hnz. rewrite gl_function_pointers_step. eauto.
      * exists name. split; [apply list_elem_of_here|reflexivity].
    + apply IH in Hrun
        as (Hw & Hc & Hwin & Hctx & Hsize & [more Hcalls] & Hkeep & Hok).
      cbn [sdl_windows sdl_contexts sdl_calls set_function_pointers
           gl_function_pointers] in *.
      rewrite sdl_windows_step in Hw. rewrite sdl_contexts_step in Hc.
      rewrite sdl_calls_step in Hcalls.
      rewrite gl_function_pointers_step in Hkeep.
      repeat split; try done.
      * eexists. rewrite Hcalls, <- (assoc_L (++)). reflexivity.
      * intros n p Hp Hnz. destruct (decide (n = name)) as [->|Hne].
        -- apply (Hkeep name (sdl_proc_address sdl s name));
             [apply lookup_insert_eq|exact Hfound].
        -- apply (Hkeep n p); [|exact Hnz].
           by rewrite lookup_insert_ne.
      * destruct ok.
        -- destruct Hok as [Hshared Hall]. split; [exact Hshared|].
           intros n [->|Hin]%elem_of_cons; [|by apply Hall].
           apply (Hkeep name (sdl_proc_address sdl s name));
             [apply lookup_insert_eq|exact Hfound].
        -- destruct Hok as (n & Hin & Herr). exists n.
           split; [by apply list_elem_of_further|exact Herr].
Qed.

Ltac sdl_unfold H :=
  unfold mbind, SDLM_bind, mret, SDLM_ret, SDL_Init, SDL_GetError,
    SDL_GL_SetAttribute, SDL_CreateWindow, SDL_GetWindowSize,
    SDL_GL_CreateContext, SDL_GL_SetSwapInterval, glGetString_EXTENSIONS,
    SDL_GL_DeleteContext, SDL_DestroyWindow, SDL_Delay, SDL_GL_SwapWindow,
    glViewport, sdl_call, undefined_sdl in H;
  cbv beta iota zeta in H.

(** The paths through Initialize: one goal for each, with the run as an
    equation between results. *)
Ltac Initialize_paths H :=
  unfold Initialize in H; sdl_unfold H;
  repeat first
    [ match type of H with
      | context [decide ?P] => destruct (decide P)
      end; cbv beta iota zeta in H
    | match type of H with
      | context [PLATFORM_MOBILE plat] =>
          let Hmobile := fresh "Hmobile" in
          destruct (PLATFORM_MOBILE plat) eqn:Hmobile
      end; cbn [orb] in H; cbv beta iota zeta in H
    | match type of H with
      | context [sdl_extensions sdl ?st] =>
          let Hexts := fresh "Hexts" in
          destruct (sdl_extensions sdl st) eqn:Hexts
      end; cbv beta iota zeta in H
    | match type of H with
      | context [if ?b then _ else _] =>
          let Hb := fresh "Hb" in destruct b eqn:Hb
      end; cbv beta iota zeta in H ];
  try discriminate H.

(** The loop over the GL functions stops at the first one that SDL does
    not find, with its name in the message. *)
Lemma load_GLEXT_fails (names : list string) : ∀ this s this' s',
  load_GLEXT names this s = Ok ((false, this'), s') →
  ∃ name,
    name ∈ names
    ∧ last (sdl_calls s') = Some (GL_GetProcAddress name 0)
    ∧ last_error_ (shared this')
      = "could not retrieve GL function pointer " +:+ name.
Proof.
  induction names as [|name names IH]; intros this s this' s' Hrun.
  - discriminate Hrun.
  - cbn [load_GLEXT] in Hrun.
    unfold mbind, SDLM_bind, SDL_GL_GetProcAddress, assign_function in Hrun.
    cbv beta iota zeta in Hrun.
    destruct (decide (sdl_proc_address sdl s name = 0)) as [Hnull|Hfound].
    + injection Hrun as <- <-. exists name.
      split; [apply list_elem_of_here|].
      rewrite sdl_calls_step, last_snoc, Hnull. split; reflexivity.
    + apply IH in Hrun as (n & Hin & Hlast & Herr). exists n.
      split; [by apply list_elem_of_further|]. split; assumption.
Qed.

Lemma required_extensions_missing (exts : string) :
  negb (strstr exts "GL_ARB_vertex_buffer_object")
  || negb (strstr exts "GL_ARB_multitexture")
  || negb (strstr exts "GL_ARB_vertex_program")
  || negb (strstr exts "GL_ARB_fragment_program") = true →
  ∃ e, e ∈ required_extensions ∧ strstr exts e = false.
Proof.
  intros Hsome. unfold required_extensions.
  apply orb_prop in Hsome as [Hsome|H4].
  - apply orb_prop in Hsome as [Hsome|H3].
    + apply orb_prop in Hsome as [H1|H2].
      * apply negb_true_iff in H1. eexists. split; [|exact H1]. set_solver.
      * apply negb_true_iff in H2. eexists. split; [|exact H2]. set_solver.
    + apply negb_true_iff in H3. eexists. split; [|exact H3]. set_solver.
  - apply negb_true_iff in H4. eexists. split; [|exact H4]. set_solver.
Qed.

(** X11. Initialize returns true without touching [last_error_].  When it
    returns false, [last_error_] tells which step failed, and that step was
    the last thing Initialize did:
    - "SDL_Init fail: " and the string SDL_GetError returned, when SDL_Init
      returned a value that is not 0: nothing but these two calls was made;
    - "SDL_CreateWindow fail: " and the string SDL_GetError returned, with
      [window_] null;
    - "SDL_GL_CreateContext fail: " and the string SDL_GetError returned,
      with a window in [window_] and [context_] null;
    - "missing GL extensions", when one of the four extensions required is
      not in the string glGetString returned;
    - "could not retrieve GL function pointer " and the name of a function
      of GLBASEEXTS or GLEXTS, for which SDL_GL_GetProcAddress returned a
      null pointer. *)
Theorem Initialize_reports_failure
    this window_size window_title s ok this' s' :
  Initialize this window_size window_title s = Ok ((ok, this'), s') →
  if ok then shared this' = shared this
  else
    (∃ r e,
       r ≠ 0
       ∧ sdl_calls s' = sdl_calls s ++ [Init SDL_INIT_VIDEO r; GetError e]
       ∧ last_error_ (shared this') = "SDL_Init fail: " +:+ e)
    ∨ (∃ e,
         window_ this' = 0
         ∧ last (sdl_calls s') = Some (GetError e)
         ∧ last_error_ (shared this') = "SDL_CreateWindow fail: " +:+ e)
    ∨ (∃ e,
         window_ this' ≠ 0 ∧ context_ this' = 0
         ∧ last (sdl_calls s') = Some (GetError e)
         ∧ last_error_ (shared this')
           = "SDL_GL_CreateContext fail: " +:+ e)
    ∨ (∃ exts e,
         last (sdl_calls s') = Some (GetString_EXTENSIONS (Some exts))
         ∧ e ∈ required_extensions ∧ strstr exts e = false
         ∧ last_error_ (shared this') = "missing GL extensions")
    ∨ (∃ name,
         name ∈ GLBASEEXTS ++ GLEXTS
         ∧ last (sdl_calls s') = Some (GL_GetProcAddress name 0)
         ∧ last_error_ (shared this')
           = "could not retrieve GL function pointer " +:+ name).
Proof.
  intros Hrun. Initialize_paths Hrun;
    try (injection Hrun as <- <- <-; try reflexivity;
         rewrite ?sdl_calls_step, ?last_snoc;
         cbn [window_ context_ shared last_error_ set_last_error set_window
              set_context set_window_size]).
  all: try (destruct ok;
            [by apply load_GLEXT_inv in Hrun
               as (_ & _ & _ & _ & _ & _ & _ & Hok & _)
            |do 4 right; by apply load_GLEXT_fails in Hrun]).
  all: try (left; eexists _, _; split; [eassumption|];
            split; [by rewrite <- (assoc_L (++))|reflexivity]).
  all: try (right; left; eexists; split; [assumption|];
            split; reflexivity).
  all: try (do 2 right; left; eexists; split; [assumption|];
            split; [assumption|]; split; reflexivity).
  all: do 3 right; left;
    match goal with
    | H : _ = true |- _ =>
        apply required_extensions_missing in H as (e & He & Hno)
    end;
    eexists _, e; split; [reflexivity|]; split; [exact He|];
    split; [exact Hno|reflexivity].
Qed.

Ltac sdl_normalise :=
  rewrite ?sdl_windows_step, ?sdl_contexts_step, ?sdl_calls_step,
    ?gl_function_pointers_step;
  cbv beta iota;
  cbn [window_ context_ window_size_ shared set_last_error set_window
       set_context set_window_size];
  rewrite ?decide_False by assumption.

Lemma required_extensions_present (exts : string) :
  negb (strstr exts "GL_ARB_vertex_buffer_object")
  || negb (strstr exts "GL_ARB_multitexture")
  || negb (strstr exts "GL_ARB_vertex_program")
  || negb (strstr exts "GL_ARB_fragment_program") = false →
  ∀ e, e ∈ required_extensions → strstr exts e = true.
Proof.
  intros Hnone e He.
  apply orb_false_elim in Hnone as [Hnone H4].
  apply orb_false_elim in Hnone as [Hnone H3].
  apply orb_false_elim in Hnone as [H1 H2].
  apply negb_false_iff in H1, H2, H3, H4.
  unfold required_extensions in He. rewrite !elem_of_cons in He.
  destruct He as [->|[->|[->|[->|He]]]]; try assumption.
  by apply elem_of_nil in He.
Qed.

(** X12. When Initialize returns true, [window_] and [context_] are not
    null and name a window and a context that are alive, and
    [window_size_] is the size SDL reported for that window.  On the
    desktop the extension string of the driver contains the four
    extensions required, and unless [__APPLE__] is defined every GL
    function of the lists GLBASEEXTS and GLEXTS has a pointer that is not
    null. *)
Theorem Initialize_success_gives_window_and_context
    this window_size window_title s this' s' :
  Initialize this window_size window_title s = Ok ((true, this'), s') →
  window_ this' ≠ 0 ∧ window_ this' ∈ sdl_windows s'
  ∧ context_ this' ≠ 0 ∧ context_ this' ∈ sdl_contexts s'
  ∧ GetWindowSize (window_ this') (window_size_ this') ∈ sdl_calls s'
  ∧ (PLATFORM_MOBILE plat = false →
     ∃ exts, GetString_EXTENSIONS (Some exts) ∈ sdl_calls s'
             ∧ ∀ e, e ∈ required_extensions → strstr exts e = true)
  ∧ (PLATFORM_MOBILE plat = false → APPLE = false →
     ∀ name, name ∈ GLBASEEXTS ++ GLEXTS →
             ∃ p, gl_function_pointers s' !! name = Some p ∧ p ≠ 0).
Proof.
  intros Hrun. Initialize_paths Hrun; try (injection Hrun as [=]; fail).
  - injection Hrun as <- <-. sdl_normalise.
    repeat split; try assumption; try done; set_solver.
  - injection Hrun as <- <-. sdl_normalise.
    split; [assumption|]. split; [set_solver|].
    split; [assumption|]. split; [set_solver|].
    split; [set_solver|]. split; [|intros _ [=]].
    intros _. eexists. split; [|by apply required_extensions_present].
    set_solver.
  - apply load_GLEXT_inv in Hrun
      as (Hw & Hc & -> & -> & -> & [more Hcalls] & _ & _ & Hall).
    rewrite Hw, Hc, Hcalls. sdl_normalise.
    split; [assumption|]. split; [set_solver|].
    split; [assumption|]. split; [set_solver|].
    split; [set_solver|]. split; [|intros _ _; exact Hall].
    intros _. eexists. split; [|by apply required_extensions_present].
    set_solver.
Qed.

(** What Initialize leaves alive, on every path. *)
Lemma Initialize_resources this window_size window_title s ok this' s' :
  fresh_handles sdl → window_ this = 0 → context_ this = 0 →
  Initialize this window_size window_title s = Ok ((ok, this'), s') →
  (window_ this' = 0 → context_ this' = 0)
  ∧ sdl_windows s'
    = (if decide (window_ this' = 0) then sdl_windows s
       else {[window_ this']} ∪ sdl_windows s)
  ∧ sdl_contexts s'
    = (if decide (context_ this' = 0) then sdl_contexts s
       else {[context_ this']} ∪ sdl_contexts s)
  ∧ (window_ this' ≠ 0 → window_ this' ∉ sdl_windows s)
  ∧ (context_ this' ≠ 0 → context_ this' ∉ sdl_contexts s).
Proof.
  intros Hfresh Hwindow Hcontext Hrun.
  Initialize_paths Hrun;
    try (injection Hrun as <- <- <-);
    try (apply load_GLEXT_inv in Hrun
           as (Hw & Hc & Hwin & Hctx & _); rewrite Hw, Hc, Hwin, Hctx);
    sdl_normalise; rewrite ?Hwindow, ?Hcontext;
    rewrite ?decide_True by assumption;
    rewrite ?decide_True by reflexivity;
    (split; [intros ?; congruence|]);
    (split; [reflexivity|]); (split; [reflexivity|]);
    (split; intros Hnz; try done);
    match goal with
    | |- sdl_create_window sdl ?st ∉ _ =>
        pose proof (proj1 (Hfresh st)) as Hnew; revert Hnew
    | |- sdl_create_context sdl ?st ?w ∉ _ =>
        pose proof (proj2 (Hfresh st) w) as Hnew; revert Hnew
    end;
    sdl_normalise; auto.
Qed.

Lemma ShutDown_runs (this : RendererSDL) (s : SDLState) :
  ∃ this' s',
    ShutDown this s = Ok (this', s')
    ∧ window_ this' = 0 ∧ context_ this' = 0
    ∧ shared this' = shared this ∧ window_size_ this' = window_size_ this
    ∧ sdl_calls s' = sdl_calls s ++ ShutDown_calls this
    ∧ sdl_windows s'
      = (if decide (window_ this = 0) then sdl_windows s
         else sdl_windows s ∖ {[window_ this]})
    ∧ sdl_contexts s'
      = (if decide (context_ this = 0) then sdl_contexts s
         else sdl_contexts s ∖ {[context_ this]})
    ∧ gl_function_pointers s' = gl_function_pointers s.
Proof.
  unfold ShutDown, ShutDown_calls, mbind, SDLM_bind, mret, SDLM_ret,
    SDL_GL_DeleteContext, SDL_DestroyWindow, sdl_call.
  destruct (decide (context_ this = 0)) as [Hc|Hc];
    destruct (decide (window_ this = 0)) as [Hw|Hw];
    repeat (first [ rewrite decide_True by (assumption || congruence)
                  | rewrite decide_False by (assumption || congruence) ];
            cbv beta iota zeta;
            cbn [window_ context_ set_context set_window]);
    eexists _, _; (split; [reflexivity|]); sdl_normalise;
    rewrite <- ?(assoc_L (++)), ?app_nil_r;
    repeat split; first [reflexivity|assumption].
Qed.

(** X13. Initialize does not undo what it did when it fails: whatever it
    returns, starting from a Renderer without a window and without a
    context, the window and the context it created are alive afterwards and
    are the ones [window_] and [context_] hold; a field is null exactly when
    the object was not created.  (SDL is assumed to return a null pointer
    or an object that was not alive.) *)
Theorem Initialize_keeps_what_it_created
    this window_size window_title s ok this' s' :
  fresh_handles sdl → window_ this = 0 → context_ this = 0 →
  Initialize this window_size window_title s = Ok ((ok, this'), s') →
  (window_ this' = 0 → context_ this' = 0)
  ∧ sdl_windows s'
    = (if decide (window_ this' = 0) then sdl_windows s
       else {[window_ this']} ∪ sdl_windows s)
  ∧ sdl_contexts s'
    = (if decide (context_ this' = 0) then sdl_contexts s
       else {[context_ this']} ∪ sdl_contexts s)
  ∧ (window_ this' ≠ 0 → window_ this' ∉ sdl_windows s)
  ∧ (context_ this' ≠ 0 → context_ this' ∉ sdl_contexts s).
Proof. apply Initialize_resources. Qed.

(** X14. Initialize followed by ShutDown leaves no window and no context
    behind, whether Initialize succeeded or failed: starting from a
    Renderer without a window and without a context, the windows and the
    contexts alive afterwards are those from before, both fields are null
    again, and [last_error_] is as Initialize left it. *)
Theorem Initialize_then_ShutDown_releases_everything
    this window_size window_title s ok this1 s1 :
  fresh_handles sdl → window_ this = 0 → context_ this = 0 →
  Initialize this window_size window_title s = Ok ((ok, this1), s1) →
  ∃ this2 s2,
    ShutDown this1 s1 = Ok (this2, s2)
    ∧ window_ this2 = 0 ∧ context_ this2 = 0
    ∧ shared this2 = shared this1
    ∧ sdl_windows s2 = sdl_windows s
    ∧ sdl_contexts s2 = sdl_contexts s.
Proof.
  intros Hfresh Hwindow Hcontext Hrun.
  destruct (Initialize_resources _ _ _ _ _ _ _ Hfresh Hwindow Hcontext Hrun)
    as (_ & Hw & Hc & Hwnew & Hcnew).
  destruct (ShutDown_runs this1 s1)
    as (this2 & s2 & Hdown & Hw2 & Hc2 & Hshared & _ & _ & Hw' & Hc' & _).
  exists this2, s2. split; [exact Hdown|].
  split; [exact Hw2|]. split; [exact Hc2|]. split; [exact Hshared|].
  rewrite Hw', Hc', Hw, Hc.
  destruct (decide (window_ this1 = 0)), (decide (context_ this1 = 0));
    set_solver.
Qed.

(** X15. ShutDown deletes the context, then destroys the window, each only
    if its field is not null, and sets both fields to null; a second
    ShutDown makes no call and changes nothing. *)
Theorem ShutDown_twice_is_ShutDown_once (this : RendererSDL) (s : SDLState) :
  ∃ this' s',
    ShutDown this s = Ok (this', s')
    ∧ sdl_calls s' = sdl_calls s ++ ShutDown_calls this
    ∧ window_ this' = 0 ∧ context_ this' = 0
    ∧ ShutDown this' s' = Ok (this', s').
Proof.
  destruct (ShutDown_runs this s)
    as (this' & s' & Hdown & Hw & Hc & _ & _ & Hcalls & _).
  exists this', s'. split; [exact Hdown|]. split; [exact Hcalls|].
  split; [exact Hw|]. split; [exact Hc|].
  unfold ShutDown, mbind, SDLM_bind, mret, SDLM_ret.
  rewrite Hc, decide_False by (intros H; by apply H).
  cbv beta iota zeta. rewrite Hw, decide_False by (intros H; by apply H).
  reflexivity.
Qed.

(** X16. After a successful Initialize, AdvanceFrame swaps the window
    Initialize created, or waits 10 ms when the application is minimized,
    and then sets the viewport to the size that SDL reported for that
    window, which need not be the size that was asked for. *)
Theorem AdvanceFrame_uses_the_size_of_the_window
    this window_size window_title s this' s' minimized :
  Initialize this window_size window_title s = Ok ((true, this'), s') →
  ∃ size s'',
    GetWindowSize (window_ this') size ∈ sdl_calls s'
    ∧ AdvanceFrame this' minimized s' = Ok (tt, s'')
    ∧ sdl_calls s''
      = sdl_calls s'
        ++ [if minimized then Delay 10 else GL_SwapWindow (window_ this');
            Viewport 0 0 size.1 size.2]
    ∧ sdl_windows s'' = sdl_windows s'
    ∧ sdl_contexts s'' = sdl_contexts s'.
Proof.
  intros Hrun.
  assert (Hsize : GetWindowSize (window_ this') (window_size_ this')
                  ∈ sdl_calls s').
  { clear minimized.
    Initialize_paths Hrun; try (injection Hrun as [=]; fail).
    - injection Hrun as <- <-. sdl_normalise. set_solver.
    - injection Hrun as <- <-. sdl_normalise. set_solver.
    - apply load_GLEXT_inv in Hrun
        as (_ & _ & -> & _ & -> & [more Hcalls] & _).
      rewrite Hcalls. sdl_normalise. set_solver. }
  exists (window_size_ this').
  unfold AdvanceFrame, mbind, SDLM_bind, SDL_Delay, SDL_GL_SwapWindow,
    glViewport, sdl_call.
  destruct minimized; cbv beta iota zeta; eexists;
    (split; [exact Hsize|]); (split; [reflexivity|]); sdl_normalise;
    rewrite <- ?(assoc_L (++)); done.
Qed.

(** X17. On the desktop Initialize passes the extension string of the
    driver to strstr without a check: when SDL has given a window and a
    context and glGetString(GL_EXTENSIONS) returns a null pointer,
    Initialize reads through it, which is undefined behaviour. *)
Theorem Initialize_reads_null_extension_string
    this window_size window_title s :
  PLATFORM_MOBILE plat = false →
  (∀ st, sdl_init sdl st = 0) →
  (∀ st, sdl_create_window sdl st ≠ 0) →
  (∀ st window, sdl_create_context sdl st window ≠ 0) →
  (∀ st, sdl_extensions sdl st = None) →
  Initialize this window_size window_title s = Undefined.
Proof.
  intros Hmobile Hinit Hwindow Hcontext Hexts.
  unfold Initialize, mbind, SDLM_bind, mret, SDLM_ret, SDL_Init,
    SDL_GL_SetAttribute, SDL_CreateWindow, SDL_GetWindowSize,
    SDL_GL_CreateContext, SDL_GL_SetSwapInterval, glGetString_EXTENSIONS,
    sdl_call, undefined_sdl.
  rewrite Hmobile. cbv beta iota zeta.
  rewrite decide_False by (intros Hnz; apply Hnz, Hinit).
  cbv beta iota zeta. rewrite decide_False by apply Hwindow.
  cbv beta iota zeta. rewrite decide_False by apply Hcontext.
  cbv beta iota zeta. by rewrite Hexts.
Qed.

(** What a successful Initialize adds to what is alive, whatever the
    fields held before. *)
Lemma Initialize_success_resources
    this window_size window_title s this' s' :
  fresh_handles sdl →
  Initialize this window_size window_title s = Ok ((true, this'), s') →
  window_ this' ≠ 0 ∧ (window_ this' ∉ sdl_windows s)
  ∧ sdl_windows s' = {[window_ this']} ∪ sdl_windows s
  ∧ context_ this' ≠ 0 ∧ (context_ this' ∉ sdl_contexts s)
  ∧ sdl_contexts s' = {[context_ this']} ∪ sdl_contexts s.
Proof.
  intros Hfresh Hrun.
  Initialize_paths Hrun; try (injection Hrun as [=]; fail);
    try (injection Hrun as <- <-);
    try (apply load_GLEXT_inv in Hrun
           as (Hw & Hc & Hwin & Hctx & _); rewrite Hw, Hc, Hwin, Hctx);
    sdl_normalise;
    repeat (split; [first [assumption|reflexivity|idtac]|]);
    try assumption; try reflexivity;
    match goal with
    | |- sdl_create_window sdl ?st ∉ _ =>
        pose proof (proj1 (Hfresh st)) as Hnew; revert Hnew
    | |- sdl_create_context sdl ?st ?w ∉ _ =>
        pose proof (proj2 (Hfresh st) w) as Hnew; revert Hnew
    end;
    sdl_normalise; auto.
Qed.

(** X18. Initialize never destroys anything, and it overwrites [window_]
    and [context_]: when it succeeds on a Renderer that already holds a
    window that is alive, that window is still alive after a ShutDown, and
    no field of the Renderer names it any more. *)
Theorem Initialize_twice_leaks_the_first_window
    this window_size window_title s this1 s1 :
  fresh_handles sdl →
  window_ this ≠ 0 → window_ this ∈ sdl_windows s →
  Initialize this window_size window_title s = Ok ((true, this1), s1) →
  ∃ this2 s2,
    ShutDown this1 s1 = Ok (this2, s2)
    ∧ window_ this1 ≠ window_ this
    ∧ window_ this2 = 0 ∧ context_ this2 = 0
    ∧ window_ this ∈ sdl_windows s2.
Proof.
  intros Hfresh Hnz Halive Hrun.
  destruct (Initialize_success_resources _ _ _ _ _ _ Hfresh Hrun)
    as (Hwnz & Hwnew & Hw & _).
  destruct (ShutDown_runs this1 s1)
    as (this2 & s2 & Hdown & Hw2 & Hc2 & _ & _ & _ & Hw' & _).
  exists this2, s2. split; [exact Hdown|].
  split; [intros Heq; apply Hwnew; by rewrite Heq|].
  split; [exact Hw2|]. split; [exact Hc2|].
  rewrite Hw', decide_False, Hw by exact Hwnz.
  apply elem_of_difference. split; [set_solver|].
  intros Heq%elem_of_singleton. apply Hwnew. by rewrite <- Heq.
Qed.
End Renderer.

(** * The theorems at sample inputs *)

(** A decidable closed proposition, by evaluation. *)
Ltac by_decide :=
  match goal with
  | |- ?P => apply (bool_decide_unpack P); vm_compute; exact I
  end.

Lemma max_name_ge (names : gset Z) (name : Z) :
  name ∈ names → name ≤ max_name names.
Proof.
  unfold max_name, set_fold. cbn. rewrite <- elem_of_elements.
  induction (elements names) as [|x l IH]; intros Hin.
  - by apply elem_of_nil in Hin.
  - cbn. apply elem_of_cons in Hin as [->|Hin]; [lia|].
    specialize (IH Hin). lia.
Qed.

Lemma max_name_nonneg (names : gset Z) : 0 ≤ max_name names.
Proof.
  unfold max_name, set_fold. cbn.
  induction (elements names) as [|x l IH]; cbn; lia.
Qed.

Lemma sequential_driver_fresh compile link :
  fresh_buffer_names (sequential_driver compile link)
  ∧ fresh_object_names (sequential_driver compile link).
Proof.
  split; intros s; cbn.
  - pose proof (max_name_nonneg (gl_buffers s)).
    split; [lia|]. intros Hin%max_name_ge. lia.
  - pose proof (max_name_nonneg (gl_object_names s)).
    split; [lia|]. intros Hin%max_name_ge. lia.
Qed.

Lemma SetAttributes_walks_fields_witness :
  ∃ s',
    SetAttributes desktop rejecting_driver 4 7
      ([kPosition3f; kTexCoord2f; kColor4ub] ++ kEND :: [kNormal3f]) 24 0
      gl_initial = Ok (tt, s')
    ∧ gl_calls s'
      = [BindBuffer GL_ARRAY_BUFFER 7;
         EnableVertexAttribArray 0;
         VertexAttribPointer 0 3 GL_FLOAT false 24 0;
         EnableVertexAttribArray 2;
         VertexAttribPointer 2 2 GL_FLOAT false 24 12;
         EnableVertexAttribArray 3;
         VertexAttribPointer 3 4 GL_UNSIGNED_BYTE true 24 20].
Proof.
  destruct (SetAttributes_walks_fields_from_offset_0 desktop rejecting_driver
              4 7 [kPosition3f; kTexCoord2f; kColor4ub] [kNormal3f] 24 0
              gl_initial) as (s' & Hrun & _ & Hcalls & _).
  - by_decide.
  - simpl. lia.
  - exists s'. split; [exact Hrun|]. rewrite Hcalls. reflexivity.
Defined.

Lemma Bind_then_Unbind_witness :
  ∃ s',
    bind (SetAttributes desktop rejecting_driver 3 7
            ([kPosition3f; kColor4ub] ++ kEND :: []) 16 0)
         (λ _, UnSetAttributes rejecting_driver 3
                 ([kPosition3f; kColor4ub] ++ kEND :: []))
         gl_initial = Ok (tt, s')
    ∧ ∀ slot, slot ∈ fixed_slots → slot ∉ gl_attrib_enabled s'.
Proof.
  destruct (Bind_then_Unbind_leaves_fixed_slots_disabled desktop
              rejecting_driver 3 7 [kPosition3f; kColor4ub] [] 16 0
              gl_initial) as (s' & Hrun & _ & Hslots).
  - by_decide.
  - simpl. lia.
  - exists s'. split; [exact Hrun|]. apply Hslots.
    intros slot _ _. apply not_elem_of_empty.
Defined.

Lemma attribute_walks_return_iff_kEND_witness :
  (∃ fuel s',
     SetAttributes desktop rejecting_driver fuel 7 [kPosition3f; kEND] 12 0
       gl_initial = Ok (tt, s'))
  ∧ ¬ (∃ fuel s',
         UnSetAttributes rejecting_driver fuel [kPosition3f; kNormal3f]
           gl_initial = Ok (tt, s')).
Proof.
  split.
  - apply (attribute_walks_return_iff_kEND desktop rejecting_driver 7
             [kPosition3f; kEND] 12 0 gl_initial).
    by_decide.
  - intros Hreturns.
    apply (attribute_walks_return_iff_kEND desktop rejecting_driver 7
             [kPosition3f; kNormal3f] 12 0 gl_initial) in Hreturns.
    revert Hreturns. by_decide.
Defined.

Lemma Render_draws_each_range_witness :
  ∃ s',
    Render desktop rejecting_driver 3 sample_mesh sample_renderer gl_initial
    = Ok (tt, s')
    ∧ gl_calls s'
      = [BindBuffer GL_ARRAY_BUFFER 1;
         EnableVertexAttribArray 0;
         VertexAttribPointer 0 3 GL_FLOAT false 20 0;
         EnableVertexAttribArray 2;
         VertexAttribPointer 2 2 GL_FLOAT false 20 12;
         Material_Set 100;
         BindBuffer GL_ELEMENT_ARRAY_BUFFER 2;
         DrawElements GL_TRIANGLES 6 GL_UNSIGNED_INT 0;
         Material_Set 200;
         BindBuffer GL_ELEMENT_ARRAY_BUFFER 3;
         DrawElements GL_TRIANGLES 3 GL_UNSIGNED_INT 0;
         DisableVertexAttribArray 0;
         DisableVertexAttribArray 2].
Proof.
  destruct (Render_draws_each_range_in_order desktop rejecting_driver 3
              sample_mesh sample_renderer [kPosition3f; kTexCoord2f] []
              gl_initial)
    as (s' & Hrun & _ & Hcalls & _).
  - reflexivity.
  - by_decide.
  - simpl. lia.
  - exists s'. split; [exact Hrun|]. rewrite Hcalls. reflexivity.
Defined.

Lemma Mesh_delete_releases_each_buffer_once_witness :
  ∃ this s1 s2,
    Mesh_built desktop rejecting_driver [] 4 20 [kPosition3f; kEND]
      [([0; 1; 2], 3, 100); ([2; 1; 0], 3, 200)] gl_initial = Ok (this, s1)
    ∧ Mesh_delete rejecting_driver this s1 = Ok (tt, s2)
    ∧ length (indices_ this) = 2%nat
    ∧ NoDup (vbo_ this :: (ibo <$> indices_ this))
    ∧ gl_buffers s2 = ∅.
Proof.
  destruct (Mesh_delete_releases_each_buffer_once desktop rejecting_driver
              [] 4 20 [kPosition3f; kEND]
              [([0; 1; 2], 3, 100); ([2; 1; 0], 3, 200)] gl_initial)
    as (this & s1 & s2 & Hbuilt & Hdelete & Hlen & _ & Hdup & _ & Hbuffers & _).
  - apply sequential_driver_fresh.
  - unfold INT_MIN, INT_MAX. lia.
  - exists this, s1, s2. by repeat split.
Defined.

Lemma CompileShader_failure_witness :
  ∃ sh s',
    CompileShader desktop rejecting_driver sample_renderer GL_VERTEX_SHADER 1
      "void main() {" (step rejecting_driver gl_initial (CreateProgram 1))
    = Ok ((0, {| last_error_ := diagnostic "0:1: syntax error" |}), s')
    ∧ gl_shaders s' !! sh = None
    ∧ DeleteShader sh ∈ gl_calls s'.
Proof.
  destruct (CompileShader_failure_stores_log_and_deletes_stage desktop
              rejecting_driver sample_renderer GL_VERTEX_SHADER 1
              "void main() {"
              (step rejecting_driver gl_initial (CreateProgram 1)))
    as (sh & s' & Hrun & Hs' & _ & _ & Hgone & _).
  - apply sequential_driver_fresh.
  - reflexivity.
  - exists sh, s'. split; [exact Hrun|]. split; [exact Hgone|].
    rewrite Hs'. cbn [logged gl_calls].
    rewrite !elem_of_app. right. right.
    apply elem_of_cons; right. apply elem_of_cons; right.
    apply list_elem_of_singleton. reflexivity.
Defined.

Lemma CompileAndLinkShader_failure_witness :
  ∃ program vs,
    CompileAndLinkShader desktop rejecting_driver sample_renderer
      "void main() {" "void main() { }" gl_initial
    = Ok ((None, {| last_error_ := diagnostic "0:1: syntax error" |}),
          logged (CreateProgram program
                  :: compile_calls GL_VERTEX_SHADER vs
                       (platform_preamble desktop +:+ "void main() {")
                  ++ compile_failure_calls vs "0:1: syntax error"
                  ++ [DeleteProgram program]) gl_initial)
    ∧ diagnostic "0:1: syntax error" ≠ "".
Proof.
  destruct (CompileAndLinkShader_failure_returns_null_and_cleans_up desktop
              rejecting_driver sample_renderer "void main() {"
              "void main() { }" gl_initial)
    as (program & vs & ps & Hvertex & _).
  - apply sequential_driver_fresh.
  - destruct Hvertex as [Hrun Hdiag]; [reflexivity|].
    exists program, vs. split; [exact Hrun|]. apply Hdiag. discriminate.
Defined.

Lemma CreateTextureFromTGAMemory_rejects_witness :
  CreateTextureFromTGAMemory desktop rejecting_driver 0 sample_16bit_header
    gl_initial = Ok (0, gl_initial).
Proof.
  apply CreateTextureFromTGAMemory_rejects. right. split.
  - simpl. lia.
  - right. right. by vm_compute.
Defined.

Lemma CreateTextureFromTGAMemory_2x2_witness :
  CreateTextureFromTGAMemory desktop rejecting_driver 3
    (TGA_header_2x2 Byte.x00 Byte.x00 Byte.x00 Byte.x00 Byte.x00
                    Byte.x00 Byte.x00 Byte.x00 Byte.x00 Byte.x20 Byte.x08
     ++ [Byte.x01; Byte.x02; Byte.x03; Byte.x04;
         Byte.x11; Byte.x12; Byte.x13; Byte.x14;
         Byte.x21; Byte.x22; Byte.x23; Byte.x24;
         Byte.x31; Byte.x32; Byte.x33; Byte.x34]) gl_initial
  = Ok (drv_gen_texture rejecting_driver gl_initial,
        replay rejecting_driver
          (CreateTexture_calls (drv_gen_texture rejecting_driver gl_initial)
             (Some <$> [Byte.x03; Byte.x02; Byte.x01; Byte.x04;
                        Byte.x13; Byte.x12; Byte.x11; Byte.x14;
                        Byte.x23; Byte.x22; Byte.x21; Byte.x24;
                        Byte.x33; Byte.x32; Byte.x31; Byte.x34]) 2 2)
          gl_initial).
Proof.
  destruct (CreateTextureFromTGAMemory_2x2_gives_RGBA_top_to_bottom desktop
              rejecting_driver 3 Byte.x00 Byte.x00 Byte.x00 Byte.x00 Byte.x00
              Byte.x00 Byte.x00 Byte.x00 Byte.x00 Byte.x08
              Byte.x01 Byte.x02 Byte.x03 Byte.x04
              Byte.x11 Byte.x12 Byte.x13 Byte.x14
              Byte.x21 Byte.x22 Byte.x23 Byte.x24
              Byte.x31 Byte.x32 Byte.x33 Byte.x34 gl_initial)
    as [H32 _].
  - reflexivity.
  - reflexivity.
  - lia.
  - exact H32.
Defined.

Lemma CreateTextureFromTGAMemory_2x2_flip_witness :
  CreateTextureFromTGAMemory desktop rejecting_driver 3
    (TGA_header_2x2 Byte.x00 Byte.x00 Byte.x00 Byte.x00 Byte.x00
                    Byte.x00 Byte.x00 Byte.x00 Byte.x00 Byte.x20
                    (set_flip_bit Byte.x08)
     ++ [Byte.x21; Byte.x22; Byte.x23; Byte.x24;
         Byte.x31; Byte.x32; Byte.x33; Byte.x34;
         Byte.x01; Byte.x02; Byte.x03; Byte.x04;
         Byte.x11; Byte.x12; Byte.x13; Byte.x14]) gl_initial
  = CreateTextureFromTGAMemory desktop rejecting_driver 3
      (TGA_header_2x2 Byte.x00 Byte.x00 Byte.x00 Byte.x00 Byte.x00
                      Byte.x00 Byte.x00 Byte.x00 Byte.x00 Byte.x20 Byte.x08
       ++ [Byte.x01; Byte.x02; Byte.x03; Byte.x04;
           Byte.x11; Byte.x12; Byte.x13; Byte.x14;
           Byte.x21; Byte.x22; Byte.x23; Byte.x24;
           Byte.x31; Byte.x32; Byte.x33; Byte.x34]) gl_initial.
Proof.
  destruct (CreateTextureFromTGAMemory_2x2_flip_and_swap_rows desktop
              rejecting_driver 3 Byte.x00 Byte.x00 Byte.x00 Byte.x00 Byte.x00
              Byte.x00 Byte.x00 Byte.x00 Byte.x00 Byte.x08
              Byte.x01 Byte.x02 Byte.x03 Byte.x04
              Byte.x11 Byte.x12 Byte.x13 Byte.x14
              Byte.x21 Byte.x22 Byte.x23 Byte.x24
              Byte.x31 Byte.x32 Byte.x33 Byte.x34 gl_initial)
    as (_ & Hsame & _).
  - reflexivity.
  - reflexivity.
  - lia.
  - exact Hsame.
Defined.

(** The pair of Bind and Unbind needs the other slots disabled before:
    where a Bind of a color-only format has not been unbound, which no
    caller in this file does, Bind and Unbind of a position-only format
    leave the color slot enabled. *)
Example Bind_then_Unbind_leaves_other_slot_enabled :
  ∃ s',
    bind (SetAttributes desktop rejecting_driver 2 7 [kColor4ub; kEND] 4 0)
      (λ _, bind (SetAttributes desktop rejecting_driver 2 8
                    [kPosition3f; kEND] 12 0)
              (λ _, UnSetAttributes rejecting_driver 2 [kPosition3f; kEND]))
      gl_initial = Ok (tt, s')
    ∧ kAttributeColor ∈ fixed_slots
    ∧ kAttributeColor ∈ gl_attrib_enabled s'.
Proof.
  eexists. split; [reflexivity|]. split; by_decide.
Qed.

(** C4, as the specification words it, fails with a driver that has no log
    for a failed compile: the diagnostic string is left empty. *)
Lemma CompileAndLinkShader_empty_diagnostic :
  (drv_compile silent_driver GL_VERTEX_SHADER
     (platform_preamble desktop +:+ "void main() {")).1 = false
  ∧ ∃ s',
      CompileAndLinkShader desktop silent_driver
        {| last_error_ := "an earlier error" |}
        "void main() {" "void main() { }" gl_initial
      = Ok ((None, {| last_error_ := "" |}), s').
Proof.
  split; [reflexivity|]. eexists. vm_compute. reflexivity.
Qed.

(** C5, as the specification words it, fails: after a failed compile the
    stage CompileShader created no longer exists, so that nothing is left
    for the caller to delete. *)
Lemma CompileShader_failed_stage_not_alive :
  ∃ this' s',
    bind (glCreateProgram rejecting_driver)
         (λ program, CompileShader desktop rejecting_driver sample_renderer
                       GL_VERTEX_SHADER program "void main() {")
         gl_initial = Ok ((0, this'), s')
    ∧ gl_calls s' !! 1%nat = Some (CreateShader GL_VERTEX_SHADER 2)
    ∧ last (gl_calls s') = Some (DeleteShader 2)
    ∧ ¬ stage_alive s' 2.
Proof.
  eexists _, _. split; [vm_compute; reflexivity|].
  split; [reflexivity|]. split; [reflexivity|].
  unfold stage_alive. vm_compute. by intros [o Ho].
Qed.

Lemma sample_sdl_fresh : fresh_handles sample_sdl.
Proof.
  intros s. cbn. split.
  - intros _ Hin%max_name_ge. lia.
  - intros _ _ Hin%max_name_ge. lia.
Qed.

Lemma no_context_sdl_fresh : fresh_handles no_context_sdl.
Proof.
  intros s. cbn. split.
  - intros _ Hin%max_name_ge. lia.
  - intros _ Hnz. done.
Qed.

Lemma CreateTextureFromTGAMemory_decodes_any_size_witness :
  CreateTextureFromTGAMemory desktop rejecting_driver 2 sample_3x2 gl_initial
  = Ok (drv_gen_texture rejecting_driver gl_initial,
        replay rejecting_driver
          (CreateTexture_calls (drv_gen_texture rejecting_driver gl_initial)
             (Some <$> [Byte.x49; Byte.x4a; Byte.x4b; Byte.xff;
                        Byte.x59; Byte.x5a; Byte.x5b; Byte.xff;
                        Byte.x69; Byte.x6a; Byte.x6b; Byte.xff;
                        Byte.x19; Byte.x1a; Byte.x1b; Byte.xff;
                        Byte.x29; Byte.x2a; Byte.x2b; Byte.xff;
                        Byte.x39; Byte.x3a; Byte.x3b; Byte.xff]) 3 2)
          gl_initial).
Proof.
  destruct (CreateTextureFromTGAMemory_decodes_any_size desktop
              rejecting_driver 2 sample_3x2 gl_initial)
    as (image & Himage & _ & Hrun).
  - reflexivity.
  - unfold TGA_accepted. by_decide.
  - by_decide.
  - by_decide.
  - by_decide.
  - vm_compute in Himage. subst image. exact Hrun.
Defined.

Lemma CreateTextureFromTGAMemory_reads_past_truncated_buffer_witness :
  CreateTextureFromTGAMemory desktop rejecting_driver 2 (take 30 sample_3x2)
    gl_initial = Undefined.
Proof.
  apply CreateTextureFromTGAMemory_reads_past_truncated_buffer.
  - reflexivity.
  - unfold TGA_accepted. by_decide.
  - by_decide.
  - by_decide.
  - by_decide.
  - by_decide.
Defined.

Lemma CreateTextureFromTGAMemory_size_overflows_witness :
  CreateTextureFromTGAMemory desktop rejecting_driver 0
    (sample_header_of Byte.xff Byte.xff Byte.xff Byte.xff) gl_initial
  = Undefined.
Proof.
  apply CreateTextureFromTGAMemory_size_overflows.
  - reflexivity.
  - unfold TGA_accepted. by_decide.
  - by_decide.
Defined.

Lemma CreateTextureFromTGAMemory_accepts_empty_image_witness :
  CreateTextureFromTGAMemory desktop rejecting_driver 5
    (sample_header_of Byte.x00 Byte.x00 Byte.x05 Byte.x00) gl_initial
  = Ok (drv_gen_texture rejecting_driver gl_initial,
        replay rejecting_driver
          (CreateTexture_calls (drv_gen_texture rejecting_driver gl_initial)
                               [] 0 5) gl_initial).
Proof.
  destruct (CreateTextureFromTGAMemory_accepts_empty_image desktop
              rejecting_driver 5
              (sample_header_of Byte.x00 Byte.x00 Byte.x05 Byte.x00)
              gl_initial) as [Hrun _].
  - reflexivity.
  - unfold TGA_accepted. by_decide.
  - left. reflexivity.
  - by_decide.
  - exact Hrun.
Defined.

Lemma CreateTextureFromTGAMemory_depends_on_witness :
  CreateTextureFromTGAMemory desktop rejecting_driver 2 sample_3x2 gl_initial
  = CreateTextureFromTGAMemory desktop rejecting_driver 2 sample_3x2_other
      gl_initial.
Proof.
  apply CreateTextureFromTGAMemory_depends_on.
  - reflexivity.
  - unfold TGA_accepted. by_decide.
  - by_decide.
  - by_decide.
  - by_decide.
  - by_decide.
  - split; [|split; reflexivity].
    intros offset Hin. rewrite !elem_of_cons in Hin.
    destruct Hin as [->|[->|[->|[->|[->|[->|[->|[->|Hin]]]]]]]];
      try reflexivity.
    by apply elem_of_nil in Hin.
Defined.

Lemma CompileAndLinkShader_success_leaves_program_current_witness :
  ∃ shader s',
    CompileAndLinkShader desktop accepting_driver sample_renderer
      "void main() { }" "void main() { }" gl_initial
    = Ok ((Some shader, sample_renderer), s')
    ∧ NoDup [program_ shader; vs_ shader; ps_ shader]
    ∧ gl_current_program s' = program_ shader
    ∧ gl_programs s' !! program_ shader
      = Some (linked_program (vs_ shader) (ps_ shader) "").
Proof.
  destruct (CompileAndLinkShader_success_leaves_program_current desktop
              accepting_driver sample_renderer "void main() { }"
              "void main() { }" gl_initial)
    as (shader & s' & Hrun & _ & _ & _ & Hdup & _ & _ & _ & Hcur & Hprog & _).
  - apply sequential_driver_fresh.
  - reflexivity.
  - reflexivity.
  - reflexivity.
  - exists shader, s'. split; [exact Hrun|]. split; [exact Hdup|].
    split; [exact Hcur|exact Hprog].
Defined.

Lemma CompileAndLinkShader_success_calls_witness :
  ∃ shader s1,
    CompileAndLinkShader desktop accepting_driver sample_renderer
      "void main() { }" "void main() { }" gl_initial
    = Ok ((Some shader, sample_renderer),
          step accepting_driver s1 (UseProgram (program_ shader)))
    ∧ gl_current_program s1 = gl_current_program gl_initial
    ∧ gl_current_program gl_initial ≠ program_ shader.
Proof.
  destruct (CompileAndLinkShader_success_calls desktop accepting_driver
              sample_renderer "void main() { }" "void main() { }"
              gl_initial)
    as (shader & s1 & Hrun & _ & _ & Hcur & Hne & _).
  - apply sequential_driver_fresh.
  - reflexivity.
  - reflexivity.
  - reflexivity.
  - exists shader, s1. split; [exact Hrun|]. split; [exact Hcur|exact Hne].
Defined.

Lemma CompileShader_success_attaches_stage_witness :
  ∃ sh s',
    CompileShader desktop accepting_driver sample_renderer GL_VERTEX_SHADER 1
      "void main() { }" (step accepting_driver gl_initial (CreateProgram 1))
    = Ok ((sh, sample_renderer), s')
    ∧ sh ≠ 0
    ∧ sh ∈ attached_names (gl_programs s').
Proof.
  destruct (CompileShader_success_attaches_stage desktop accepting_driver
              sample_renderer GL_VERTEX_SHADER 1 new_program
              "void main() { }"
              (step accepting_driver gl_initial (CreateProgram 1)))
    as (sh & s' & Hrun & Hnz & _ & _ & _ & Hatt & _).
  - apply sequential_driver_fresh.
  - vm_compute. reflexivity.
  - reflexivity.
  - exists sh, s'. split; [exact Hrun|]. split; [exact Hnz|exact Hatt].
Defined.

Lemma RenderArray_draws_once_from_client_memory_witness :
  ∃ s',
    RenderArray desktop rejecting_driver 3 GL_TRIANGLES 6
      ([kPosition3f; kColor4ub] ++ kEND :: []) 16 4096 8192 gl_initial
    = Ok (tt, s')
    ∧ gl_calls s'
      = [BindBuffer GL_ARRAY_BUFFER 0;
         EnableVertexAttribArray 0;
         VertexAttribPointer 0 3 GL_FLOAT false 16 4096;
         EnableVertexAttribArray 3;
         VertexAttribPointer 3 4 GL_UNSIGNED_BYTE true 16 4108;
         BindBuffer GL_ELEMENT_ARRAY_BUFFER 0;
         DrawElements GL_TRIANGLES 6 GL_UNSIGNED_INT 8192;
         DisableVertexAttribArray 0;
         DisableVertexAttribArray 3]
    ∧ gl_objects s' = gl_objects gl_initial.
Proof.
  destruct (RenderArray_draws_once_from_client_memory desktop
              rejecting_driver 3 GL_TRIANGLES 6 [kPosition3f; kColor4ub] []
              16 4096 8192 gl_initial)
    as (s' & Hrun & Hs' & _ & _ & Hobjects).
  - by_decide.
  - simpl. lia.
  - exists s'. split; [exact Hrun|]. split; [|exact Hobjects].
    rewrite Hs'. reflexivity.
Defined.

Lemma AddIndices_appends_a_range_witness :
  ∃ name this' s',
    AddIndices desktop rejecting_driver sample_new_mesh [0; 1; 2] 3 100
      (step rejecting_driver gl_initial (GenBuffers 1))
    = Ok (this', s')
    ∧ indices_ this' = [{| count := 3; ibo := name; mat := 100 |}]
    ∧ name ≠ 0
    ∧ (name ∉ gl_buffers (step rejecting_driver gl_initial (GenBuffers 1)))
    ∧ gl_calls s'
      = [GenBuffers 1; GenBuffers name;
         BindBuffer GL_ELEMENT_ARRAY_BUFFER name;
         BufferData GL_ELEMENT_ARRAY_BUFFER 12 [0; 1; 2] GL_STATIC_DRAW].
Proof.
  destruct (AddIndices_appends_a_range desktop rejecting_driver ∅
              sample_new_mesh [0; 1; 2] 3 100
              (step rejecting_driver gl_initial (GenBuffers 1)))
    as (name & this' & s' & Hrun & Hindices & _ & _ & _ & Hnz & Hnew & _ & _
        & Hcalls).
  - apply sequential_driver_fresh.
  - split; [|split].
    + apply NoDup_singleton.
    + intros name _. apply not_elem_of_empty.
    + by_decide.
  - reflexivity.
  - unfold INT_MIN, INT_MAX. lia.
  - by_decide.
  - exists name, this', s'. split; [exact Hrun|]. split; [exact Hindices|].
    split; [exact Hnz|]. split; [exact Hnew|exact Hcalls].
Defined.

Lemma Initialize_headless_run :
  ∃ this' s',
    Initialize desktop headless_sdl false sample_GLBASEEXTS sample_GLEXTS
      sample_RendererSDL (640, 480) "pie noon" sdl_initial
    = Ok ((false, this'), s').
Proof. eexists _, _. vm_compute. reflexivity. Defined.

Lemma Initialize_reports_failure_witness :
  ∃ this' s',
    Initialize desktop headless_sdl false sample_GLBASEEXTS sample_GLEXTS
      sample_RendererSDL (640, 480) "pie noon" sdl_initial
    = Ok ((false, this'), s')
    ∧ ((∃ r e,
          r ≠ 0
          ∧ sdl_calls s'
            = sdl_calls sdl_initial ++ [Init SDL_INIT_VIDEO r; GetError e]
          ∧ last_error_ (shared this') = "SDL_Init fail: " +:+ e)
       ∨ (∃ e,
            window_ this' = 0
            ∧ last (sdl_calls s') = Some (GetError e)
            ∧ last_error_ (shared this') = "SDL_CreateWindow fail: " +:+ e)
       ∨ (∃ e,
            window_ this' ≠ 0 ∧ context_ this' = 0
            ∧ last (sdl_calls s') = Some (GetError e)
            ∧ last_error_ (shared this')
              = "SDL_GL_CreateContext fail: " +:+ e)
       ∨ (∃ exts e,
            last (sdl_calls s') = Some (GetString_EXTENSIONS (Some exts))
            ∧ e ∈ required_extensions ∧ strstr exts e = false
            ∧ last_error_ (shared this') = "missing GL extensions")
       ∨ (∃ name,
            name ∈ sample_GLBASEEXTS ++ sample_GLEXTS
            ∧ last (sdl_calls s') = Some (GL_GetProcAddress name 0)
            ∧ last_error_ (shared this')
              = "could not retrieve GL function pointer " +:+ name)).
Proof.
  destruct Initialize_headless_run as (this' & s' & Hrun).
  exists this', s'. split; [exact Hrun|].
  exact (Initialize_reports_failure desktop headless_sdl false
           sample_GLBASEEXTS sample_GLEXTS sample_RendererSDL (640, 480)
           "pie noon" sdl_initial false this' s' Hrun).
Defined.

(** The runs of Initialize that the lemmas below are about. *)
Lemma Initialize_sample_run :
  ∃ this' s',
    Initialize desktop sample_sdl false sample_GLBASEEXTS sample_GLEXTS
      sample_RendererSDL (640, 480) "pie noon" sdl_initial
    = Ok ((true, this'), s').
Proof. eexists _, _. vm_compute. reflexivity. Defined.

Lemma Initialize_no_context_run :
  ∃ this' s',
    Initialize desktop no_context_sdl false sample_GLBASEEXTS sample_GLEXTS
      sample_RendererSDL (640, 480) "pie noon" sdl_initial
    = Ok ((false, this'), s')
    ∧ window_ this' ≠ 0.
Proof. eexists _, _. split; [vm_compute; reflexivity|by_decide]. Defined.

Lemma Initialize_second_run :
  ∃ this' s',
    Initialize desktop sample_sdl false sample_GLBASEEXTS sample_GLEXTS
      (set_window 5 sample_RendererSDL) (640, 480) "pie noon"
      (set_windows {[5]} sdl_initial)
    = Ok ((true, this'), s').
Proof. eexists _, _. vm_compute. reflexivity. Defined.

Lemma Initialize_success_gives_window_and_context_witness :
  ∃ this' s',
    Initialize desktop sample_sdl false sample_GLBASEEXTS sample_GLEXTS
      sample_RendererSDL (640, 480) "pie noon" sdl_initial
    = Ok ((true, this'), s')
    ∧ window_ this' ∈ sdl_windows s'
    ∧ context_ this' ∈ sdl_contexts s'
    ∧ GetWindowSize (window_ this') (window_size_ this') ∈ sdl_calls s'
    ∧ ∀ name, name ∈ sample_GLBASEEXTS ++ sample_GLEXTS →
              ∃ p, gl_function_pointers s' !! name = Some p ∧ p ≠ 0.
Proof.
  destruct Initialize_sample_run as (this' & s' & Hrun).
  destruct (Initialize_success_gives_window_and_context desktop sample_sdl
              false sample_GLBASEEXTS sample_GLEXTS sample_RendererSDL
              (640, 480) "pie noon" sdl_initial this' s' Hrun)
    as (_ & Hw & _ & Hc & Hsize & _ & Hall).
  exists this', s'. split; [exact Hrun|].
  split; [exact Hw|]. split; [exact Hc|]. split; [exact Hsize|].
  apply Hall; reflexivity.
Defined.

Lemma Initialize_keeps_what_it_created_witness :
  ∃ this' s',
    Initialize desktop no_context_sdl false sample_GLBASEEXTS sample_GLEXTS
      sample_RendererSDL (640, 480) "pie noon" sdl_initial
    = Ok ((false, this'), s')
    ∧ window_ this' ≠ 0
    ∧ sdl_windows s'
      = (if decide (window_ this' = 0) then sdl_windows sdl_initial
         else {[window_ this']} ∪ sdl_windows sdl_initial).
Proof.
  destruct Initialize_no_context_run as (this' & s' & Hrun & Hnz).
  destruct (Initialize_keeps_what_it_created desktop no_context_sdl false
              sample_GLBASEEXTS sample_GLEXTS sample_RendererSDL (640, 480)
              "pie noon" sdl_initial false this' s' no_context_sdl_fresh
              eq_refl eq_refl Hrun)
    as (_ & Hw & _).
  exists this', s'. split; [exact Hrun|]. split; [exact Hnz|exact Hw].
Defined.

Lemma Initialize_then_ShutDown_releases_everything_witness :
  ∃ this1 s1 this2 s2,
    Initialize desktop no_context_sdl false sample_GLBASEEXTS sample_GLEXTS
      sample_RendererSDL (640, 480) "pie noon" sdl_initial
    = Ok ((false, this1), s1)
    ∧ window_ this1 ≠ 0
    ∧ ShutDown this1 s1 = Ok (this2, s2)
    ∧ window_ this2 = 0
    ∧ sdl_windows s2 = sdl_windows sdl_initial.
Proof.
  destruct Initialize_no_context_run as (this1 & s1 & Hrun & Hnz).
  destruct (Initialize_then_ShutDown_releases_everything desktop
              no_context_sdl false sample_GLBASEEXTS sample_GLEXTS
              sample_RendererSDL (640, 480) "pie noon" sdl_initial false
              this1 s1 no_context_sdl_fresh eq_refl eq_refl Hrun)
    as (this2 & s2 & Hdown & Hw & _ & _ & Hwindows & _).
  exists this1, s1, this2, s2. split; [exact Hrun|]. split; [exact Hnz|].
  split; [exact Hdown|]. split; [exact Hw|exact Hwindows].
Defined.

Lemma AdvanceFrame_uses_the_size_of_the_window_witness :
  ∃ this' s' size s'',
    Initialize desktop sample_sdl false sample_GLBASEEXTS sample_GLEXTS
      sample_RendererSDL (640, 480) "pie noon" sdl_initial
    = Ok ((true, this'), s')
    ∧ GetWindowSize (window_ this') size ∈ sdl_calls s'
    ∧ AdvanceFrame this' false s' = Ok (tt, s'')
    ∧ sdl_calls s''
      = sdl_calls s'
        ++ [GL_SwapWindow (window_ this'); Viewport 0 0 size.1 size.2].
Proof.
  destruct Initialize_sample_run as (this' & s' & Hrun).
  destruct (AdvanceFrame_uses_the_size_of_the_window desktop sample_sdl
              false sample_GLBASEEXTS sample_GLEXTS sample_RendererSDL
              (640, 480) "pie noon" sdl_initial this' s' false Hrun)
    as (size & s'' & Hsize & Hframe & Hcalls & _).
  exists this', s', size, s''. split; [exact Hrun|].
  split; [exact Hsize|]. split; [exact Hframe|exact Hcalls].
Defined.

Lemma Initialize_reads_null_extension_string_witness :
  Initialize desktop no_extensions_sdl false sample_GLBASEEXTS sample_GLEXTS
    sample_RendererSDL (640, 480) "pie noon" sdl_initial = Undefined.
Proof.
  apply Initialize_reads_null_extension_string.
  - reflexivity.
  - intros st. reflexivity.
  - intros st. cbn. pose proof (max_name_nonneg (sdl_windows st)). lia.
  - intros st window. cbn.
    pose proof (max_name_nonneg (sdl_contexts st)). lia.
  - intros st. reflexivity.
Defined.

Lemma Initialize_twice_leaks_the_first_window_witness :
  ∃ this1 s1 this2 s2,
    Initialize desktop sample_sdl false sample_GLBASEEXTS sample_GLEXTS
      (set_window 5 sample_RendererSDL) (640, 480) "pie noon"
      (set_windows {[5]} sdl_initial)
    = Ok ((true, this1), s1)
    ∧ ShutDown this1 s1 = Ok (this2, s2)
    ∧ window_ this2 = 0
    ∧ 5 ∈ sdl_windows s2.
Proof.
  destruct Initialize_second_run as (this1 & s1 & Hrun).
  destruct (Initialize_twice_leaks_the_first_window desktop sample_sdl
              false sample_GLBASEEXTS sample_GLEXTS
              (set_window 5 sample_RendererSDL) (640, 480) "pie noon"
              (set_windows {[5]} sdl_initial) this1 s1 sample_sdl_fresh)
    as (this2 & s2 & Hdown & _ & Hw & _ & Halive).
  - by_decide.
  - by_decide.
  - exact Hrun.
  - exists this1, s1, this2, s2. split; [exact Hrun|]. split; [exact Hdown|].
    split; [exact Hw|exact Halive].
Defined.
(** * The model at sample inputs *)

(** Without an End the walk leaves the array. *)
Example SetAttributes_without_END :
  SetAttributes desktop rejecting_driver 1 7 [kPosition3f] 12 0 gl_initial
  = OutOfFuel
  ∧ SetAttributes desktop rejecting_driver 2 7 [kPosition3f] 12 0 gl_initial
    = Undefined.
Proof. split; reflexivity. Qed.

(** RenderArray binds from the caller's memory at [vertices]. *)
Example RenderArray_calls :
  (λ r, match r with Ok (_, s) => gl_calls s | _ => [] end)
    (RenderArray desktop rejecting_driver 3 GL_TRIANGLES 6
       [kPosition3f; kColor4ub; kEND] 16 4096 8192 gl_initial)
  = [BindBuffer GL_ARRAY_BUFFER 0;
     EnableVertexAttribArray 0;
     VertexAttribPointer 0 3 GL_FLOAT false 16 4096;
     EnableVertexAttribArray 3;
     VertexAttribPointer 3 4 GL_UNSIGNED_BYTE true 16 4108;
     BindBuffer GL_ELEMENT_ARRAY_BUFFER 0;
     DrawElements GL_TRIANGLES 6 GL_UNSIGNED_INT 8192;
     DisableVertexAttribArray 0;
     DisableVertexAttribArray 3].
Proof. reflexivity. Qed.

(** A successful compile and link: program 1 with stages 2 and 3, made
    current; nothing is deleted. *)
Example CompileAndLinkShader_succeeds :
  (λ r, match r with
        | Ok ((shader, _), s) =>
            Some (shader, gl_current_program s,
                  bool_decide (dom (gl_shaders s) = {[2; 3]}),
                  bool_decide (dom (gl_programs s) = {[1]}))
        | _ => None
        end)
    (CompileAndLinkShader desktop accepting_driver sample_renderer
       "void main() { }" "void main() { }" gl_initial)
  = Some (Some {| program_ := 1; vs_ := 2; ps_ := 3;
                  uniform_model_view_projection_ := -1;
                  uniform_color_ := -1; uniform_texture_unit_0 := -1 |},
          1, true, true).
Proof. vm_compute. reflexivity. Qed.

(** The image of the samples, as uploaded: R, G, B, A per pixel. *)
Example CreateTextureFromTGAMemory_sample :
  uploaded (CreateTextureFromTGAMemory desktop rejecting_driver 3
              (sample_header Byte.x00 ++ sample_pixels) gl_initial)
  = Some (Some <$> [Byte.x19; Byte.x1a; Byte.x1b; Byte.x1f;
                    Byte.x29; Byte.x2a; Byte.x2b; Byte.x2f;
                    Byte.x39; Byte.x3a; Byte.x3b; Byte.x3f;
                    Byte.x49; Byte.x4a; Byte.x4b; Byte.x4f]).
Proof. vm_compute. reflexivity. Qed.

(** With the flip bit set the rows of the same pixel data come out in the
    opposite order. *)
Example CreateTextureFromTGAMemory_sample_flipped :
  uploaded (CreateTextureFromTGAMemory desktop rejecting_driver 3
              (sample_header Byte.x20 ++ sample_pixels) gl_initial)
  = Some (Some <$> [Byte.x39; Byte.x3a; Byte.x3b; Byte.x3f;
                    Byte.x49; Byte.x4a; Byte.x4b; Byte.x4f;
                    Byte.x19; Byte.x1a; Byte.x1b; Byte.x1f;
                    Byte.x29; Byte.x2a; Byte.x2b; Byte.x2f]).
Proof. vm_compute. reflexivity. Qed.

(** The same buffer on a big-endian host, and a buffer that ends before its
    last pixel. *)
Example CreateTextureFromTGAMemory_big_endian_and_truncated :
  CreateTextureFromTGAMemory big_endian_desktop rejecting_driver 3
    (sample_header Byte.x00 ++ sample_pixels) gl_initial = Ok (0, gl_initial)
  ∧ CreateTextureFromTGAMemory desktop rejecting_driver 3
      (sample_header Byte.x00 ++ take 15 sample_pixels) gl_initial
    = Undefined.
Proof. split; vm_compute; reflexivity. Qed.


(** The window functions at sample inputs: a desktop with a display, a
    phone, and a machine without a video device. *)
Example Initialize_on_the_desktop :
  sdl_outcome
    (Initialize desktop sample_sdl false sample_GLBASEEXTS sample_GLEXTS
       sample_RendererSDL (640, 480) "pie noon" sdl_initial)
  = Some ((true,
           {| shared := sample_renderer; window_ := 1; context_ := 1;
              window_size_ := (1920, 1080) |}),
          [Init SDL_INIT_VIDEO 0;
           GL_SetAttribute SDL_GL_CONTEXT_MAJOR_VERSION 2;
           GL_SetAttribute SDL_GL_CONTEXT_MINOR_VERSION 1;
           GL_SetAttribute SDL_GL_CONTEXT_PROFILE_MASK 2;
           GL_SetAttribute SDL_GL_DOUBLEBUFFER 1;
           CreateWindow "pie noon" SDL_WINDOWPOS_CENTERED
             SDL_WINDOWPOS_CENTERED 640 480
             [SDL_WINDOW_OPENGL; SDL_WINDOW_SHOWN; SDL_WINDOW_RESIZABLE] 1;
           GetWindowSize 1 (1920, 1080);
           GL_CreateContext 1 1;
           GL_SetSwapInterval 1;
           GetString_EXTENSIONS
             (Some ("GL_ARB_fragment_program GL_ARB_multitexture "
                    +:+ "GL_ARB_vertex_buffer_object GL_ARB_vertex_program"));
           GL_GetProcAddress "glActiveTexture" 4096;
           GL_GetProcAddress "glGenBuffers" 4096;
           GL_GetProcAddress "glBindBuffer" 4096]).
Proof. vm_compute. reflexivity. Qed.

Example Initialize_on_a_phone :
  sdl_outcome
    (Initialize
       {| PLATFORM_MOBILE := true; host_little_endian := true;
          size_t_bits := 32 |}
       no_extensions_sdl false sample_GLBASEEXTS sample_GLEXTS
       sample_RendererSDL (640, 480) "pie noon" sdl_initial)
  = Some ((true,
           {| shared := sample_renderer; window_ := 1; context_ := 1;
              window_size_ := (640, 480) |}),
          [Init SDL_INIT_VIDEO 0;
           GL_SetAttribute SDL_GL_CONTEXT_MAJOR_VERSION 2;
           GL_SetAttribute SDL_GL_DOUBLEBUFFER 1;
           CreateWindow "pie noon" SDL_WINDOWPOS_CENTERED
             SDL_WINDOWPOS_CENTERED 640 480
             [SDL_WINDOW_OPENGL; SDL_WINDOW_SHOWN; SDL_WINDOW_BORDERLESS] 1;
           GetWindowSize 1 (640, 480);
           GL_CreateContext 1 1]).
Proof. vm_compute. reflexivity. Qed.

Example Initialize_without_a_display :
  Initialize desktop headless_sdl false sample_GLBASEEXTS sample_GLEXTS
    sample_RendererSDL (640, 480) "pie noon" sdl_initial
  = Ok ((false,
         set_last_error "SDL_Init fail: No available video device"
                        sample_RendererSDL),
        {| sdl_calls := [Init SDL_INIT_VIDEO (-1);
                         GetError "No available video device"];
           sdl_windows := ∅; sdl_contexts := ∅;
           gl_function_pointers := ∅ |}).
Proof. reflexivity. Qed.

Example Initialize_without_a_function :
  sdl_outcome
    (Initialize desktop
       {| sdl_init _ := 0; sdl_error _ := "";
          sdl_create_window _ := 7; sdl_window_size _ _ := (640, 480);
          sdl_create_context _ _ := 9;
          sdl_extensions := sdl_extensions sample_sdl;
          sdl_proc_address _ name :=
            if decide (name = "glBindBuffer") then 0 else 4096 |}
       false sample_GLBASEEXTS sample_GLEXTS
       sample_RendererSDL (640, 480) "pie noon" sdl_initial)
  = Some ((false,
           {| shared :=
                {| last_error_ :=
                     "could not retrieve GL function pointer glBindBuffer" |};
              window_ := 7; context_ := 9; window_size_ := (640, 480) |}),
          [Init SDL_INIT_VIDEO 0;
           GL_SetAttribute SDL_GL_CONTEXT_MAJOR_VERSION 2;
           GL_SetAttribute SDL_GL_CONTEXT_MINOR_VERSION 1;
           GL_SetAttribute SDL_GL_CONTEXT_PROFILE_MASK 2;
           GL_SetAttribute SDL_GL_DOUBLEBUFFER 1;
           CreateWindow "pie noon" SDL_WINDOWPOS_CENTERED
             SDL_WINDOWPOS_CENTERED 640 480
             [SDL_WINDOW_OPENGL; SDL_WINDOW_SHOWN; SDL_WINDOW_RESIZABLE] 7;
           GetWindowSize 7 (640, 480);
           GL_CreateContext 7 9;
           GL_SetSwapInterval 1;
           GetString_EXTENSIONS
             (Some ("GL_ARB_fragment_program GL_ARB_multitexture "
                    +:+ "GL_ARB_vertex_buffer_object GL_ARB_vertex_program"));
           GL_GetProcAddress "glActiveTexture" 4096;
           GL_GetProcAddress "glGenBuffers" 4096;
           GL_GetProcAddress "glBindBuffer" 0]).
Proof. vm_compute. reflexivity. Qed.

Example strstr_finds_substrings :
  strstr "GL_ARB_multitexture GL_ARB_vertex_program" "GL_ARB_vertex_program"
  = true
  ∧ strstr "GL_ARB_multitexture" "GL_ARB_vertex_program" = false
  ∧ strstr "GL_ARB_vertex_program_extra" "GL_ARB_vertex_program" = true.
Proof. vm_compute. repeat split. Qed.

Example TGA_image_of_sample_3x2 :
  TGA_image 24 3 2 true (TGA_pixels sample_3x2)
  = [Byte.x49; Byte.x4a; Byte.x4b; Byte.xff;
     Byte.x59; Byte.x5a; Byte.x5b; Byte.xff;
     Byte.x69; Byte.x6a; Byte.x6b; Byte.xff;
     Byte.x19; Byte.x1a; Byte.x1b; Byte.xff;
     Byte.x29; Byte.x2a; Byte.x2b; Byte.xff;
     Byte.x39; Byte.x3a; Byte.x3b; Byte.xff]
  ∧ uploaded (CreateTextureFromTGAMemory desktop rejecting_driver 2
                sample_3x2 gl_initial)
    = Some (Some <$> TGA_image 24 3 2 true (TGA_pixels sample_3x2)).
Proof. vm_compute. repeat split. Qed.

(** The size AddIndices passes to glBufferData is 4 × count as a
    [GLsizeiptr]: a count of -1 gives -4, and where pointers have 32 bits
    a count of 2^29 gives -2^31. *)
Example AddIndices_size_of_count :
  let size plat count :=
    match AddIndices plat rejecting_driver sample_new_mesh [] count 100
            gl_initial with
    | Ok (_, s) => last (gl_calls s)
    | _ => None
    end in
  size desktop (-1)
  = Some (BufferData GL_ELEMENT_ARRAY_BUFFER (-4) [] GL_STATIC_DRAW)
  ∧ size {| PLATFORM_MOBILE := true; host_little_endian := true;
            size_t_bits := 32 |} (2 ^ 29)
    = Some (BufferData GL_ELEMENT_ARRAY_BUFFER (- 2 ^ 31) []
              GL_STATIC_DRAW).
Proof. split; vm_compute; reflexivity. Qed.
